(** * Snack dispenser controller

    A shallow embedding of [snack_dispenser.c]: the non-blocking animation
    engine, the countdown timers, the dispense synchroniser and the
    purchase/service state machine of [main], followed by the properties
    established about them.

    Modelling conventions.
    - C [int] and [long long] values are [Z].  Every quantity handled here is
      far from the limits of its type (keypad buffers hold at most four
      digits, stocks and amounts are at most 15, times are milliseconds of a
      monotonic clock), except the [(int)] cast of [timer_seconds_left],
      whose wrap-around is written out.
    - C flags that only ever hold 0 or 1 ([active], [oneshot_done],
      [service_mode], [index_timer_active], [svc_blink_on]) are [bool].
    - The NUL-terminated keypad buffers [selbuf], [amtbuf], [svcbuf] are
      [string]s; the companion length variables [sellen], [amtlen], [svclen]
      are always the length of the buffer and are read as [String.length].
    - Time is a clock in microseconds that advances by [usleep] (by exactly
      the requested duration) and by the [elapsed] input of each poll
      iteration; [now_ms] reads it in milliseconds.
    - Calls into the peripheral drivers are recorded, newest first, in a
      trace of [Event]s. *)

From Stdlib Require Import ZArith List String Ascii Bool Lia DecimalString.
From Stdlib Require Import Permutation.
Import ListNotations.
Local Open Scope string_scope.
Local Open Scope Z_scope.

(** ** Ports *)

Definition LEDPORT_NORMAL : Z := 0x3A.
Definition LCDPORT_NORMAL : Z := 0x3B.
Definition SMPORT_NORMAL  : Z := 0x39.
Definition KBDPORT_NORMAL : Z := 0x3C.

Definition LEDPORT_ADMIN : Z := 0x1A.
Definition LCDPORT_ADMIN : Z := 0x1B.
Definition SMPORT_ADMIN  : Z := 0x19.
Definition KBDPORT_ADMIN : Z := 0x1C.

Record Ports : Type := mkPorts {
  gLedPort : Z;
  gLcdPort : Z;
  gSmPort : Z;
  gKbdPort : Z
}.

Definition ports_normal : Ports :=
  mkPorts LEDPORT_NORMAL LCDPORT_NORMAL SMPORT_NORMAL KBDPORT_NORMAL.
Definition ports_admin : Ports :=
  mkPorts LEDPORT_ADMIN LCDPORT_ADMIN SMPORT_ADMIN KBDPORT_ADMIN.

(** ** Constants *)

Definition Bin2LED : list Z :=
  [0x40; 0x79; 0x24; 0x30; 0x19; 0x12; 0x02; 0x78;
   0x00; 0x18; 0x08; 0x03; 0x46; 0x21; 0x06; 0x0E].

Definition full_seq_drive : list Z := [0x08; 0x04; 0x02; 0x01].

Definition IMG_MENU := "/tmp/menu.jpg".
Definition IMG_THANKS := "/tmp/success.jpg".
Definition IMG_DISP_1 := "/tmp/disp_1.jpg".
Definition IMG_DISP_2 := "/tmp/disp_2.jpg".
Definition IMG_DISP_3 := "/tmp/disp_3.jpg".
Definition IMG_DISP_4 := "/tmp/disp_4.jpg".
Definition IMG_SERVICE_MANUAL := "/tmp/service.jpg".
Definition IMG_MENU_SERVICE := "/tmp/menu_service.jpg".
Definition IMG_RESTOCK := "/tmp/restock.jpg".
Definition IMG_SOUND := "/tmp/sound.jpg".
Definition IMG_MOTOR := "/tmp/motor.jpg".
Definition IMG_DOOR_1 := "/tmp/door_1.jpg".
Definition IMG_DOOR_2 := "/tmp/door_2.jpg".
Definition IMG_DOOR_3 := "/tmp/door_3.jpg".
Definition IMG_DOOR_4 := "/tmp/door_4.jpg".
Definition IMG_ZOOM_1 := "/tmp/cheetos.jpg".
Definition IMG_ZOOM_2 := "/tmp/lays.jpg".
Definition IMG_ZOOM_3 := "/tmp/doritos.jpg".
Definition IMG_ZOOM_4 := "/tmp/pocky.jpg".
Definition IMG_ZOOM_1_OOS := "/tmp/cheetos_oos.jpg".
Definition IMG_ZOOM_2_OOS := "/tmp/lays_oos.jpg".
Definition IMG_ZOOM_3_OOS := "/tmp/doritos_oos.jpg".
Definition IMG_ZOOM_4_OOS := "/tmp/pocky_oos.jpg".

Definition KEY_BACK : ascii := "A"%char.
Definition KEY_ENTER : ascii := "B"%char.
(** [0xFF], the value [ScanKey] returns when no key is down. *)
Definition KEY_NONE : ascii := ascii_of_N 255.

Definition IDLE_MS : Z := 9000.
Definition SVC_GATE_TIMEOUT_MS : Z := 8000.
Definition RETURN_GATE_TIMEOUT_MS : Z := 8000.
Definition MAX_COUNT : Z := 15.

Definition USLEEP_ERR_SHORT_US : Z := 700000.
Definition USLEEP_ERR_LONG_US : Z := 1200000.
Definition USLEEP_SUCCESS_SCREEN_US : Z := 5000000.
Definition USLEEP_SVC_DONE_US : Z := 1200000.
Definition USLEEP_OOS_SCREEN_US : Z := 4500000.

Definition DOOR_N : Z := 4.
Definition DOOR_FRAME_MS : Z := 800.
Definition DISP_N : Z := 4.
Definition DISP_FRAME_MS : Z := DOOR_FRAME_MS.
Definition door_frames : list string := [IMG_DOOR_1; IMG_DOOR_2; IMG_DOOR_3; IMG_DOOR_4].
Definition disp_frames : list string := [IMG_DISP_1; IMG_DISP_2; IMG_DISP_3; IMG_DISP_4].

Definition TOTAL_STEPS_PER_ITEM : nat := 60.
Definition DISPENSE_CYCLE_US : Z := 3000000.
Definition DISP_PHASE_DELAY_US : Z :=
  DISPENSE_CYCLE_US / (Z.of_nat TOTAL_STEPS_PER_ITEM * 4).
Definition MOTOR_STEPS_PER_CYCLE : nat := 18.
Definition MOTOR_PHASE_DELAY_US : Z := 4500.

(** ** Data model *)

Inductive State : Type :=
| ST_MENU | ST_AMOUNT | ST_PAY
| ST_SVC_GATE | ST_RETURN_GATE
| ST_DOOR_OPENING | ST_DOOR_CLOSING
| ST_SVC_MENU
| ST_SVC_DISPENSE_IDX | ST_SVC_DISPENSE_AMT
| ST_SVC_RESTOCK_IDX | ST_SVC_RESTOCK_QTY
| ST_SVC_SOUND_SEL | ST_SVC_MOTOR_CYC
| ST_DISPENSING.

(** An [Item] of the catalog.  The C [float] price is kept in cents: the
    catalog prices (1.50 and 1.75) and their multiples up to 15 are exact in
    binary floating point, and the price is only ever printed. *)
Record Item : Type := mkItem {
  index : Z;
  name : string;
  price : Z;
  img : string;
  img_oos : string;
  stock : Z
}.

Record Anim : Type := mkAnim {
  active : bool;
  frames : list string;
  nframes : Z;
  idx : Z;
  direction : Z;
  next_ms : Z;
  frame_ms : Z;
  oneshot_done : bool
}.

(** Calls into the drivers, with the port they address. *)
Inductive Event : Type :=
| EvImage (path : string)
| EvLcd (port : Z) (l1 l2 : string)
| EvSeg (port : Z) (value : Z)
| EvMotorPhase (port : Z) (phase : Z) (drive : Z)
| EvMotorStop (port : Z)
| EvTone (duration_ms half_period_us hi lo : Z).

(** The control state: the locals of [main] and the run-time port mapping
    ([gLedPort], [gLcdPort], [gSmPort], [gKbdPort]). *)
Record Ctl : Type := mkCtl {
  st : State;
  selbuf : string;
  amtbuf : string;
  svcbuf : string;
  chosen_slot : Z;
  amount : Z;
  total : Z;
  pay_zero_count : Z;
  index_timer_active : bool;
  service_mode : bool;
  svc_gate_deadline : Z;
  return_gate_deadline : Z;
  svc_disp_slot : Z;
  restock_slot : Z;
  items : list Item;
  ports : Ports
}.

(** The other file-scope variables and the function statics: the two
    animation tracks, the idle timer, the service blink, and the [static int
    phase] of [run_one_dispense_cycle_with_anim] ([disp_phase]) and of
    [motor_spin_one_cycle] ([spin_phase]). *)
Record Hw : Type := mkHw {
  gDoorAnim : Anim;
  gDispAnim : Anim;
  idle_deadline : Z;
  last_shown : Z;
  svc_blink_next : Z;
  svc_blink_on : bool;
  disp_phase : Z;
  spin_phase : Z
}.

(** The environment: the clock in microseconds, the trace of driver calls,
    and the image files that exist. *)
Record World : Type := mkWorld {
  clock : Z;
  trace : list Event;
  assets : list string
}.

(** The whole program state. *)
Record Machine : Type := mkMachine {
  ctl : Ctl;
  hw : Hw;
  world : World
}.

Coercion ctl : Machine >-> Ctl.
Coercion hw : Machine >-> Hw.
Coercion world : Machine >-> World.
Coercion ports : Ctl >-> Ports.

(** Assignments to one variable. *)
Definition set_st (v : State) (m : Machine) : Machine :=
  mkMachine (mkCtl v (selbuf m) (amtbuf m) (svcbuf m) (chosen_slot m) (amount m)
    (total m) (pay_zero_count m) (index_timer_active m) (service_mode m)
    (svc_gate_deadline m) (return_gate_deadline m) (svc_disp_slot m) (restock_slot
    m) (items m) (ports m)) (hw m) (world m).

Definition set_selbuf (v : string) (m : Machine) : Machine :=
  mkMachine (mkCtl (st m) v (amtbuf m) (svcbuf m) (chosen_slot m) (amount m) (total
    m) (pay_zero_count m) (index_timer_active m) (service_mode m) (svc_gate_deadline
    m) (return_gate_deadline m) (svc_disp_slot m) (restock_slot m) (items m) (ports
    m)) (hw m) (world m).

Definition set_amtbuf (v : string) (m : Machine) : Machine :=
  mkMachine (mkCtl (st m) (selbuf m) v (svcbuf m) (chosen_slot m) (amount m) (total
    m) (pay_zero_count m) (index_timer_active m) (service_mode m) (svc_gate_deadline
    m) (return_gate_deadline m) (svc_disp_slot m) (restock_slot m) (items m) (ports
    m)) (hw m) (world m).

Definition set_svcbuf (v : string) (m : Machine) : Machine :=
  mkMachine (mkCtl (st m) (selbuf m) (amtbuf m) v (chosen_slot m) (amount m) (total
    m) (pay_zero_count m) (index_timer_active m) (service_mode m) (svc_gate_deadline
    m) (return_gate_deadline m) (svc_disp_slot m) (restock_slot m) (items m) (ports
    m)) (hw m) (world m).

Definition set_chosen_slot (v : Z) (m : Machine) : Machine :=
  mkMachine (mkCtl (st m) (selbuf m) (amtbuf m) (svcbuf m) v (amount m) (total m)
    (pay_zero_count m) (index_timer_active m) (service_mode m) (svc_gate_deadline m)
    (return_gate_deadline m) (svc_disp_slot m) (restock_slot m) (items m) (ports m))
    (hw m) (world m).

Definition set_amount (v : Z) (m : Machine) : Machine :=
  mkMachine (mkCtl (st m) (selbuf m) (amtbuf m) (svcbuf m) (chosen_slot m) v (total
    m) (pay_zero_count m) (index_timer_active m) (service_mode m) (svc_gate_deadline
    m) (return_gate_deadline m) (svc_disp_slot m) (restock_slot m) (items m) (ports
    m)) (hw m) (world m).

Definition set_total (v : Z) (m : Machine) : Machine :=
  mkMachine (mkCtl (st m) (selbuf m) (amtbuf m) (svcbuf m) (chosen_slot m) (amount
    m) v (pay_zero_count m) (index_timer_active m) (service_mode m)
    (svc_gate_deadline m) (return_gate_deadline m) (svc_disp_slot m) (restock_slot
    m) (items m) (ports m)) (hw m) (world m).

Definition set_pay_zero_count (v : Z) (m : Machine) : Machine :=
  mkMachine (mkCtl (st m) (selbuf m) (amtbuf m) (svcbuf m) (chosen_slot m) (amount
    m) (total m) v (index_timer_active m) (service_mode m) (svc_gate_deadline m)
    (return_gate_deadline m) (svc_disp_slot m) (restock_slot m) (items m) (ports m))
    (hw m) (world m).

Definition set_index_timer_active (v : bool) (m : Machine) : Machine :=
  mkMachine (mkCtl (st m) (selbuf m) (amtbuf m) (svcbuf m) (chosen_slot m) (amount
    m) (total m) (pay_zero_count m) v (service_mode m) (svc_gate_deadline m)
    (return_gate_deadline m) (svc_disp_slot m) (restock_slot m) (items m) (ports m))
    (hw m) (world m).

Definition set_service_mode (v : bool) (m : Machine) : Machine :=
  mkMachine (mkCtl (st m) (selbuf m) (amtbuf m) (svcbuf m) (chosen_slot m) (amount
    m) (total m) (pay_zero_count m) (index_timer_active m) v (svc_gate_deadline m)
    (return_gate_deadline m) (svc_disp_slot m) (restock_slot m) (items m) (ports m))
    (hw m) (world m).

Definition set_svc_gate_deadline (v : Z) (m : Machine) : Machine :=
  mkMachine (mkCtl (st m) (selbuf m) (amtbuf m) (svcbuf m) (chosen_slot m) (amount
    m) (total m) (pay_zero_count m) (index_timer_active m) (service_mode m) v
    (return_gate_deadline m) (svc_disp_slot m) (restock_slot m) (items m) (ports m))
    (hw m) (world m).

Definition set_return_gate_deadline (v : Z) (m : Machine) : Machine :=
  mkMachine (mkCtl (st m) (selbuf m) (amtbuf m) (svcbuf m) (chosen_slot m) (amount
    m) (total m) (pay_zero_count m) (index_timer_active m) (service_mode m)
    (svc_gate_deadline m) v (svc_disp_slot m) (restock_slot m) (items m) (ports m))
    (hw m) (world m).

Definition set_svc_disp_slot (v : Z) (m : Machine) : Machine :=
  mkMachine (mkCtl (st m) (selbuf m) (amtbuf m) (svcbuf m) (chosen_slot m) (amount
    m) (total m) (pay_zero_count m) (index_timer_active m) (service_mode m)
    (svc_gate_deadline m) (return_gate_deadline m) v (restock_slot m) (items m)
    (ports m)) (hw m) (world m).

Definition set_restock_slot (v : Z) (m : Machine) : Machine :=
  mkMachine (mkCtl (st m) (selbuf m) (amtbuf m) (svcbuf m) (chosen_slot m) (amount
    m) (total m) (pay_zero_count m) (index_timer_active m) (service_mode m)
    (svc_gate_deadline m) (return_gate_deadline m) (svc_disp_slot m) v (items m)
    (ports m)) (hw m) (world m).

Definition set_items (v : list Item) (m : Machine) : Machine :=
  mkMachine (mkCtl (st m) (selbuf m) (amtbuf m) (svcbuf m) (chosen_slot m) (amount
    m) (total m) (pay_zero_count m) (index_timer_active m) (service_mode m)
    (svc_gate_deadline m) (return_gate_deadline m) (svc_disp_slot m) (restock_slot
    m) v (ports m)) (hw m) (world m).

Definition set_ports (v : Ports) (m : Machine) : Machine :=
  mkMachine (mkCtl (st m) (selbuf m) (amtbuf m) (svcbuf m) (chosen_slot m) (amount
    m) (total m) (pay_zero_count m) (index_timer_active m) (service_mode m)
    (svc_gate_deadline m) (return_gate_deadline m) (svc_disp_slot m) (restock_slot
    m) (items m) v) (hw m) (world m).

Definition set_gDoorAnim (v : Anim) (m : Machine) : Machine :=
  mkMachine (ctl m) (mkHw v (gDispAnim m) (idle_deadline m) (last_shown m)
    (svc_blink_next m) (svc_blink_on m) (disp_phase m) (spin_phase m)) (world m).

Definition set_gDispAnim (v : Anim) (m : Machine) : Machine :=
  mkMachine (ctl m) (mkHw (gDoorAnim m) v (idle_deadline m) (last_shown m)
    (svc_blink_next m) (svc_blink_on m) (disp_phase m) (spin_phase m)) (world m).

Definition set_idle_deadline (v : Z) (m : Machine) : Machine :=
  mkMachine (ctl m) (mkHw (gDoorAnim m) (gDispAnim m) v (last_shown m)
    (svc_blink_next m) (svc_blink_on m) (disp_phase m) (spin_phase m)) (world m).

Definition set_last_shown (v : Z) (m : Machine) : Machine :=
  mkMachine (ctl m) (mkHw (gDoorAnim m) (gDispAnim m) (idle_deadline m) v
    (svc_blink_next m) (svc_blink_on m) (disp_phase m) (spin_phase m)) (world m).

Definition set_svc_blink_next (v : Z) (m : Machine) : Machine :=
  mkMachine (ctl m) (mkHw (gDoorAnim m) (gDispAnim m) (idle_deadline m) (last_shown
    m) v (svc_blink_on m) (disp_phase m) (spin_phase m)) (world m).

Definition set_svc_blink_on (v : bool) (m : Machine) : Machine :=
  mkMachine (ctl m) (mkHw (gDoorAnim m) (gDispAnim m) (idle_deadline m) (last_shown
    m) (svc_blink_next m) v (disp_phase m) (spin_phase m)) (world m).

Definition set_disp_phase (v : Z) (m : Machine) : Machine :=
  mkMachine (ctl m) (mkHw (gDoorAnim m) (gDispAnim m) (idle_deadline m) (last_shown
    m) (svc_blink_next m) (svc_blink_on m) v (spin_phase m)) (world m).

Definition set_spin_phase (v : Z) (m : Machine) : Machine :=
  mkMachine (ctl m) (mkHw (gDoorAnim m) (gDispAnim m) (idle_deadline m) (last_shown
    m) (svc_blink_next m) (svc_blink_on m) (disp_phase m) v) (world m).

Definition set_clock (v : Z) (m : Machine) : Machine :=
  mkMachine (ctl m) (hw m) (mkWorld v (trace m) (assets m)).

Definition set_trace (v : list Event) (m : Machine) : Machine :=
  mkMachine (ctl m) (hw m) (mkWorld (clock m) v (assets m)).

(** ** Environment: clock, trace, files *)

Definition now_ms (m : Machine) : Z := clock m / 1000.
Definition usleep (us : Z) (m : Machine) : Machine := set_clock (clock m + us) m.
Definition emit (e : Event) (m : Machine) : Machine := set_trace (e :: trace m) m.
Definition file_exists (m : Machine) (p : string) : bool :=
  existsb (String.eqb p) (assets m).

Definition set_port_mapping (admin : bool) (m : Machine) : Machine :=
  set_ports (if admin then ports_admin else ports_normal) m.

(** ** Drivers *)

Definition seg_blank (m : Machine) : Machine := emit (EvSeg (gLedPort m) 0xFF) m.

Definition seg_show_digit (d : Z) (m : Machine) : Machine :=
  if (d <? 0) || (d >? 9) then seg_blank m
  else emit (EvSeg (gLedPort m) (nth (Z.to_nat d) Bin2LED 0)) m.

(** [printf("%-n.ns")]: truncate to [n] characters, pad with spaces. *)
Fixpoint pad (n : nat) (s : string) : string :=
  match n with
  | O => ""
  | S k =>
    match s with
    | EmptyString => String " " (pad k "")
    | String c r => String c (pad k r)
    end
  end.

(** [printf("%d")]. *)
Definition dec (z : Z) : string := NilZero.string_of_int (Z.to_int z).

(** Time one [lcd_writecmd] or [lcddata] sleeps: 10 + 200 + 10 + 2000. *)
Definition LCD_WRITE_US : Z := 2220.

(** [lcd_print2]: the panel is re-initialised ([initlcd]: three 20 ms waits
    and nine commands), cleared, and the two 16-character lines are written.
    The nibble-level writes are summarised by one event. *)
Definition lcd_print2 (l1 l2 : string) (m : Machine) : Machine :=
  let m := emit (EvLcd (gLcdPort m) (pad 16 l1) (pad 16 l2)) m in
  usleep (60000 + 9 * LCD_WRITE_US + (LCD_WRITE_US + 2000) + LCD_WRITE_US
          + 16 * LCD_WRITE_US + LCD_WRITE_US + 16 * LCD_WRITE_US) m.

(** [show_image]: the viewer process is spawned, then the caller-side 25 ms
    delay.  The ring of viewer process ids is followed apart, in [Pqiv]
    below: once eight viewers run, the C function first kills the oldest one,
    which takes 60 ms more.  The clock of this model does not count those
    60 ms. *)
Definition show_image (path : string) (m : Machine) : Machine :=
  usleep 25000 (emit (EvImage path) m).

(** [beep_square]: the square wave is written until [duration_ms] have
    passed; each period sleeps twice [half_period_us]. *)
Fixpoint beep_loop (fuel : nat) (end_ms half_period_us : Z) (m : Machine) : Machine :=
  match fuel with
  | O => m
  | S f =>
    if now_ms m <? end_ms
    then beep_loop f end_ms half_period_us (usleep half_period_us (usleep half_period_us m))
    else m
  end.

Definition beep_square (duration_ms half_period_us hi lo : Z) (m : Machine) : Machine :=
  let end_ms := now_ms m + duration_ms in
  beep_loop (Z.to_nat (2 * duration_ms + 2)) end_ms half_period_us
    (emit (EvTone duration_ms half_period_us hi lo) m).

Definition beep_keypress := beep_square 25 650 200 20.
Definition beep_error := beep_square 140 1400 180 0.
Definition beep_success (m : Machine) : Machine :=
  beep_square 70 500 220 10 (usleep 35000 (beep_square 70 800 220 10 m)).
Definition beep_payment_ok (m : Machine) : Machine :=
  beep_square 60 650 220 0 (usleep 20000 (beep_square 60 900 220 0 m)).
Definition beep_dispensing_slot (slot : Z) : Machine -> Machine :=
  if slot =? 1 then beep_square 180 900 220 0
  else if slot =? 2 then beep_square 220 700 220 0
  else if slot =? 3 then beep_square 260 550 220 0
  else if slot =? 4 then beep_square 320 450 220 0
  else beep_square 200 650 220 0.

Definition motor_write_phase (phase : Z) (m : Machine) : Machine :=
  emit (EvMotorPhase (gSmPort m) phase
          (nth (Z.to_nat (Z.land phase 3)) full_seq_drive 0)) m.

(** ** Shared animation engine *)

(** The two tracks, standing for [&gDoorAnim] and [&gDispAnim]. *)
Inductive Track : Type := DoorTrack | DispTrack.

Definition track_get (tr : Track) (m : Machine) : Anim :=
  match tr with DoorTrack => gDoorAnim m | DispTrack => gDispAnim m end.

Definition track_set (tr : Track) (a : Anim) (m : Machine) : Machine :=
  match tr with DoorTrack => set_gDoorAnim a m | DispTrack => set_gDispAnim a m end.

Definition anim_start (tr : Track) (frames : list string)
    (nframes direction frame_ms : Z) (m : Machine) : Machine :=
  let direction := if direction >=? 0 then 1 else -1 in
  track_set tr
    (mkAnim true frames nframes
       (if direction >? 0 then 0 else nframes - 1)
       direction (now_ms m) frame_ms false) m.

(** The update of the track once the current frame has been displayed at
    time [t]. *)
Definition anim_advance (a : Anim) (t : Z) : Anim :=
  let nxt := t + frame_ms a in
  if direction a >? 0 then
    if idx a =? nframes a - 1
    then mkAnim false (frames a) (nframes a) (idx a) (direction a) nxt (frame_ms a) true
    else mkAnim (active a) (frames a) (nframes a) (idx a + 1) (direction a) nxt
           (frame_ms a) (oneshot_done a)
  else
    if idx a =? 0
    then mkAnim false (frames a) (nframes a) (idx a) (direction a) nxt (frame_ms a) true
    else mkAnim (active a) (frames a) (nframes a) (idx a - 1) (direction a) nxt
           (frame_ms a) (oneshot_done a).

(** The frame the tick displays: [frames[idx]], or the menu image when that
    file is missing. *)
Definition anim_frame (a : Anim) (m : Machine) : string :=
  let p := nth (Z.to_nat (idx a)) (frames a) "" in
  if file_exists m p then p else IMG_MENU.

Definition anim_tick (tr : Track) (m : Machine) : Machine :=
  let a := track_get tr m in
  if negb (active a) || oneshot_done a then m
  else
    let t := now_ms m in
    if t <? next_ms a then m
    else
      let m := show_image (anim_frame a m) m in
      track_set tr (anim_advance a t) m.

(** ** Keypad characters and buffers *)

Definition isdigit (c : ascii) : bool :=
  (48 <=? N_of_ascii c)%N && (N_of_ascii c <=? 57)%N.

Definition isspace (c : ascii) : bool :=
  (N_of_ascii c =? 32)%N || ((9 <=? N_of_ascii c)%N && (N_of_ascii c <=? 13)%N).

Fixpoint atoi_digits (acc : Z) (s : string) : Z :=
  match s with
  | EmptyString => acc
  | String c r =>
    if isdigit c then atoi_digits (acc * 10 + (Z.of_N (N_of_ascii c) - 48)) r else acc
  end.

Fixpoint atoi_skip (fuel : nat) (s : string) : string :=
  match fuel, s with
  | S f, String c r => if isspace c then atoi_skip f r else s
  | _, _ => s
  end.

(** The C library's [atoi]: leading white space, an optional sign, then
    decimal digits up to the first other character. *)
Definition atoi (s : string) : Z :=
  match atoi_skip (String.length s) s with
  | String "-" r => - atoi_digits 0 r
  | String "+" r => atoi_digits 0 r
  | r => atoi_digits 0 r
  end.

(** [buf[len++] = k; buf[len] = 0]. *)
Definition push_char (s : string) (k : ascii) : string := s ++ String k "".

(** [len--; buf[len] = 0]. *)
Fixpoint drop_last (s : string) : string :=
  match s with
  | EmptyString => ""
  | String c EmptyString => ""
  | String c r => String c (drop_last r)
  end.

Definition strlen (s : string) : Z := Z.of_nat (String.length s).

(** ** Items *)

Definition no_item : Item := mkItem 0 "" 0 "" "" 0.

(** [items[slot]]; reading outside the array is undefined in C and yields
    [no_item] here. *)
Definition item_at (its : list Item) (slot : Z) : Item :=
  if slot <? 0 then no_item else nth (Z.to_nat slot) its no_item.

Fixpoint set_stock_nat (its : list Item) (n : nat) (v : Z) : list Item :=
  match its, n with
  | [], _ => []
  | it :: r, O => mkItem (index it) (name it) (price it) (img it) (img_oos it) v :: r
  | it :: r, S k => it :: set_stock_nat r k v
  end.

(** [items[slot].stock = v]; writing outside the array is undefined in C and
    changes nothing here. *)
Definition set_stock_at (its : list Item) (slot : Z) (v : Z) : list Item :=
  if slot <? 0 then its else set_stock_nat its (Z.to_nat slot) v.

Fixpoint find_slot_from (i : Z) (its : list Item) (idx : Z) : Z :=
  match its with
  | [] => -1
  | it :: r => if index it =? idx then i else find_slot_from (i + 1) r idx
  end.

Definition find_slot_by_index (its : list Item) (idx : Z) : Z :=
  find_slot_from 0 its idx.

(** [format_money]: ["$%.2f"]. *)
Definition format_money (cents : Z) : string :=
  "$" ++ dec (cents / 100) ++ "." ++ dec (cents mod 100 / 10) ++ dec (cents mod 10).

(** ** The 9 s timer (normal mode only) *)

Definition timer_start_or_reset (m : Machine) : Machine :=
  set_last_shown (-1) (set_idle_deadline (now_ms m + IDLE_MS) m).

(** The cast [(int)] of a [long long]. *)
Definition to_int (z : Z) : Z := (z + 2147483648) mod 4294967296 - 2147483648.

Definition timer_seconds_left (t : Z) (m : Machine) : Z :=
  if idle_deadline m <=? 0 then -1
  else
    let rem := idle_deadline m - t in
    if rem <=? 0 then 0
    else
      let sec := to_int (Z.quot (rem + 999) 1000) in
      let sec := if sec >? 9 then 9 else sec in
      let sec := if sec <? 0 then 0 else sec in
      sec.

Definition timer_update_display (t : Z) (m : Machine) : Machine :=
  let left := timer_seconds_left t m in
  if left <? 0 then m
  else if negb (left =? last_shown m)
  then set_last_shown left (seg_show_digit left m)
  else m.

Definition timer_stop_and_blank (m : Machine) : Machine :=
  seg_blank (set_last_shown (-1) (set_idle_deadline 0 m)).

(** ** Service 7-segment blink *)

Definition service_blink_tick (t : Z) (m : Machine) : Machine :=
  if svc_blink_next m =? 0 then
    seg_show_digit 0 (set_svc_blink_on true (set_svc_blink_next (t + 500) m))
  else if t >=? svc_blink_next m then
    let m := set_svc_blink_next (svc_blink_next m + 500) m in
    let m := set_svc_blink_on (negb (svc_blink_on m)) m in
    if svc_blink_on m then seg_show_digit 0 m else seg_blank m
  else m.

Definition service_blink_reset (m : Machine) : Machine :=
  seg_show_digit 0 (set_svc_blink_on true (set_svc_blink_next 0 m)).

(** ** Screens *)

Definition service_menu_screen (typed : string) (m : Machine) : Machine :=
  let m := show_image IMG_SERVICE_MANUAL m in
  let l1 := match typed with
            | EmptyString => "Svc:"
            | _ => "Svc:" ++ pad 12 typed
            end in
  lcd_print2 l1 "B=OK 1-4/1234" m.

Definition show_service_gate_prompt (m : Machine) : Machine :=
  lcd_print2 "Flip SA5 DIP" "Press any key" (show_image IMG_MENU m).

Definition show_return_gate_prompt (m : Machine) : Machine :=
  lcd_print2 "Revert SA5 DIP" "Press any key" (show_image IMG_SERVICE_MANUAL m).

Definition menu_screen (m : Machine) : Machine :=
  lcd_print2 "Enter Index:" "B to enter" (show_image IMG_MENU m).

(** ** Dispense motor timing: 3 seconds per item *)

(** One pass of the inner loop: a phase write, the phase rotation, an
    animation tick and the phase delay.  [disp_phase] is the function's
    [static int phase]. *)
Definition dispense_phase_step (m : Machine) : Machine :=
  let m := motor_write_phase (disp_phase m) m in
  let m := set_disp_phase (Z.land (disp_phase m + 1) 3) m in
  let m := anim_tick DispTrack m in
  usleep DISP_PHASE_DELAY_US m.

Definition dispense_step (m : Machine) : Machine :=
  Nat.iter 4 dispense_phase_step (anim_tick DispTrack m).

Definition run_one_dispense_cycle_with_anim (m : Machine) : Machine :=
  let m := Nat.iter TOTAL_STEPS_PER_ITEM dispense_step m in
  emit (EvMotorStop (gSmPort m)) m.

(** [for (i = 0; i < n; i++) { run_one_dispense_cycle_with_anim();
    if (i != n - 1) usleep(150000); }], by the number of units left. *)
Fixpoint dispense_units (n : nat) (m : Machine) : Machine :=
  match n with
  | O => m
  | S k =>
    let m := run_one_dispense_cycle_with_anim m in
    let m := match k with O => m | S _ => usleep 150000 m end in
    dispense_units k m
  end.

(** [while (!gDispAnim.oneshot_done) { anim_tick(&gDispAnim); usleep(20000); }].
    [None] when the flag is still clear after [fuel] polls. *)
Fixpoint anim_wait_done (fuel : nat) (m : Machine) : option Machine :=
  if oneshot_done (gDispAnim m) then Some m
  else
    match fuel with
    | O => None
    | S f => anim_wait_done f (usleep 20000 (anim_tick DispTrack m))
    end.

Definition WAIT_FUEL : nat := 1000.

(** A dispensing burst of [n] units, as both the customer and the service
    path run it: the unit loop, then the wait for the animation. *)
Definition dispense_burst (n : Z) (m : Machine) : option Machine :=
  anim_wait_done WAIT_FUEL (dispense_units (Z.to_nat n) m).

(** ** Service motor test *)

Definition motor_spin_phase_step (m : Machine) : Machine :=
  let m := motor_write_phase (spin_phase m) m in
  let m := set_spin_phase (Z.land (spin_phase m + 1) 3) m in
  usleep MOTOR_PHASE_DELAY_US m.

Definition motor_spin_one_cycle (m : Machine) : Machine :=
  let m := Nat.iter MOTOR_STEPS_PER_CYCLE (Nat.iter 4 motor_spin_phase_step) m in
  emit (EvMotorStop (gSmPort m)) m.

Definition run_motor_test_cycles (cycles : Z) (m : Machine) : Machine :=
  let cycles := if cycles <? 1 then 1 else cycles in
  let cycles := if cycles >? 15 then 15 else cycles in
  Nat.iter (Z.to_nat cycles) (fun m => usleep 500000 (motor_spin_one_cycle m)) m.

(** ** The poll loop of [main] *)

Definition catalog : list Item :=
  [ mkItem 3 "Cheetos" 150 IMG_ZOOM_1 IMG_ZOOM_1_OOS 1;
    mkItem 8 "Lays" 150 IMG_ZOOM_2 IMG_ZOOM_2_OOS 2;
    mkItem 11 "Doritos" 150 IMG_ZOOM_3 IMG_ZOOM_3_OOS 3;
    mkItem 22 "Pocky" 175 IMG_ZOOM_4 IMG_ZOOM_4_OOS 4 ].

(** A zero-initialised [static Anim]. *)
Definition anim_zero : Anim := mkAnim false [] 0 0 0 0 0 false.

Definition anim_set_active (b : bool) (a : Anim) : Anim :=
  mkAnim b (frames a) (nframes a) (idx a) (direction a) (next_ms a) (frame_ms a)
    (oneshot_done a).

Definition anim_set_oneshot_done (b : bool) (a : Anim) : Anim :=
  mkAnim (active a) (frames a) (nframes a) (idx a) (direction a) (next_ms a)
    (frame_ms a) b.

(** The state on entry to [while (1)], for a clock reading and a set of
    image files. *)
Definition boot (clock0 : Z) (files : list string) : Machine :=
  let m := mkMachine
             (mkCtl ST_MENU "" "" "" (-1) 0 0 0 false false 0 0 (-1) (-1) catalog
                ports_normal)
             (mkHw anim_zero anim_zero 0 (-1) 0 true 0 0)
             (mkWorld clock0 [] files) in
  timer_stop_and_blank (menu_screen m).

(** What one iteration receives from outside: the time that passed since
    the previous iteration ended, the value [ScanKey] returns if it is
    called, and for how many polls of [wait_key_release] the key stays
    down. *)
Record Input : Type := mkInput {
  elapsed : Z;
  key : ascii;
  held : nat
}.

(** The outcome of a block of the loop body: [continue], or go on with the
    next block. *)
Inductive Flow : Type :=
| Continue (m : Machine)
| Fallthrough (m : Machine).

Definition wait_key_release (n : nat) (m : Machine) : Machine :=
  Nat.iter n (usleep 12000) m.

Definition door_transitions (m : Machine) : Machine :=
  let m :=
    match st m with
    | ST_DOOR_OPENING =>
      if oneshot_done (gDoorAnim m) then
        let m := set_st ST_SVC_MENU m in
        let m := set_selbuf "" m in
        service_menu_screen (selbuf m) m
      else m
    | _ => m
    end in
  match st m with
  | ST_DOOR_CLOSING =>
    if oneshot_done (gDoorAnim m) then
      let m := set_service_mode false m in
      let m := set_port_mapping false m in
      let m := set_st ST_MENU m in
      let m := set_selbuf "" m in
      let m := set_amtbuf "" m in
      let m := set_chosen_slot (-1) m in
      let m := set_index_timer_active false m in
      let m := menu_screen m in
      timer_stop_and_blank m
    else m
  | _ => m
  end.

Definition gate_timeouts (t : Z) (m : Machine) : Flow :=
  match st m with
  | ST_SVC_GATE =>
    if (svc_gate_deadline m >? 0) && (t >=? svc_gate_deadline m) then
      let m := beep_error m in
      let m := set_svc_gate_deadline 0 m in
      let m := set_port_mapping false m in
      let m := set_service_mode false m in
      let m := set_st ST_MENU m in
      Continue (menu_screen m)
    else Fallthrough m
  | ST_RETURN_GATE =>
    if (return_gate_deadline m >? 0) && (t >=? return_gate_deadline m) then
      let m := beep_error m in
      let m := set_return_gate_deadline 0 m in
      let m := set_service_mode true m in
      let m := set_port_mapping true m in
      let m := set_st ST_SVC_MENU m in
      Continue (service_menu_screen (selbuf m) m)
    else Fallthrough m
  | _ => Fallthrough m
  end.

Definition timer_active (m : Machine) : bool :=
  match st m with
  | ST_AMOUNT | ST_PAY => true
  | ST_MENU => index_timer_active m
  | _ => false
  end.

Definition seven_seg (t : Z) (m : Machine) : Flow :=
  if service_mode m then Fallthrough (service_blink_tick t m)
  else if timer_active m then
    let m := timer_update_display t m in
    if timer_seconds_left t m =? 0 then
      let m := beep_error m in
      let m := set_st ST_MENU m in
      let m := set_selbuf "" m in
      let m := set_amtbuf "" m in
      let m := set_chosen_slot (-1) m in
      let m := set_index_timer_active false m in
      let m := timer_stop_and_blank m in
      Continue (menu_screen m)
    else Fallthrough m
  else Fallthrough m.

(** The [ST_DISPENSING] block. *)
Definition dispensing_state (m : Machine) : option Machine :=
  let m :=
    if negb (active (gDispAnim m)) && negb (oneshot_done (gDispAnim m))
    then anim_start DispTrack disp_frames DISP_N 1 DISP_FRAME_MS m
    else m in
  match dispense_burst (amount m) m with
  | None => None
  | Some m =>
    let m := show_image IMG_THANKS m in
    let m := lcd_print2 "Done!" "Thank you" m in
    let m := beep_success m in
    let m := usleep USLEEP_SUCCESS_SCREEN_US m in
    let m := set_items (set_stock_at (items m) (chosen_slot m)
                          (stock (item_at (items m) (chosen_slot m)) - amount m)) m in
    let m := if stock (item_at (items m) (chosen_slot m)) <? 0
             then set_items (set_stock_at (items m) (chosen_slot m) 0) m
             else m in
    let m := set_st ST_MENU m in
    let m := set_chosen_slot (-1) m in
    let m := set_amount 0 m in
    let m := set_total 0 m in
    let m := set_pay_zero_count 0 m in
    let m := set_selbuf "" m in
    let m := set_amtbuf "" m in
    let m := set_index_timer_active false m in
    let m := timer_stop_and_blank m in
    let m := set_gDispAnim (anim_set_oneshot_done false (gDispAnim m)) m in
    Some (menu_screen m)
  end.

(** Gate confirms (any key). *)
Definition svc_gate_confirm (m : Machine) : Machine :=
  let m := set_svc_gate_deadline 0 m in
  let m := set_service_mode true m in
  let m := service_blink_reset m in
  let m := set_st ST_DOOR_OPENING m in
  let m := set_gDoorAnim (anim_set_oneshot_done false (gDoorAnim m)) m in
  anim_start DoorTrack door_frames DOOR_N 1 DOOR_FRAME_MS m.

Definition return_gate_confirm (m : Machine) : Machine :=
  let m := set_return_gate_deadline 0 m in
  let m := set_st ST_DOOR_CLOSING m in
  let m := set_gDoorAnim (anim_set_oneshot_done false (gDoorAnim m)) m in
  anim_start DoorTrack door_frames DOOR_N (-1) DOOR_FRAME_MS m.

(** BACK (A). *)
Definition on_back (m : Machine) : Machine :=
  if negb (service_mode m) then
    match st m with
    | ST_MENU =>
      let m := if strlen (selbuf m) >? 0
               then set_selbuf (drop_last (selbuf m)) m else m in
      let m := show_image IMG_MENU m in
      let m := lcd_print2 ("Enter Index:" ++ pad 4 (selbuf m)) "B to enter" m in
      if strlen (selbuf m) =? 0
      then timer_stop_and_blank (set_index_timer_active false m)
      else m
    | _ =>
      let m := set_st ST_MENU m in
      let m := set_chosen_slot (-1) m in
      let m := set_amtbuf "" m in
      let m := menu_screen m in
      let m := timer_stop_and_blank m in
      set_index_timer_active false m
    end
  else
    let m := set_st ST_SVC_MENU m in
    let m := set_selbuf "" m in
    let m := set_svcbuf "" m in
    let m := set_svc_disp_slot (-1) m in
    let m := set_restock_slot (-1) m in
    service_menu_screen (selbuf m) m.

(** The prompt a service sub-state redraws after a digit. *)
Definition service_digit_screen (m : Machine) : Machine :=
  match st m with
  | ST_SVC_DISPENSE_IDX =>
    lcd_print2 ("Disp idx:" ++ pad 4 (svcbuf m)) "B=OK  A=Back"
      (show_image IMG_MENU_SERVICE m)
  | ST_SVC_DISPENSE_AMT =>
    lcd_print2 ("Amt:" ++ pad 4 (svcbuf m)) "B=Run A=Back"
      (show_image IMG_MENU_SERVICE m)
  | ST_SVC_RESTOCK_IDX =>
    lcd_print2 ("Restock idx:" ++ pad 4 (svcbuf m)) "B=OK  A=Back"
      (show_image IMG_RESTOCK m)
  | ST_SVC_RESTOCK_QTY =>
    lcd_print2 ("New stock:" ++ pad 4 (svcbuf m)) "B=OK  A=Back"
      (show_image IMG_RESTOCK m)
  | ST_SVC_SOUND_SEL =>
    lcd_print2 ("Sound 1-8:" ++ pad 2 (svcbuf m)) "B=Play A=Back"
      (show_image IMG_SOUND m)
  | ST_SVC_MOTOR_CYC =>
    lcd_print2 ("Motor cyc:" ++ pad 2 (svcbuf m)) "B=Run A=Back"
      (show_image IMG_MOTOR m)
  | _ => m
  end.

(** DIGITS. *)
Definition on_digit (k : ascii) (m : Machine) : Machine :=
  if negb (service_mode m) then
    match st m with
    | ST_MENU =>
      let m := if strlen (selbuf m) <? 4
               then set_selbuf (push_char (selbuf m) k) m else m in
      let m := show_image IMG_MENU m in
      let m := lcd_print2 ("Enter Index:" ++ pad 4 (selbuf m)) "B to enter" m in
      if negb (index_timer_active m) && (strlen (selbuf m) >? 0) then
        let m := set_index_timer_active true m in
        let m := timer_start_or_reset m in
        timer_update_display (now_ms m) m
      else m
    | ST_AMOUNT =>
      let m := if strlen (amtbuf m) <? 3
               then set_amtbuf (push_char (amtbuf m) k) m else m in
      lcd_print2 ("Enter amount:" ++ pad 3 (amtbuf m))
        ("Stock: " ++ dec (stock (item_at (items m) (chosen_slot m)))) m
    | ST_PAY =>
      let m := if Ascii.eqb k "0"
               then set_pay_zero_count (pay_zero_count m + 1) m
               else set_pay_zero_count 0 m in
      if pay_zero_count m >=? 2 then
        let m := beep_payment_ok m in
        let m := lcd_print2 "Payment OK" "Dispensing..." m in
        let m := set_gDispAnim (anim_set_oneshot_done false (gDispAnim m)) m in
        let m := set_gDispAnim (anim_set_active false (gDispAnim m)) m in
        set_st ST_DISPENSING m
      else lcd_print2 "Pay: enter 00" "Press 0 twice" m
    | _ => m
    end
  else
    match st m with
    | ST_SVC_MENU =>
      let m := if strlen (selbuf m) <? 4
               then set_selbuf (push_char (selbuf m) k) m else m in
      service_menu_screen (selbuf m) m
    | _ =>
      let m := if strlen (svcbuf m) <? 4
               then set_svcbuf (push_char (svcbuf m) k) m else m in
      service_digit_screen m
    end.

(** The end of the loop body, reached by a key no block handled. *)
Definition anything_else (m : Machine) : Machine := beep_error m.

(** ENTER (B) in normal mode. *)
Definition on_enter_normal (m : Machine) : Machine :=
  match st m with
  | ST_MENU =>
    if strlen (selbuf m) =? 0 then
      let m := beep_error m in
      let m := lcd_print2 "No index" "Type digits" m in
      let m := usleep USLEEP_ERR_SHORT_US m in
      menu_screen m
    else if String.eqb (selbuf m) "1234" then
      let m := set_selbuf "" m in
      let m := set_index_timer_active false m in
      let m := timer_stop_and_blank m in
      let m := show_service_gate_prompt m in
      let m := usleep 120000 m in
      let m := set_port_mapping true m in
      let m := set_st ST_SVC_GATE m in
      set_svc_gate_deadline (now_ms m + SVC_GATE_TIMEOUT_MS) m
    else
      let idx := atoi (selbuf m) in
      let m := set_chosen_slot (find_slot_by_index (items m) idx) m in
      let m := set_selbuf "" m in
      let m := set_index_timer_active false m in
      let m := timer_stop_and_blank m in
      if chosen_slot m <? 0 then
        let m := beep_error m in
        let m := lcd_print2 "Invalid index" "Try 3/8/11/22" m in
        let m := usleep USLEEP_ERR_LONG_US m in
        menu_screen m
      else
        let m := show_image (img (item_at (items m) (chosen_slot m))) m in
        if stock (item_at (items m) (chosen_slot m)) <=? 0 then
          let m := show_image (img_oos (item_at (items m) (chosen_slot m))) m in
          let m := lcd_print2 (name (item_at (items m) (chosen_slot m))) "OUT OF STOCK" m in
          let m := usleep USLEEP_OOS_SCREEN_US m in
          let m := set_chosen_slot (-1) m in
          menu_screen m
        else
          let m := set_st ST_AMOUNT m in
          let m := set_amtbuf "" m in
          let m := timer_start_or_reset m in
          let m := timer_update_display (now_ms m) m in
          lcd_print2 ("Enter amount:" ++ pad 3 "")
            ("Stock: " ++ dec (stock (item_at (items m) (chosen_slot m)))) m
  | ST_AMOUNT =>
    if strlen (amtbuf m) =? 0 then
      let m := beep_error m in
      let m := lcd_print2 "No amount" "Type digits" m in
      usleep USLEEP_ERR_SHORT_US m
    else
      let m := set_amount (atoi (amtbuf m)) m in
      if (amount m <? 1) || (amount m >? MAX_COUNT) then
        let m := beep_error m in
        let m := lcd_print2 "Amount must" "be 1-15" m in
        let m := usleep USLEEP_ERR_SHORT_US m in
        set_amtbuf "" m
      else if amount m >? stock (item_at (items m) (chosen_slot m)) then
        let m := beep_error m in
        let m := lcd_print2 "Insufficient" "stock" m in
        let m := usleep USLEEP_ERR_SHORT_US m in
        set_amtbuf "" m
      else
        let m := set_total (price (item_at (items m) (chosen_slot m)) * amount m) m in
        let m := lcd_print2 ("Total " ++ format_money (total m)) "Pay: enter 00" m in
        let m := set_st ST_PAY m in
        let m := set_pay_zero_count 0 m in
        let m := timer_start_or_reset m in
        timer_update_display (now_ms m) m
  | _ => anything_else m
  end.

(** The sound the service sound test plays for a selection 1-8. *)
Definition play_sound (s : Z) : Machine -> Machine :=
  if s =? 1 then beep_keypress
  else if s =? 2 then beep_error
  else if s =? 3 then beep_success
  else if s =? 4 then beep_payment_ok
  else if s =? 5 then beep_dispensing_slot 1
  else if s =? 6 then beep_dispensing_slot 2
  else if s =? 7 then beep_dispensing_slot 3
  else if s =? 8 then beep_dispensing_slot 4
  else fun m => m.

(** ENTER (B) in service mode. *)
Definition on_enter_service (m : Machine) : option Machine :=
  match st m with
  | ST_SVC_MENU =>
    if String.eqb (selbuf m) "1234" then
      let m := set_selbuf "" m in
      let m := show_return_gate_prompt m in
      let m := usleep 120000 m in
      let m := set_port_mapping false m in
      let m := set_st ST_RETURN_GATE m in
      Some (set_return_gate_deadline (now_ms m + RETURN_GATE_TIMEOUT_MS) m)
    else
      let m :=
        if String.eqb (selbuf m) "1" then
          let m := set_svcbuf "" m in
          let m := set_st ST_SVC_DISPENSE_IDX m in
          lcd_print2 "Disp idx:" "B=OK  A=Back" (show_image IMG_MENU_SERVICE m)
        else if String.eqb (selbuf m) "2" then
          let m := set_svcbuf "" m in
          let m := set_st ST_SVC_RESTOCK_IDX m in
          lcd_print2 "Restock idx:" "B=OK  A=Back" (show_image IMG_RESTOCK m)
        else if String.eqb (selbuf m) "3" then
          let m := set_svcbuf "" m in
          let m := set_st ST_SVC_SOUND_SEL m in
          lcd_print2 "Sound 1-8:" "B=Play A=Back" (show_image IMG_SOUND m)
        else if String.eqb (selbuf m) "4" then
          let m := set_svcbuf "" m in
          let m := set_st ST_SVC_MOTOR_CYC m in
          lcd_print2 "Motor cyc 1-15" "B=Run A=Back" (show_image IMG_MOTOR m)
        else
          let m := beep_error m in
          let m := lcd_print2 "Invalid choice" "Use 1-4 or 1234" m in
          let m := usleep USLEEP_ERR_SHORT_US m in
          service_menu_screen (selbuf m) m in
      Some (set_selbuf "" m)
  | ST_SVC_DISPENSE_IDX =>
    if strlen (svcbuf m) =? 0 then
      let m := beep_error m in
      let m := lcd_print2 "No index" "Type digits" m in
      Some (usleep USLEEP_ERR_SHORT_US m)
    else
      let idx := atoi (svcbuf m) in
      let m := set_svc_disp_slot (find_slot_by_index (items m) idx) m in
      if svc_disp_slot m <? 0 then
        let m := beep_error m in
        let m := lcd_print2 "Bad idx" "Try 3/8/11/22" m in
        let m := usleep USLEEP_ERR_SHORT_US m in
        let m := set_svcbuf "" m in
        Some (lcd_print2 "Disp idx:" "B=OK  A=Back" (show_image IMG_MENU_SERVICE m))
      else
        let m := show_image (img (item_at (items m) (svc_disp_slot m))) m in
        let m := set_svcbuf "" m in
        let m := set_st ST_SVC_DISPENSE_AMT m in
        Some (lcd_print2 "Amount 1-15:" "B=Run A=Back" m)
  | ST_SVC_DISPENSE_AMT =>
    if strlen (svcbuf m) =? 0 then
      let m := beep_error m in
      let m := lcd_print2 "No amount" "Type digits" m in
      Some (usleep USLEEP_ERR_SHORT_US m)
    else
      let a := atoi (svcbuf m) in
      if (a <? 1) || (a >? 15) then
        let m := beep_error m in
        let m := lcd_print2 "Amount 1-15" "Try again" m in
        let m := usleep USLEEP_ERR_SHORT_US m in
        let m := set_svcbuf "" m in
        Some (lcd_print2 "Amount 1-15:" "B=Run A=Back" (show_image IMG_MENU_SERVICE m))
      else
        let m := lcd_print2 "Service Disp" "Dispensing..." m in
        let m := set_gDispAnim (anim_set_oneshot_done false (gDispAnim m)) m in
        let m := set_gDispAnim (anim_set_active false (gDispAnim m)) m in
        let m := anim_start DispTrack disp_frames DISP_N 1 DISP_FRAME_MS m in
        match dispense_burst a m with
        | None => None
        | Some m =>
          let m := beep_success m in
          let m := lcd_print2 "Service Done" "A=Back" m in
          let m := usleep USLEEP_SVC_DONE_US m in
          let m := set_st ST_SVC_MENU m in
          let m := set_svcbuf "" m in
          let m := set_svc_disp_slot (-1) m in
          Some (service_menu_screen (selbuf m) m)
        end
  | ST_SVC_RESTOCK_IDX =>
    if strlen (svcbuf m) =? 0 then
      let m := beep_error m in
      let m := lcd_print2 "No index" "Type digits" m in
      Some (usleep USLEEP_ERR_SHORT_US m)
    else
      let idx := atoi (svcbuf m) in
      let m := set_restock_slot (find_slot_by_index (items m) idx) m in
      if restock_slot m <? 0 then
        let m := beep_error m in
        let m := lcd_print2 "Bad idx" "Try 3/8/11/22" m in
        let m := usleep USLEEP_ERR_SHORT_US m in
        let m := set_svcbuf "" m in
        Some (lcd_print2 "Restock idx:" "B=OK  A=Back" (show_image IMG_RESTOCK m))
      else
        let m := show_image (img (item_at (items m) (restock_slot m))) m in
        let m := set_svcbuf "" m in
        let m := set_st ST_SVC_RESTOCK_QTY m in
        Some (lcd_print2 "New stock 1-15" "B=OK  A=Back" m)
  | ST_SVC_RESTOCK_QTY =>
    if strlen (svcbuf m) =? 0 then
      let m := beep_error m in
      let m := lcd_print2 "No stock" "Type 1-15" m in
      Some (usleep USLEEP_ERR_SHORT_US m)
    else
      let newstock := atoi (svcbuf m) in
      if (newstock <? 1) || (newstock >? 15) then
        let m := beep_error m in
        let m := lcd_print2 "Stock must" "be 1-15" m in
        let m := usleep USLEEP_ERR_SHORT_US m in
        let m := set_svcbuf "" m in
        Some (lcd_print2 "New stock 1-15" "B=OK  A=Back" (show_image IMG_RESTOCK m))
      else
        let m := set_items (set_stock_at (items m) (restock_slot m) newstock) m in
        let m := beep_success m in
        let m := lcd_print2 "Restocked" ("Stock=" ++ dec newstock) m in
        let m := usleep USLEEP_SVC_DONE_US m in
        let m := set_st ST_SVC_MENU m in
        let m := set_restock_slot (-1) m in
        let m := set_svcbuf "" m in
        Some (service_menu_screen (selbuf m) m)
  | ST_SVC_SOUND_SEL =>
    if strlen (svcbuf m) =? 0 then
      let m := beep_error m in
      let m := lcd_print2 "Pick 1-8" "Type digit" m in
      Some (usleep USLEEP_ERR_SHORT_US m)
    else
      let s := atoi (svcbuf m) in
      if (s <? 1) || (s >? 8) then
        let m := beep_error m in
        let m := lcd_print2 "Sound must" "be 1-8" m in
        let m := usleep USLEEP_ERR_SHORT_US m in
        let m := set_svcbuf "" m in
        Some (lcd_print2 "Sound 1-8:" "B=Play A=Back" (show_image IMG_SOUND m))
      else
        let m := lcd_print2 "Playing..." "Please wait" m in
        let m := usleep 1000000 m in
        let m := play_sound s m in
        let m := set_svcbuf "" m in
        Some (lcd_print2 "Sound 1-8:" "B=Play A=Back" (show_image IMG_SOUND m))
  | ST_SVC_MOTOR_CYC =>
    if strlen (svcbuf m) =? 0 then
      let m := beep_error m in
      let m := lcd_print2 "No cycles" "Type 1-15" m in
      Some (usleep USLEEP_ERR_SHORT_US m)
    else
      let cycles := atoi (svcbuf m) in
      if (cycles <? 1) || (cycles >? 15) then
        let m := beep_error m in
        let m := lcd_print2 "Cycles must" "be 1-15" m in
        let m := usleep USLEEP_ERR_SHORT_US m in
        let m := set_svcbuf "" m in
        Some (lcd_print2 "Motor cyc 1-15" "B=Run A=Back" (show_image IMG_MOTOR m))
      else
        let m := lcd_print2 "Motor test" "Running..." m in
        let m := run_motor_test_cycles cycles m in
        let m := beep_success m in
        let m := set_svcbuf "" m in
        Some (lcd_print2 "Motor cyc 1-15" "B=Run A=Back" (show_image IMG_MOTOR m))
  | _ => Some (anything_else m)
  end.

(** The dispatch of an accepted key [k]. *)
Definition dispatch (k : ascii) (m : Machine) : option Machine :=
  match st m with
  | ST_SVC_GATE => Some (svc_gate_confirm m)
  | ST_RETURN_GATE => Some (return_gate_confirm m)
  | _ =>
    if Ascii.eqb k KEY_BACK then Some (on_back m)
    else if isdigit k then Some (on_digit k m)
    else if Ascii.eqb k KEY_ENTER then
      if negb (service_mode m) then Some (on_enter_normal m) else on_enter_service m
    else Some (anything_else m)
  end.

(** The keypad part of an iteration: one scan, then the dispatch. *)
Definition keypad (i : Input) (m : Machine) : option Machine :=
  if Ascii.eqb (key i) KEY_NONE then Some (usleep 20000 m)
  else
    let m := beep_keypress m in
    let m := wait_key_release (held i) m in
    dispatch (key i) m.

(** The iteration from the door transitions on, for the time [t] read at
    its start. *)
Definition poll (i : Input) (t : Z) (m : Machine) : option Machine :=
  let m := door_transitions m in
  match gate_timeouts t m with
  | Continue m => Some m
  | Fallthrough m =>
    match seven_seg t m with
    | Continue m => Some m
    | Fallthrough m =>
      match st m with
      | ST_DISPENSING => dispensing_state m
      | _ => keypad i m
      end
    end
  end.

(** One iteration of [while (1)]: the clock is read, both tracks are
    ticked, then the transitions and the keypad. *)
Definition loop_body (i : Input) (m : Machine) : option Machine :=
  let m := usleep (elapsed i) m in
  let t := now_ms m in
  let m := anim_tick DoorTrack m in
  let m := anim_tick DispTrack m in
  poll i t m.

(** A run of the loop over a list of inputs. *)
Fixpoint run (ins : list Input) (m : Machine) : option Machine :=
  match ins with
  | [] => Some m
  | i :: r =>
    match loop_body i m with
    | None => None
    | Some m => run r m
    end
  end.

(** * Vocabulary of the properties *)

(** ** Animation runs *)

(** The frame at the end of the travel: the last one going forward, frame 0
    going backward. *)
Definition is_terminal (a : Anim) : bool :=
  if direction a >? 0 then idx a =? nframes a - 1 else idx a =? 0.

(** The frames a running track still has to show. *)
Definition remaining (a : Anim) : Z :=
  if direction a >? 0 then nframes a - idx a else idx a + 1.

(** A run of ticks of one track: before each tick the clock advances by the
    given delay in microseconds. *)
Fixpoint tick_run (tr : Track) (delays : list Z) (m : Machine) : Machine :=
  match delays with
  | [] => m
  | d :: r => tick_run tr r (anim_tick tr (usleep d m))
  end.


(** ** Reachable states and their invariant *)

(** The states of the poll loop: the boot state at a non-negative clock
    reading, and what an iteration makes of a reachable state. *)
Inductive reachable : Machine -> Prop :=
| reach_boot (c : Z) (files : list string) : 0 <= c -> reachable (boot c files)
| reach_step (m : Machine) (i : Input) (m' : Machine) :
    reachable m -> 0 <= elapsed i -> loop_body i m = Some m' -> reachable m'.

Definition stocks_ok (its : list Item) : Prop :=
  Forall (fun it => 0 <= stock it <= 15) its.

(** The mode flag and the port mapping that go with each state. *)
Definition mode_ok (c : Ctl) : Prop :=
  match st c with
  | ST_MENU | ST_AMOUNT | ST_PAY | ST_DISPENSING =>
    service_mode c = false /\ ports c = ports_normal
  | ST_SVC_GATE => service_mode c = false /\ ports c = ports_admin
  | ST_DOOR_OPENING => service_mode c = true /\ ports c = ports_admin
  | ST_RETURN_GATE | ST_DOOR_CLOSING =>
    service_mode c = true /\ ports c = ports_normal
  | _ => service_mode c = true /\ (ports c = ports_admin \/ ports c = ports_normal)
  end.

(** A purchase being paid or dispensed has a validated amount. *)
Definition order_ok (c : Ctl) : Prop :=
  match st c with
  | ST_PAY | ST_DISPENSING => 1 <= amount c <= 15
  | _ => True
  end.

Definition Inv (c : Ctl) : Prop :=
  mode_ok c /\ stocks_ok (items c) /\ order_ok c.

(** ** Causes of a change of mode or mapping *)

(** The machine at the point of an iteration where the timer-driven
    transitions are evaluated: time has passed and both tracks were ticked. *)
Definition ticked (i : Input) (m : Machine) : Machine :=
  anim_tick DispTrack (anim_tick DoorTrack (usleep (elapsed i) m)).

Definition door_opening_completes (i : Input) (m : Machine) : Prop :=
  st m = ST_DOOR_OPENING /\ oneshot_done (gDoorAnim (ticked i m)) = true.

Definition door_closing_completes (i : Input) (m : Machine) : Prop :=
  st m = ST_DOOR_CLOSING /\ oneshot_done (gDoorAnim (ticked i m)) = true.

Definition svc_gate_expires (i : Input) (m : Machine) : Prop :=
  st m = ST_SVC_GATE
  /\ 0 < svc_gate_deadline m <= now_ms (usleep (elapsed i) m).

Definition return_gate_expires (i : Input) (m : Machine) : Prop :=
  st m = ST_RETURN_GATE
  /\ 0 < return_gate_deadline m <= now_ms (usleep (elapsed i) m).

(** A key pressed at the service gate before its deadline. *)
Definition svc_gate_confirmed (i : Input) (m : Machine) : Prop :=
  st m = ST_SVC_GATE /\ ~ svc_gate_expires i m /\ key i <> KEY_NONE.

(** ENTER on the reserved code, in the customer or the service menu. *)
Definition code_confirmed (i : Input) (m : Machine) : Prop :=
  (st m = ST_MENU \/ st m = ST_SVC_MENU)
  /\ selbuf m = "1234" /\ key i = KEY_ENTER.

(** ** Effects of one iteration on mode and mapping *)

(** What a dispatched key [k] may do to the control state [c]. *)
Definition dispatch_post (k : ascii) (c c' : Ctl) : Prop :=
  Inv c'
  /\ (service_mode c' <> service_mode c ->
      st c = ST_SVC_GATE /\ service_mode c' = true)
  /\ (ports c' <> ports c ->
      (st c = ST_MENU \/ st c = ST_SVC_MENU)
      /\ selbuf c = "1234" /\ k = KEY_ENTER).

(** What [poll] may do to the mode and the mapping of a machine [m] whose
    tracks were ticked at time [t]. *)
Definition poll_post (i : Input) (t : Z) (m : Machine) (c' : Ctl) : Prop :=
  Inv c'
  /\ (service_mode c' <> service_mode m ->
      (st m = ST_SVC_GATE /\ ~ 0 < svc_gate_deadline m <= t
       /\ key i <> KEY_NONE /\ service_mode c' = true)
      \/ (st m = ST_DOOR_CLOSING /\ oneshot_done (gDoorAnim m) = true
          /\ service_mode c' = false))
  /\ (ports c' <> ports m ->
      ((st m = ST_MENU \/ st m = ST_SVC_MENU)
       /\ selbuf m = "1234" /\ key i = KEY_ENTER)
      \/ (st m = ST_SVC_GATE /\ 0 < svc_gate_deadline m <= t)
      \/ (st m = ST_RETURN_GATE /\ 0 < return_gate_deadline m <= t)).

(** ** Concrete runs *)

(** A key press and an idle iteration, as inputs. *)
Definition press (c : ascii) : Input := mkInput 0 c 0.
Definition idle (us : Z) : Input := mkInput us KEY_NONE 0.

(** The machine a run ends in ([m] itself if the run does not finish). *)
Definition run_or (ins : list Input) (m : Machine) : Machine :=
  match run ins m with
  | Some m' => m'
  | None => m
  end.

(** The reserved code typed in the customer menu, before ENTER. *)
Definition code_typed : Machine :=
  run_or [press "1"; press "2"; press "3"; press "4"] (boot 0 []).

(** ** Timers at the start of an iteration *)

(** The idle countdown has not run out at the time iteration [i] reads. *)
Definition alive (i : Input) (m : Machine) : Prop :=
  timer_seconds_left (now_ms (usleep (elapsed i) m)) m <> 0.

(** The idle countdown is shown and has run out at that time. *)
Definition idle_expires (i : Input) (m : Machine) : Prop :=
  service_mode m = false /\ timer_active m = true
  /\ timer_seconds_left (now_ms (usleep (elapsed i) m)) m = 0.

(** A purchase of one unit of item 3, up to the payment prompt. *)
Definition paying : Machine :=
  run_or [press "3"; press KEY_ENTER; press "1"; press KEY_ENTER] (boot 0 []).

(** The machine waiting at the service gate, the machine in the service
    menu once the door has opened, and the machine waiting at the return
    gate. *)
Definition at_svc_gate : Machine := run_or [press KEY_ENTER] code_typed.

Definition in_service : Machine :=
  run_or [press "7"; idle 1000000; idle 1000000; idle 1000000; idle 1000000;
          idle 1000000] at_svc_gate.

Definition at_return_gate : Machine :=
  run_or [press "1"; press "2"; press "3"; press "4"; press KEY_ENTER] in_service.

(** Item 3 (stock 1) chosen and the amount 5 typed, before ENTER. *)
Definition entering_amount : Machine :=
  run_or [press "3"; press KEY_ENTER; press "5"] (boot 0 []).

(** ** Motor calls and dispensing *)

(** The phase arguments of the [motor_write_phase] calls in a trace, oldest
    first. *)
Fixpoint motor_phases (tr : list Event) : list Z :=
  match tr with
  | [] => []
  | EvMotorPhase _ ph _ :: r => (motor_phases r ++ [ph])%list
  | _ :: r => motor_phases r
  end.

(** The phase rotation [phase = (phase + 1) & 3]: the [n] phases issued from
    [p] on, and the phase left after them. *)
Fixpoint phase_run (p : Z) (n : nat) : list Z :=
  match n with
  | O => []
  | S k => p :: phase_run (Z.land (p + 1) 3) k
  end.

Definition phase_after (p : Z) (n : nat) : Z :=
  Nat.iter n (fun q => Z.land (q + 1) 3) p.

(** From [m] to [m'] the dispense motor was stepped [n] times, in rotation. *)
Definition motor_advanced (n : nat) (m m' : Machine) : Prop :=
  motor_phases (trace m')
  = (motor_phases (trace m) ++ phase_run (disp_phase m) n)%list
  /\ disp_phase m' = phase_after (disp_phase m) n.

(** The dispensing track is done, or is running forward at the dispensing
    cadence and needs at most [k] more microseconds of phase steps. *)
Definition disp_progress (k : Z) (m : Machine) : Prop :=
  let a := gDispAnim m in
  oneshot_done a = true
  \/ (active a = true /\ direction a = 1 /\ frame_ms a = DISP_FRAME_MS
      /\ 0 <= idx a < nframes a
      /\ Z.max (- DISP_PHASE_DELAY_US) (next_ms a * 1000 - clock m)
         + (nframes a - idx a) * (DISP_FRAME_MS * 1000) <= k).

(** ** Service functions *)

(** The service states in which the keypad is read: the menu and the six
    sub-states of its functions. *)
Definition service_input_state (s : State) : bool :=
  match s with
  | ST_SVC_MENU | ST_SVC_DISPENSE_IDX | ST_SVC_DISPENSE_AMT
  | ST_SVC_RESTOCK_IDX | ST_SVC_RESTOCK_QTY | ST_SVC_SOUND_SEL
  | ST_SVC_MOTOR_CYC => true
  | _ => false
  end.

(** ** Keypad scan *)

Definition Col7Lo : Z := 0xF7.
Definition Col6Lo : Z := 0xFB.
Definition Col5Lo : Z := 0xFD.
Definition Col4Lo : Z := 0xFE.

(** The scan codes of the keys 0..9, A, B. *)
Definition ScanTable : list Z :=
  [0xB7; 0x7E; 0xBE; 0xDE; 0x7D; 0xBD; 0xDD; 0x7B; 0xBB; 0xDB; 0x77; 0xD7].

(** The loop of [ProcKey] from entry [j] on, over the rest of the table. *)
Fixpoint ProcKey_from (j : Z) (table : list Z) (ScanCode : Z) : Z :=
  match table with
  | [] => 0xFF
  | c :: r =>
    if ScanCode =? c then
      if j >? 9 then (j + 0x37) mod 256 else (j + 0x30) mod 256
    else ProcKey_from (j + 1) r ScanCode
  end.

Definition ProcKey (ScanCode : Z) : Z := ProcKey_from 0 ScanTable ScanCode.

(** The keypad as the scan sees it: the byte [CM3_inport] reads from a port
    after a column-select byte has been written to it. *)
Definition Keypad : Type := Z -> Z -> Z.

(** One column of the scan: select it, read the port into the
    [unsigned char ScanCode], force the low nibble to the column pattern. *)
Definition scan_column (kbd : Keypad) (port col : Z) : Z :=
  Z.land (Z.lor (kbd port col mod 256) 0x0F) col.

Definition ScanKey (kbd : Keypad) (m : Machine) : Z :=
  let sc := scan_column kbd (gKbdPort m) Col7Lo in
  if negb (sc =? Col7Lo) then ProcKey sc
  else
    let sc := scan_column kbd (gKbdPort m) Col6Lo in
    if negb (sc =? Col6Lo) then ProcKey sc
    else
      let sc := scan_column kbd (gKbdPort m) Col5Lo in
      if negb (sc =? Col5Lo) then ProcKey sc
      else
        let sc := scan_column kbd (gKbdPort m) Col4Lo in
        if negb (sc =? Col4Lo) then ProcKey sc
        else 0xFF.

(** The character a non-negative byte stands for. *)
Definition char_of (z : Z) : ascii := ascii_of_N (Z.to_N z).

(** The scan code a key of the matrix produces: its row nibble, and the low
    nibble of the column that selects it. *)
Definition key_code (j : nat) : Z := nth j ScanTable 0.

(** Key [j] alone is held down: the column that selects it reads its row
    nibble, every other column reads all rows high. *)
Definition only_key_down (kbd : Keypad) (port : Z) (j : nat) : Prop :=
  forall col, In col [Col7Lo; Col6Lo; Col5Lo; Col4Lo] ->
    Z.land (kbd port col mod 256) 0xF0
    = if Z.land col 0x0F =? Z.land (key_code j) 0x0F
      then Z.land (key_code j) 0xF0 else 0xF0.

(** No key is held down: every column reads all rows high. *)
Definition no_key_down (kbd : Keypad) (port : Z) : Prop :=
  forall col, In col [Col7Lo; Col6Lo; Col5Lo; Col4Lo] ->
    Z.land (kbd port col mod 256) 0xF0 = 0xF0.

(** ** Images shown *)




(** ** LCD lines *)

(** [a] is [s] as [printf("%-16.16s")] prints it: 16 characters, those of
    [s] as far as they go, then spaces. *)
Definition lcd_line (s a : string) : Prop :=
  String.length a = 16%nat
  /\ (forall k, (k < 16)%nat -> (k < String.length s)%nat -> get k a = get k s)
  /\ (forall k, (k < 16)%nat -> (String.length s <= k)%nat -> get k a = Some " "%char).

(** ** The motor test *)



(** ** Buffers, catalogue and slots *)

(** The key buffers stay within what the prompts accept (the arrays hold 8
    bytes) and hold digits only. *)
Definition digits_only (s : string) : Prop :=
  Forall (fun c => isdigit c = true) (list_ascii_of_string s).

Definition bufs_ok (c : Ctl) : Prop :=
  (strlen (selbuf c) <= 4 /\ digits_only (selbuf c))
  /\ (strlen (amtbuf c) <= 3 /\ digits_only (amtbuf c))
  /\ (strlen (svcbuf c) <= 4 /\ digits_only (svcbuf c)).

(** Two items that differ at most in their stock. *)
Definition same_goods (a b : Item) : Prop :=
  index a = index b /\ name a = name b /\ price a = price b
  /\ img a = img b /\ img_oos a = img_oos b.

(** The item array is the boot catalogue up to the stocks. *)
Definition catalog_kept (its : list Item) : Prop := Forall2 same_goods its catalog.

(** [slot] indexes the item array. *)
Definition slot_ok (its : list Item) (slot : Z) : Prop :=
  0 <= slot < Z.of_nat (List.length its).

(** The slot variables index the array in the states that use them, and a
    purchase under way asks for no more than the stock. *)
Definition slots_ok (c : Ctl) : Prop :=
  match st c with
  | ST_AMOUNT =>
    slot_ok (items c) (chosen_slot c)
    /\ 0 < stock (item_at (items c) (chosen_slot c))
  | ST_PAY | ST_DISPENSING =>
    slot_ok (items c) (chosen_slot c)
    /\ 1 <= amount c <= stock (item_at (items c) (chosen_slot c))
  | ST_SVC_DISPENSE_AMT => slot_ok (items c) (svc_disp_slot c)
  | ST_SVC_RESTOCK_QTY => slot_ok (items c) (restock_slot c)
  | _ => True
  end.

Definition Safe (c : Ctl) : Prop :=
  bufs_ok c /\ catalog_kept (items c) /\ slots_ok c.

(** What the dispense motor has seen: the phases written so far and the
    phase counter of [run_one_dispense_cycle_with_anim]. *)
Definition motor_view (m : Machine) : list Z * Z :=
  (motor_phases (trace m), disp_phase m).

(** The purchase of [paying] with the first '0' of the payment typed. *)
Definition half_paid : Machine := run_or [press "0"] paying.

(** The index 8 typed in the customer menu, before ENTER. *)
Definition index_typed : Machine := run_or [press "8"] (boot 0 []).

(** In service mode: a dispense from index 8 with the amount 2 typed, and a
    restock of index 8 with the quantity 9 typed, both before ENTER. *)
Definition service_amount_typed : Machine :=
  run_or (map press ["1"; KEY_ENTER; "8"; KEY_ENTER; "2"]%char) in_service.

Definition restock_quantity_typed : Machine :=
  run_or (map press ["2"; KEY_ENTER; "8"; KEY_ENTER; "9"]%char) in_service.

(** ** The image viewers ([pqiv]) *)

(** [show_image] above is the controller's view of the call.  Underneath, the
    C function keeps a rolling ring of the last [PQIV_KEEP] viewer processes;
    this module follows that ring.  What the operating system is asked to do
    is logged, newest first. *)
Module Pqiv.

Definition PQIV_KEEP : Z := 8.
Definition SIGTERM : Z := 15.
Definition SIGKILL : Z := 9.

Inductive Call : Type :=
| Kill (pid sig : Z)
| Sleep (us : Z)
| Fork (path : string) (pid : Z).

Record Viewers : Type := mkViewers {
  pqiv_ring : list Z;
  pqiv_pos : Z;
  pqiv_count : Z;
  calls : list Call
}.

Definition log (c : Call) (v : Viewers) : Viewers :=
  mkViewers (pqiv_ring v) (pqiv_pos v) (pqiv_count v) (c :: calls v).

(** [ring[i]] and [ring[i] = p], for an index inside the array. *)
Definition ring_get (ring : list Z) (i : Z) : Z := nth (Z.to_nat i) ring 0.

Fixpoint ring_upd (ring : list Z) (i : nat) (p : Z) : list Z :=
  match ring, i with
  | [], _ => []
  | _ :: r, O => p :: r
  | x :: r, S k => x :: ring_upd r k p
  end.

Definition ring_set (i : Z) (p : Z) (v : Viewers) : Viewers :=
  mkViewers (ring_upd (pqiv_ring v) (Z.to_nat i) p) (pqiv_pos v) (pqiv_count v)
    (calls v).

Definition set_pos (i : Z) (v : Viewers) : Viewers :=
  mkViewers (pqiv_ring v) i (pqiv_count v) (calls v).

Definition set_count (n : Z) (v : Viewers) : Viewers :=
  mkViewers (pqiv_ring v) (pqiv_pos v) n (calls v).

(** The static initialisers: [pqiv_ring = {0}], [pqiv_pos = 0],
    [pqiv_count = 0]. *)
Definition init : Viewers := mkViewers (repeat 0 8) 0 0 [].

Definition kill_pid_soft_hard (p : Z) (v : Viewers) : Viewers :=
  if p <=? 0 then v
  else log (Kill p SIGKILL) (log (Sleep 60000) (log (Kill p SIGTERM) v)).

(** [show_image] as the parent process runs it; [pid] is what [fork]
    returns there: the id of the new viewer, or -1. *)
Definition show_image (path : string) (pid : Z) (v : Viewers) : Viewers :=
  let v :=
    if pqiv_count v >=? PQIV_KEEP then
      let v := kill_pid_soft_hard (ring_get (pqiv_ring v) (pqiv_pos v)) v in
      ring_set (pqiv_pos v) 0 v
    else v in
  let v := log (Fork path pid) v in
  let v :=
    if pid >? 0 then
      let v := ring_set (pqiv_pos v) pid v in
      let v := set_pos (Z.rem (pqiv_pos v + 1) PQIV_KEEP) v in
      if pqiv_count v <? PQIV_KEEP then set_count (pqiv_count v + 1) v else v
    else v in
  log (Sleep 25000) v.

(** [for (i = 0; i < PQIV_KEEP; i++) { kill_pid_soft_hard(pqiv_ring[i]);
    pqiv_ring[i] = 0; }], from [i] on. *)
Fixpoint kill_from (fuel : nat) (i : Z) (v : Viewers) : Viewers :=
  match fuel with
  | O => v
  | S f =>
    if i <? PQIV_KEEP then
      let v := kill_pid_soft_hard (ring_get (pqiv_ring v) i) v in
      let v := ring_set i 0 v in
      kill_from f (i + 1) v
    else v
  end.

Definition pqiv_kill_all_spawned (v : Viewers) : Viewers :=
  let v := kill_from (Z.to_nat PQIV_KEEP) 0 v in
  set_count 0 (set_pos 0 v).

(** A run of [show_image] calls, each with its path and the result of its
    [fork]. *)
Fixpoint show_images (l : list (string * Z)) (v : Viewers) : Viewers :=
  match l with
  | [] => v
  | (path, pid) :: r => show_images r (show_image path pid v)
  end.

(** The viewers alive after a log of calls, oldest first: a successful fork
    adds one, a SIGKILL takes its target out. *)
Fixpoint remove_first (p : Z) (l : list Z) : list Z :=
  match l with
  | [] => []
  | x :: r => if x =? p then r else x :: remove_first p r
  end.

Fixpoint alive (cs : list Call) : list Z :=
  match cs with
  | [] => []
  | Fork _ pid :: r => if pid >? 0 then (alive r ++ [pid])%list else alive r
  | Kill pid sig :: r => if sig =? SIGKILL then remove_first pid (alive r) else alive r
  | Sleep _ :: r => alive r
  end.

(** The time a log of calls spends asleep. *)
Fixpoint slept (cs : list Call) : Z :=
  match cs with
  | [] => 0
  | Sleep us :: r => us + slept r
  | _ :: r => slept r
  end.

(** The ring read from the position of the next spawn on, and its live
    entries. *)
Definition rotate (i : Z) (ring : list Z) : list Z :=
  (skipn (Z.to_nat i) ring ++ firstn (Z.to_nat i) ring)%list.

Definition live (ring : list Z) : list Z := filter (fun p => 0 <? p) ring.

(** The ring is well formed: eight slots, position and count in range, the
    slots from the count on still empty while the ring fills, and the live
    slots, read from the position on, are the viewers alive, oldest first. *)
Definition ring_ok (v : Viewers) : Prop :=
  List.length (pqiv_ring v) = 8%nat
  /\ 0 <= pqiv_pos v < PQIV_KEEP
  /\ 0 <= pqiv_count v <= PQIV_KEEP
  /\ (pqiv_count v < PQIV_KEEP ->
      pqiv_pos v = pqiv_count v
      /\ forall j, (Z.to_nat (pqiv_count v) <= j)%nat -> nth j (pqiv_ring v) 0 = 0)
  /\ alive (calls v) = live (rotate (pqiv_pos v) (pqiv_ring v)).

(** The first part of [show_image]: the slot about to be reused is cleared,
    its viewer killed. *)
Definition recycle (v : Viewers) : Viewers :=
  if pqiv_count v >=? PQIV_KEEP then
    let v := kill_pid_soft_hard (ring_get (pqiv_ring v) (pqiv_pos v)) v in
    ring_set (pqiv_pos v) 0 v
  else v.

(** The viewer a call of [show_image] kills, if any. *)
Definition victim (v : Viewers) : option Z :=
  if (pqiv_count v >=? PQIV_KEEP) && (0 <? ring_get (pqiv_ring v) (pqiv_pos v))
  then Some (ring_get (pqiv_ring v) (pqiv_pos v)) else None.

(** Nine images in a row, each fork returning a fresh process id. *)
Definition nine_images : list (string * Z) :=
  map (fun p => ("menu.png", p)) [101; 102; 103; 104; 105; 106; 107; 108; 109].

End Pqiv.

(** The door opening: the gate confirmed, the animation just started. *)
Definition door_opening : Machine := run_or [press "7"] at_svc_gate.

(** * Properties *)

(** ** Frame: the drivers and engines never touch the control state *)

Create Rewrite HintDb frame.

Ltac frame_cases :=
  repeat match goal with
         | |- context [if ?c then _ else _] => destruct c
         end.

Ltac frame_auto :=
  intros; cbv zeta; frame_cases;
  repeat first [progress cbn | progress (autorewrite with frame)];
  try reflexivity.

Lemma iter_frame {B : Type} (p : Machine -> B) (f : Machine -> Machine) :
  (forall m, p (f m) = p m) -> forall n m, p (Nat.iter n f m) = p m.
Proof.
  intros Hf n; induction n as [|n IH]; intro m; simpl; [reflexivity|].
  now rewrite Hf.
Qed.

Lemma ctl_usleep us m : ctl (usleep us m) = ctl m.
Proof. reflexivity. Qed.
Lemma ctl_emit e m : ctl (emit e m) = ctl m.
Proof. reflexivity. Qed.
#[global] Hint Rewrite ctl_usleep ctl_emit : frame.
Arguments usleep : simpl never.
Arguments emit : simpl never.

Lemma ctl_seg_blank m : ctl (seg_blank m) = ctl m.
Proof. reflexivity. Qed.
Lemma ctl_seg_show_digit d m : ctl (seg_show_digit d m) = ctl m.
Proof. unfold seg_show_digit; frame_auto. Qed.
Lemma ctl_lcd_print2 l1 l2 m : ctl (lcd_print2 l1 l2 m) = ctl m.
Proof. reflexivity. Qed.
Lemma ctl_show_image p m : ctl (show_image p m) = ctl m.
Proof. reflexivity. Qed.
Lemma ctl_motor_write_phase ph m : ctl (motor_write_phase ph m) = ctl m.
Proof. reflexivity. Qed.
#[global] Hint Rewrite ctl_seg_blank ctl_seg_show_digit ctl_lcd_print2 ctl_show_image
  ctl_motor_write_phase : frame.
Arguments seg_blank : simpl never.
Arguments seg_show_digit : simpl never.
Arguments lcd_print2 : simpl never.
Arguments show_image : simpl never.
Arguments motor_write_phase : simpl never.

Lemma ctl_beep_loop fuel e hp m : ctl (beep_loop fuel e hp m) = ctl m.
Proof.
  revert m; induction fuel as [|fuel IH]; intro m; simpl; [reflexivity|].
  destruct (now_ms m <? e); [rewrite IH|]; reflexivity.
Qed.
Lemma ctl_beep_square d hp hi lo m : ctl (beep_square d hp hi lo m) = ctl m.
Proof. unfold beep_square; now rewrite ctl_beep_loop. Qed.
#[global] Hint Rewrite ctl_beep_loop ctl_beep_square : frame.
Arguments beep_square : simpl never.

Lemma ctl_beep_keypress m : ctl (beep_keypress m) = ctl m.
Proof. apply ctl_beep_square. Qed.
Lemma ctl_beep_error m : ctl (beep_error m) = ctl m.
Proof. apply ctl_beep_square. Qed.
Lemma ctl_beep_success m : ctl (beep_success m) = ctl m.
Proof. unfold beep_success; frame_auto. Qed.
Lemma ctl_beep_payment_ok m : ctl (beep_payment_ok m) = ctl m.
Proof. unfold beep_payment_ok; frame_auto. Qed.
Lemma ctl_beep_dispensing_slot s m : ctl (beep_dispensing_slot s m) = ctl m.
Proof. unfold beep_dispensing_slot; frame_auto. Qed.
#[global] Hint Rewrite ctl_beep_keypress ctl_beep_error ctl_beep_success
  ctl_beep_payment_ok ctl_beep_dispensing_slot : frame.
Arguments beep_keypress : simpl never.
Arguments beep_error : simpl never.
Arguments beep_success : simpl never.
Arguments beep_payment_ok : simpl never.
Arguments beep_dispensing_slot : simpl never.

Lemma ctl_track_set tr a m : ctl (track_set tr a m) = ctl m.
Proof. destruct tr; reflexivity. Qed.
#[global] Hint Rewrite ctl_track_set : frame.
Arguments track_set : simpl never.
Lemma ctl_anim_start tr fr n d f m : ctl (anim_start tr fr n d f m) = ctl m.
Proof. apply ctl_track_set. Qed.
Lemma ctl_anim_tick tr m : ctl (anim_tick tr m) = ctl m.
Proof. unfold anim_tick; frame_auto. Qed.
#[global] Hint Rewrite ctl_anim_start ctl_anim_tick : frame.
Arguments anim_start : simpl never.
Arguments anim_tick : simpl never.

Lemma ctl_timer_start_or_reset m : ctl (timer_start_or_reset m) = ctl m.
Proof. reflexivity. Qed.
Lemma ctl_timer_update_display t m : ctl (timer_update_display t m) = ctl m.
Proof. unfold timer_update_display; frame_auto. Qed.
Lemma ctl_timer_stop_and_blank m : ctl (timer_stop_and_blank m) = ctl m.
Proof. reflexivity. Qed.
Lemma ctl_service_blink_tick t m : ctl (service_blink_tick t m) = ctl m.
Proof. unfold service_blink_tick; frame_auto. Qed.
Lemma ctl_service_blink_reset m : ctl (service_blink_reset m) = ctl m.
Proof. unfold service_blink_reset; frame_auto. Qed.
#[global] Hint Rewrite ctl_timer_start_or_reset ctl_timer_update_display
  ctl_timer_stop_and_blank ctl_service_blink_tick ctl_service_blink_reset : frame.
Arguments timer_start_or_reset : simpl never.
Arguments timer_update_display : simpl never.
Arguments timer_stop_and_blank : simpl never.
Arguments service_blink_tick : simpl never.
Arguments service_blink_reset : simpl never.

Lemma ctl_service_menu_screen typed m : ctl (service_menu_screen typed m) = ctl m.
Proof. reflexivity. Qed.
Lemma ctl_show_service_gate_prompt m : ctl (show_service_gate_prompt m) = ctl m.
Proof. reflexivity. Qed.
Lemma ctl_show_return_gate_prompt m : ctl (show_return_gate_prompt m) = ctl m.
Proof. reflexivity. Qed.
Lemma ctl_menu_screen m : ctl (menu_screen m) = ctl m.
Proof. reflexivity. Qed.
#[global] Hint Rewrite ctl_service_menu_screen ctl_show_service_gate_prompt
  ctl_show_return_gate_prompt ctl_menu_screen : frame.
Arguments service_menu_screen : simpl never.
Arguments show_service_gate_prompt : simpl never.
Arguments show_return_gate_prompt : simpl never.
Arguments menu_screen : simpl never.

Lemma ctl_dispense_phase_step m : ctl (dispense_phase_step m) = ctl m.
Proof. unfold dispense_phase_step; frame_auto. Qed.
#[global] Hint Rewrite ctl_dispense_phase_step : frame.
Arguments dispense_phase_step : simpl never.
Lemma ctl_dispense_step m : ctl (dispense_step m) = ctl m.
Proof.
  unfold dispense_step.
  rewrite (iter_frame ctl _ ctl_dispense_phase_step). apply ctl_anim_tick.
Qed.
#[global] Hint Rewrite ctl_dispense_step : frame.
Arguments dispense_step : simpl never.
Lemma ctl_run_one_dispense_cycle_with_anim m :
  ctl (run_one_dispense_cycle_with_anim m) = ctl m.
Proof.
  unfold run_one_dispense_cycle_with_anim; cbv zeta.
  rewrite ctl_emit. apply (iter_frame ctl), ctl_dispense_step.
Qed.
#[global] Hint Rewrite ctl_run_one_dispense_cycle_with_anim : frame.
Arguments run_one_dispense_cycle_with_anim : simpl never.
Lemma ctl_dispense_units n m : ctl (dispense_units n m) = ctl m.
Proof.
  revert m; induction n as [|n IH]; intro m; simpl; [reflexivity|].
  rewrite IH. destruct n; frame_auto.
Qed.
Lemma ctl_anim_wait_done fuel m m' :
  anim_wait_done fuel m = Some m' -> ctl m' = ctl m.
Proof.
  revert m; induction fuel as [|fuel IH]; intro m; simpl;
    destruct (oneshot_done (gDispAnim m)); try congruence.
  intro H; apply IH in H. rewrite H. frame_auto.
Qed.
Lemma ctl_dispense_burst n m m' : dispense_burst n m = Some m' -> ctl m' = ctl m.
Proof.
  unfold dispense_burst; intro H; apply ctl_anim_wait_done in H.
  now rewrite H, ctl_dispense_units.
Qed.
#[global] Hint Rewrite ctl_dispense_units : frame.
Arguments dispense_units : simpl never.
Arguments dispense_burst : simpl never.

Lemma ctl_motor_spin_phase_step m : ctl (motor_spin_phase_step m) = ctl m.
Proof. reflexivity. Qed.
Lemma ctl_motor_spin_one_cycle m : ctl (motor_spin_one_cycle m) = ctl m.
Proof.
  unfold motor_spin_one_cycle; cbv zeta. rewrite ctl_emit.
  apply (iter_frame ctl); intro m'. apply (iter_frame ctl), ctl_motor_spin_phase_step.
Qed.
Lemma ctl_run_motor_test_cycles c m : ctl (run_motor_test_cycles c m) = ctl m.
Proof.
  unfold run_motor_test_cycles; cbv zeta. apply (iter_frame ctl); intro m'.
  now rewrite ctl_usleep, ctl_motor_spin_one_cycle.
Qed.
Lemma ctl_play_sound s m : ctl (play_sound s m) = ctl m.
Proof. unfold play_sound; frame_auto. Qed.
Lemma ctl_wait_key_release n m : ctl (wait_key_release n m) = ctl m.
Proof. apply (iter_frame ctl), ctl_usleep. Qed.
Lemma ctl_anything_else m : ctl (anything_else m) = ctl m.
Proof. apply ctl_beep_error. Qed.
#[global] Hint Rewrite ctl_motor_spin_one_cycle ctl_run_motor_test_cycles ctl_play_sound
  ctl_wait_key_release ctl_anything_else : frame.
Arguments motor_spin_one_cycle : simpl never.
Arguments run_motor_test_cycles : simpl never.
Arguments play_sound : simpl never.
Arguments wait_key_release : simpl never.
Arguments anything_else : simpl never.

(** ** The countdown projection [timer_seconds_left] *)

Lemma to_int_small z : -2147483648 <= z < 2147483648 -> to_int z = z.
Proof. intro H; unfold to_int. rewrite Z.mod_small; lia. Qed.

(** For an armed timer whose remaining time fits the [(int)] cast, the
    function is the remaining time in whole seconds, rounded up and clamped. *)
Lemma timer_seconds_left_armed t (m : Machine) :
  0 < idle_deadline m ->
  idle_deadline m - t <= 2147483647000 ->
  timer_seconds_left t m = Z.max 0 (Z.min 9 ((idle_deadline m - t + 999) / 1000)).
Proof.
  intros Harm Hfit. unfold timer_seconds_left.
  destruct (idle_deadline m <=? 0) eqn:E0; [apply Z.leb_le in E0; exfalso; lia|].
  destruct (idle_deadline m - t <=? 0) eqn:E1.
  - apply Z.leb_le in E1.
    assert ((idle_deadline m - t + 999) / 1000 < 1)
      by (apply Z.div_lt_upper_bound; lia).
    lia.
  - apply Z.leb_gt in E1.
    rewrite Z.quot_div_nonneg by lia.
    assert (0 <= (idle_deadline m - t + 999) / 1000 < 2147483648)
      by (split; [apply Z.div_pos; lia | apply Z.div_lt_upper_bound; lia]).
    rewrite to_int_small by lia.
    destruct ((idle_deadline m - t + 999) / 1000 >? 9) eqn:E2.
    + apply Z.gtb_lt in E2. simpl. lia.
    + destruct ((idle_deadline m - t + 999) / 1000 <? 0) eqn:E3.
      * apply Z.ltb_lt in E3. lia.
      * assert (~ 9 < (idle_deadline m - t + 999) / 1000)
          by (intro Hc; apply Z.gtb_lt in Hc; congruence).
        lia.
Qed.

(** A stopped timer ([idle_deadline] cleared) has no reading. *)
Lemma timer_seconds_left_stopped t (m : Machine) :
  idle_deadline m <= 0 -> timer_seconds_left t m = -1.
Proof.
  intro H; unfold timer_seconds_left.
  destruct (idle_deadline m <=? 0) eqn:E; [reflexivity|apply Z.leb_gt in E; lia].
Qed.

(** C5. For a fixed deadline of an armed countdown, [timer_seconds_left] is
    non-increasing in the time of the reading, lies in 0..9, is the remaining
    milliseconds rounded up to whole seconds while at most 9 s remain, and is
    0 from the deadline on. *)
Theorem timer_seconds_left_countdown (m : Machine) (t1 t2 : Z) :
  0 < idle_deadline m ->
  idle_deadline m - t1 <= 2147483647000 ->
  t1 <= t2 ->
  timer_seconds_left t2 m <= timer_seconds_left t1 m
  /\ 0 <= timer_seconds_left t1 m <= 9
  /\ (0 < idle_deadline m - t1 <= 9000 ->
      1000 * (timer_seconds_left t1 m - 1) < idle_deadline m - t1
        <= 1000 * timer_seconds_left t1 m)
  /\ (idle_deadline m <= t1 -> timer_seconds_left t1 m = 0).
Proof.
  intros Harm Hfit Hle.
  rewrite !timer_seconds_left_armed by lia.
  assert (Hmono : (idle_deadline m - t2 + 999) / 1000
                  <= (idle_deadline m - t1 + 999) / 1000)
    by (apply Z.div_le_mono; lia).
  split; [lia|]. split; [lia|]. split.
  - intros [Hpos H9].
    assert ((idle_deadline m - t1 + 999) / 1000 < 10)
      by (apply Z.div_lt_upper_bound; lia).
    pose proof (Z.div_mod (idle_deadline m - t1 + 999) 1000 ltac:(lia)).
    pose proof (Z.mod_pos_bound (idle_deadline m - t1 + 999) 1000 ltac:(lia)).
    lia.
  - intro Hpast.
    assert ((idle_deadline m - t1 + 999) / 1000 < 1)
      by (apply Z.div_lt_upper_bound; lia).
    lia.
Qed.

(** The countdown [timer_start_or_reset] arms at a non-negative clock reading
    satisfies the two side conditions at every later reading. *)
Lemma timer_start_or_reset_armed (m : Machine) t :
  0 <= clock m -> now_ms m <= t ->
  0 < idle_deadline (timer_start_or_reset m)
  /\ idle_deadline (timer_start_or_reset m) - t <= 2147483647000.
Proof.
  intros Hc Ht. unfold timer_start_or_reset, now_ms in *. cbn. unfold IDLE_MS.
  assert (0 <= clock m / 1000) by (apply Z.div_pos; lia). lia.
Qed.

Lemma timer_seconds_left_countdown_witness :
  let m := timer_start_or_reset (boot 0 []) in
  timer_seconds_left 2500 m <= timer_seconds_left 1000 m
  /\ 0 <= timer_seconds_left 1000 m <= 9
  /\ (0 < idle_deadline m - 1000 <= 9000 ->
      1000 * (timer_seconds_left 1000 m - 1) < idle_deadline m - 1000
        <= 1000 * timer_seconds_left 1000 m)
  /\ (idle_deadline m <= 1000 -> timer_seconds_left 1000 m = 0).
Proof.
  intro m.
  apply (timer_seconds_left_countdown m 1000 2500); vm_compute;
    first [reflexivity | discriminate].
Defined.

(** ** The animation engine *)

Lemma track_get_set tr a m : track_get tr (track_set tr a m) = a.
Proof. destruct tr; reflexivity. Qed.

Lemma track_get_show_image tr p m : track_get tr (show_image p m) = track_get tr m.
Proof. destruct tr; reflexivity. Qed.

Lemma track_get_usleep tr d m : track_get tr (usleep d m) = track_get tr m.
Proof. destruct tr; reflexivity. Qed.

Lemma trace_track_set tr a m : trace (track_set tr a m) = trace m.
Proof. destruct tr; reflexivity. Qed.


Lemma anim_tick_not_due tr m :
  now_ms m < next_ms (track_get tr m) -> anim_tick tr m = m.
Proof.
  intro H. unfold anim_tick; cbv zeta.
  destruct (negb (active (track_get tr m)) || oneshot_done (track_get tr m));
    [reflexivity|].
  apply Z.ltb_lt in H. now rewrite H.
Qed.

Lemma anim_tick_idle tr m :
  active (track_get tr m) = false \/ oneshot_done (track_get tr m) = true ->
  anim_tick tr m = m.
Proof.
  intros [H|H]; unfold anim_tick; cbv zeta; rewrite H;
    [|rewrite orb_true_r]; reflexivity.
Qed.

Lemma anim_tick_due tr m :
  active (track_get tr m) = true ->
  oneshot_done (track_get tr m) = false ->
  next_ms (track_get tr m) <= now_ms m ->
  anim_tick tr m =
  track_set tr (anim_advance (track_get tr m) (now_ms m))
    (show_image (anim_frame (track_get tr m) m) m).
Proof.
  intros Ha Hd Hdue. unfold anim_tick; cbv zeta. rewrite Ha, Hd. cbn [negb orb].
  destruct (now_ms m <? next_ms (track_get tr m)) eqn:E; [|reflexivity].
  apply Z.ltb_lt in E. lia.
Qed.


(** The track after the display of a frame: one step, or the flag. *)
Lemma anim_advance_step a t :
  is_terminal a = false ->
  idx (anim_advance a t) = idx a + (if direction a >? 0 then 1 else -1)
  /\ oneshot_done (anim_advance a t) = oneshot_done a
  /\ active (anim_advance a t) = active a
  /\ remaining (anim_advance a t) = remaining a - 1.
Proof.
  unfold is_terminal, anim_advance, remaining; cbv zeta.
  destruct (direction a >? 0) eqn:Ed; intro H; rewrite H; cbn; rewrite Ed;
    repeat split; lia.
Qed.

Lemma anim_advance_last a t :
  is_terminal a = true ->
  idx (anim_advance a t) = idx a
  /\ oneshot_done (anim_advance a t) = true
  /\ active (anim_advance a t) = false.
Proof.
  unfold is_terminal, anim_advance; cbv zeta.
  destruct (direction a >? 0); intro H; rewrite H; cbn; auto.
Qed.

Lemma anim_advance_static a t :
  direction (anim_advance a t) = direction a
  /\ nframes (anim_advance a t) = nframes a
  /\ frame_ms (anim_advance a t) = frame_ms a
  /\ frames (anim_advance a t) = frames a
  /\ next_ms (anim_advance a t) = t + frame_ms a.
Proof.
  unfold anim_advance; cbv zeta.
  destruct (direction a >? 0), (idx a =? nframes a - 1), (idx a =? 0); cbn; auto.
Qed.





Lemma trace_show_image p m : trace (show_image p m) = EvImage p :: trace m.
Proof. reflexivity. Qed.

Lemma anim_start_track tr fr n dir fms m :
  track_get tr (anim_start tr fr n dir fms m) =
  mkAnim true fr n
    (if (if dir >=? 0 then 1 else -1) >? 0 then 0 else n - 1)
    (if dir >=? 0 then 1 else -1) (now_ms m) fms false.
Proof. unfold anim_start; cbv zeta. apply track_get_set. Qed.






(** ** Stocks and door transitions on the control state *)

Lemma ctl_door_transitions m :
  ctl (door_transitions m) =
  ctl (match st m with
       | ST_DOOR_OPENING =>
         if oneshot_done (gDoorAnim m)
         then set_selbuf "" (set_st ST_SVC_MENU m) else m
       | ST_DOOR_CLOSING =>
         if oneshot_done (gDoorAnim m)
         then set_index_timer_active false
                (set_chosen_slot (-1)
                   (set_amtbuf ""
                      (set_selbuf ""
                         (set_st ST_MENU
                            (set_port_mapping false (set_service_mode false m))))))
         else m
       | _ => m
       end).
Proof.
  unfold door_transitions.
  destruct (st m) eqn:Est; cbv zeta; rewrite ?Est; try reflexivity;
    destruct (oneshot_done (gDoorAnim m)); rewrite ?Est;
      repeat first [ progress (autorewrite with frame) | progress cbn ];
      reflexivity.
Qed.
#[global] Hint Rewrite ctl_door_transitions : frame.
Arguments door_transitions : simpl never.

(** ** Stock updates *)

Lemma item_at_stocks_ok its slot :
  stocks_ok its -> 0 <= stock (item_at its slot) <= 15.
Proof.
  intro H. unfold item_at. destruct (slot <? 0); [cbn; lia|].
  generalize (Z.to_nat slot) as n. induction H as [|it r Hit Hr IH]; intro n.
  - destruct n; cbn; lia.
  - destruct n; cbn; [exact Hit|apply IH].
Qed.

Lemma stocks_ok_set_stock_nat its n v :
  stocks_ok its -> 0 <= v <= 15 -> stocks_ok (set_stock_nat its n v).
Proof.
  unfold stocks_ok. intros H Hv; revert n.
  induction H as [|it r Hit Hr IH]; intro n; destruct n; cbn; constructor; auto.
Qed.

Lemma stocks_ok_set_stock_at its slot v :
  stocks_ok its -> 0 <= v <= 15 -> stocks_ok (set_stock_at its slot v).
Proof.
  intros; unfold set_stock_at. destruct (slot <? 0); [assumption|].
  now apply stocks_ok_set_stock_nat.
Qed.

Lemma stocks_ok_overwrite its slot v v' :
  stocks_ok its -> 0 <= v' <= 15 ->
  stocks_ok (set_stock_at (set_stock_at its slot v) slot v').
Proof.
  intros H Hv; unfold set_stock_at. destruct (slot <? 0); [assumption|].
  generalize (Z.to_nat slot) as n. unfold stocks_ok in *.
  induction H as [|it r Hit Hr IH]; intro n; destruct n; cbn; constructor; auto.
Qed.

Lemma stocks_ok_set_checked its slot v :
  stocks_ok its -> v <= 15 ->
  (stock (item_at (set_stock_at its slot v) slot) <? 0) = false ->
  stocks_ok (set_stock_at its slot v).
Proof.
  intros H Hv. unfold set_stock_at, item_at.
  destruct (slot <? 0); [intros _; assumption|].
  generalize (Z.to_nat slot) as n. unfold stocks_ok in *.
  induction H as [|it r Hit Hr IH]; intros n Hc; destruct n; cbn in *.
  - constructor.
  - constructor.
  - apply Z.ltb_ge in Hc. constructor; [cbn; lia|assumption].
  - constructor; [assumption|apply IH, Hc].
Qed.

Lemma range_check_false a lo hi :
  (a <? lo) || (a >? hi) = false -> lo <= a <= hi.
Proof.
  intro H. apply orb_false_iff in H as [H1 H2].
  apply Z.ltb_ge in H1. rewrite Z.gtb_ltb in H2. apply Z.ltb_ge in H2. lia.
Qed.

(** ** Symbolic execution of the handlers on the control state *)

(** The handlers are chains of assignments and driver calls.  The tactics
    below run such a chain one statement at a time: each intermediate machine
    becomes a variable [y] known only through an equation [ctl y = ...], so
    that the size of the goal stays linear in the length of the chain. *)

Ltac ctl_cbn :=
  cbn beta iota delta
    [ctl hw world st selbuf amtbuf svcbuf chosen_slot amount total pay_zero_count
     index_timer_active service_mode svc_gate_deadline return_gate_deadline
     svc_disp_slot restock_slot items ports
     set_st set_selbuf set_amtbuf set_svcbuf set_chosen_slot set_amount set_total
     set_pay_zero_count set_index_timer_active set_service_mode
     set_svc_gate_deadline set_return_gate_deadline set_svc_disp_slot
     set_restock_slot set_items set_ports set_port_mapping
     set_gDoorAnim set_gDispAnim set_idle_deadline set_last_shown
     set_svc_blink_next set_svc_blink_on set_disp_phase set_spin_phase
     set_clock set_trace negb andb orb].

Ltac ctl_cbn_in K :=
  cbn beta iota delta
    [ctl hw world st selbuf amtbuf svcbuf chosen_slot amount total pay_zero_count
     index_timer_active service_mode svc_gate_deadline return_gate_deadline
     svc_disp_slot restock_slot items ports
     set_st set_selbuf set_amtbuf set_svcbuf set_chosen_slot set_amount set_total
     set_pay_zero_count set_index_timer_active set_service_mode
     set_svc_gate_deadline set_return_gate_deadline set_svc_disp_slot
     set_restock_slot set_items set_ports set_port_mapping
     set_gDoorAnim set_gDispAnim set_idle_deadline set_last_shown
     set_svc_blink_next set_svc_blink_on set_disp_phase set_spin_phase
     set_clock set_trace negb andb orb] in K.

Ltac ctl_rw :=
  repeat match goal with
         | H : ctl ?y = _ |- context [ctl ?y] => rewrite H
         end.

Ltac ctl_rw_in K :=
  repeat match goal with
         | H : ctl ?y = _ |- _ =>
           lazymatch type of K with
           | context [ctl y] =>
             lazymatch H with K => fail | _ => rewrite H in K end
           end
         end.

Ltac norm :=
  repeat first [ progress (autorewrite with frame)
               | progress ctl_rw
               | progress ctl_cbn ].

Ltac norm_in K :=
  repeat first [ progress (autorewrite with frame in K)
               | progress (ctl_rw_in K)
               | progress (ctl_cbn_in K) ].

Lemma some_ctl (X r : Machine) : Some X = Some r -> ctl r = ctl X.
Proof. now intros [= <-]. Qed.

(** Forget the body of the local definition [y := v], keeping what it says
    about the control state. *)
Ltac abstract_value v y :=
  lazymatch type of v with
  | Machine =>
    let Hy := fresh "Hm" in
    assert (Hy : ctl y = ctl v) by reflexivity;
    clearbody y;
    cbv zeta in Hy;
    norm_in Hy;
    repeat match type of Hy with
           | context [if ?c then _ else _] => destruct c eqn:?; norm_in Hy
           end
  | _ =>
    let Hy := fresh "Hv" in
    assert (Hy : y = v) by reflexivity;
    clearbody y;
    norm_in Hy
  end.

(** The condition [c] reads the control state of a call's result. *)
Ltac framed c :=
  lazymatch c with
  | context [ctl (?f _)] => idtac
  end.

(** [match Continue Y with ...] or [match Fallthrough Y with ...]: enter the
    branch [K], with [Y] bound to a variable. *)
Ltac flow_reduce Y K rebuild :=
  first
    [ is_var Y; let t := eval cbv beta in (K Y) in rebuild t
    | let y := fresh "m" in
      pose (y := Y);
      let t := eval cbv beta in (K y) in
      rebuild t;
      abstract_value Y y ].

(** One step on the term [T] at the head of the goal. *)
Ltac exec_term unf T rebuild :=
  lazymatch T with
  | match ?X with Continue a => @?K1 a | Fallthrough b => @?K2 b end =>
    lazymatch X with
    | Continue ?Y => flow_reduce Y K1 rebuild
    | Fallthrough ?Y => flow_reduce Y K2 rebuild
    | _ =>
      exec_term unf X
        ltac:(fun x' =>
                let t := eval cbv beta in
                           (match x' with
                            | Continue a => K1 a
                            | Fallthrough b => K2 b
                            end) in
                rebuild t)
    end
  | let x := ?v in @?b x =>
    let y := fresh "m" in
    pose (y := v);
    let t := eval cbv beta in (b y) in
    rebuild t;
    abstract_value v y
  | if ?c then _ else _ =>
    first [ progress (ctl_rw; ctl_cbn)
          | framed c; progress (autorewrite with frame)
          | destruct c eqn:? ]
  | match ?c with _ => _ end =>
    first [ progress (ctl_rw; ctl_cbn)
          | framed c; progress (autorewrite with frame)
          | destruct c eqn:? ]
  | _ => first [ progress norm | progress unf ]
  end.

Ltac exec1 unf :=
  lazymatch goal with
  | |- ?L = ctl ?T -> ?R =>
    exec_term unf T ltac:(fun t => change (L = ctl t -> R))
  | |- Some ?X = Some ?r -> ?R =>
    let H := fresh in
    intro H; apply some_ctl in H; revert H
  | |- None = Some _ -> _ =>
    let H := fresh in intro H; discriminate H
  | |- match dispense_burst ?n ?m with Some _ => _ | None => _ end = Some _ -> _ =>
    let Hb := fresh "Hburst" in
    let y := fresh "m" in
    destruct (dispense_burst n m) as [y|] eqn:Hb;
    [ apply ctl_dispense_burst in Hb; norm_in Hb | ]
  | |- ?T = Some ?r -> ?R =>
    exec_term unf T ltac:(fun t => change (t = Some r -> R))
  end.

Ltac exec unf := repeat (exec1 unf).

(** ** What a key, a burst and an iteration do to the control state *)

Ltac unfold_dispatch :=
  cbv beta delta
    [dispatch on_back on_digit on_enter_normal on_enter_service
     svc_gate_confirm return_gate_confirm service_digit_screen].

Ltac prep_facts :=
  repeat match goal with
         | H : (_ =? _)%string = true |- _ => apply String.eqb_eq in H
         | H : (_ =? _)%char = true |- _ => apply Ascii.eqb_eq in H
         | H : (_ <? _) || (_ >? _) = false |- _ => apply range_check_false in H
         | H : ?y = atoi _ |- _ => subst y
         | H : ?y = find_slot_by_index _ _ |- _ => subst y
         end.

Ltac finish_dispatch :=
  let Hc := fresh "Hc" in
  intro Hc; unfold dispatch_post; rewrite Hc; clear Hc;
  unfold Inv, mode_ok, order_ok; cbn;
  prep_facts;
  repeat split;
  try solve [ assumption | tauto | congruence | intuition congruence
            | apply stocks_ok_set_stock_at; [assumption|unfold MAX_COUNT in *; lia]
            | unfold MAX_COUNT in *; lia ].

Lemma dispatch_effect k (m m' : Machine) :
  Inv m -> dispatch k m = Some m' -> dispatch_post k m m'.
Proof.
  destruct m as [c h w];
    destruct c as [s sel amt svc slot am tot pz ita sm gd rd sds rs its ps].
  intros (Hm & Hs & Ho); unfold mode_ok, order_ok in Hm, Ho; cbn in Hm, Ho, Hs.
  destruct s; destruct Hm as [Hsm Hps]; subst sm.
  all: exec unfold_dispatch.
  all: finish_dispatch.
Qed.

Lemma dispensing_effect (m m' : Machine) :
  Inv m -> st m = ST_DISPENSING -> dispensing_state m = Some m' ->
  Inv m' /\ service_mode m' = service_mode m /\ ports m' = ports m.
Proof.
  destruct m as [c h w];
    destruct c as [s sel amt svc slot am tot pz ita sm gd rd sds rs its ps].
  intros (Hm & Hs & Ho) Hst; cbn in Hst; subst s.
  unfold mode_ok, order_ok in Hm, Ho; cbn in Hm, Ho, Hs. destruct Hm as [Hsm Hps].
  exec ltac:(cbv beta delta [dispensing_state]).
  all: intro Hc; rewrite Hc; clear Hc; unfold Inv, mode_ok, order_ok; cbn.
  all: pose proof (item_at_stocks_ok its slot Hs).
  all: repeat split; try solve [assumption | reflexivity].
  all: first [ apply stocks_ok_overwrite; [assumption|lia]
             | apply stocks_ok_set_checked; [assumption|lia|assumption] ].
Qed.

Lemma keypad_effect i (m m' : Machine) :
  Inv m -> keypad i m = Some m' ->
  (key i = KEY_NONE /\ ctl m' = ctl m)
  \/ (key i <> KEY_NONE /\ dispatch_post (key i) m m').
Proof.
  intros HI. unfold keypad.
  destruct (Ascii.eqb_spec (key i) KEY_NONE) as [Hk|Hk].
  - intro H; apply some_ctl in H. left; split; [exact Hk|]. now rewrite H.
  - cbv zeta. intro H; right; split; [exact Hk|].
    apply dispatch_effect in H.
    + now autorewrite with frame in H.
    + now autorewrite with frame.
Qed.

Lemma deadline_check_false d t :
  (d >? 0) && (t >=? d) = false -> ~ 0 < d <= t.
Proof.
  intros H [H1 H2]. apply andb_false_iff in H as [H|H].
  - rewrite Z.gtb_ltb in H. apply Z.ltb_ge in H. lia.
  - rewrite Z.geb_leb in H. apply Z.leb_gt in H. lia.
Qed.

Lemma deadline_check_true d t :
  (d >? 0) && (t >=? d) = true -> 0 < d <= t.
Proof.
  intro H. apply andb_true_iff in H as [H1 H2].
  rewrite Z.gtb_ltb in H1. apply Z.ltb_lt in H1.
  rewrite Z.geb_leb in H2. apply Z.leb_le in H2. lia.
Qed.

Lemma poll_effect i t (m m' : Machine) :
  Inv m -> poll i t m = Some m' -> poll_post i t m m'.
Proof.
  destruct m as [c h w];
    destruct c as [s sel amt svc slot am tot pz ita sm gd rd sds rs its ps].
  intros (Hm & Hs & Ho); unfold mode_ok, order_ok in Hm, Ho; cbn in Hm, Ho, Hs.
  destruct s; destruct Hm as [Hsm Hps]; subst sm.
  all: exec ltac:(cbv beta delta [poll gate_timeouts seven_seg timer_active]).
  all: try subst ps.
  all: repeat match goal with
              | H : (_ >? 0) && (_ >=? _) = true |- _ => apply deadline_check_true in H
              | H : (_ >? 0) && (_ >=? _) = false |- _ => apply deadline_check_false in H
              end.
  all: lazymatch goal with
       | |- ctl _ = _ -> _ =>
         let Hc := fresh "Hc" in
         intro Hc; unfold poll_post; rewrite Hc; clear Hc;
         unfold Inv, mode_ok, order_ok; cbn
       | |- dispensing_state ?y = Some _ -> _ =>
         let H := fresh "H" in
         intro H; apply dispensing_effect in H;
         [ norm_in H; destruct H as (HI & Hsv & Hpt);
           unfold poll_post; cbn; rewrite Hsv, Hpt
         | norm; unfold Inv, mode_ok, order_ok; cbn
         | norm ]
       | |- keypad _ ?y = Some _ -> _ =>
         let H := fresh "H" in
         intro H; apply keypad_effect in H;
         [ norm_in H; destruct H as [[Hk Hc]|[Hk (HI & Hsv & Hpt)]];
           [ unfold poll_post; rewrite Hc; clear Hc;
             unfold Inv, mode_ok, order_ok; cbn
           | unfold poll_post; cbn in Hsv, Hpt |- *;
             destruct (service_mode m') eqn:Esm' ]
         | norm; unfold Inv, mode_ok, order_ok; cbn ]
       end.
  all: try solve [intuition (first [congruence | discriminate | auto])].
Qed.

(** ** Reachable states: mode, mapping and stock *)

Lemma ctl_ticked i m : ctl (ticked i m) = ctl m.
Proof. unfold ticked. now autorewrite with frame. Qed.

Lemma loop_body_poll i m :
  loop_body i m = poll i (now_ms (usleep (elapsed i) m)) (ticked i m).
Proof. reflexivity. Qed.

Lemma Inv_boot c files : Inv (boot c files).
Proof.
  unfold boot; cbv zeta. autorewrite with frame. unfold Inv, mode_ok, order_ok; cbn.
  repeat split; auto. unfold stocks_ok, catalog.
  repeat (apply Forall_cons; [cbn; lia|]). apply Forall_nil.
Qed.

Lemma Inv_loop_body i (m m' : Machine) :
  Inv m -> loop_body i m = Some m' -> Inv m'.
Proof.
  intros HI H. rewrite loop_body_poll in H. apply poll_effect in H.
  - apply H.
  - now rewrite ctl_ticked.
Qed.

Lemma reachable_Inv m : reachable m -> Inv m.
Proof.
  induction 1 as [c files Hc|m i m' Hr IH He Hs];
    [apply Inv_boot|exact (Inv_loop_body i m m' IH Hs)].
Qed.

Lemma reachable_run ins : forall m m',
  reachable m -> Forall (fun i => 0 <= elapsed i) ins ->
  run ins m = Some m' -> reachable m'.
Proof.
  induction ins as [|i r IH]; intros m m' Hr Hall Hrun; cbn in Hrun.
  - now injection Hrun as <-.
  - inversion Hall as [|? ? Hi Hall']; subst.
    destruct (loop_body i m) as [m1|] eqn:E; [|discriminate].
    eapply IH; [|exact Hall'|exact Hrun].
    eapply reach_step; eauto.
Qed.

Lemma Ports_eq_dec (p q : Ports) : {p = q} + {p <> q}.
Proof. decide equality; apply Z.eq_dec. Qed.

(** C1 (amended). Over the reachable states, an iteration changes
    [service_mode] only when a key confirms the service gate before its
    deadline (to SERVICE, before the door-opening animation starts) or when
    the DOOR-CLOSING animation completes (to NORMAL); it changes the port
    mapping only when ENTER confirms the reserved code in the customer or
    service menu, or when a gate deadline expires; and an iteration in which
    the DOOR-OPENING animation completes changes neither. *)
Theorem mode_and_mapping_changes (m : Machine) (i : Input) (m' : Machine) :
  reachable m -> loop_body i m = Some m' ->
  (service_mode m' <> service_mode m ->
   (svc_gate_confirmed i m /\ service_mode m' = true)
   \/ (door_closing_completes i m /\ service_mode m' = false))
  /\ (ports m' <> ports m ->
      code_confirmed i m \/ svc_gate_expires i m \/ return_gate_expires i m)
  /\ (door_opening_completes i m ->
      service_mode m' = service_mode m /\ ports m' = ports m).
Proof.
  intros Hr H. apply reachable_Inv in Hr.
  rewrite loop_body_poll in H. apply poll_effect in H; [|now rewrite ctl_ticked].
  destruct H as (_ & Hsv & Hpt). rewrite ctl_ticked in Hsv, Hpt.
  unfold svc_gate_confirmed, door_closing_completes, code_confirmed,
    svc_gate_expires, return_gate_expires, door_opening_completes.
  split; [|split].
  - intro Hne. destruct (Hsv Hne) as [(H1 & H2 & H3 & H4)|(H1 & H2 & H3)].
    + left. repeat split; auto. intros [_ Hx]; auto.
    + right. auto.
  - intro Hne. destruct (Hpt Hne) as [H1|[H1|H1]]; auto.
  - intros [Hst Hdone]. split.
    + destruct (bool_dec (service_mode m') (service_mode m)) as [|Hne]; [assumption|].
      destruct (Hsv Hne) as [(H1 & _)|(H1 & _)]; congruence.
    + destruct (Ports_eq_dec (ports m') (ports m)) as [|Hne]; [assumption|].
      destruct (Hpt Hne) as [([H1|H1] & _)|[(H1 & _)|(H1 & _)]]; congruence.
Qed.

Lemma code_typed_reachable : reachable code_typed.
Proof.
  apply (reachable_run [press "1"; press "2"; press "3"; press "4"] (boot 0 [])).
  - apply reach_boot; lia.
  - repeat (apply Forall_cons; [cbn; lia|]). apply Forall_nil.
  - vm_compute. reflexivity.
Qed.

(** C1, as first stated, fails: ENTER on the reserved code swaps the port
    mapping while the machine is in the customer menu, with no door
    animation involved. *)
Lemma mode_changes_only_at_door_completion_counterexample :
  ~ (forall (m : Machine) (i : Input) (m' : Machine),
       reachable m -> loop_body i m = Some m' ->
       service_mode m' <> service_mode m \/ ports m' <> ports m ->
       door_opening_completes i m \/ door_closing_completes i m).
Proof.
  intro H.
  destruct (loop_body (press KEY_ENTER) code_typed) as [m'|] eqn:E;
    [|vm_compute in E; discriminate E].
  specialize (H code_typed (press KEY_ENTER) m' code_typed_reachable E).
  assert (Hp : ports m' <> ports code_typed).
  { vm_compute in E. injection E as <-. vm_compute. discriminate. }
  destruct (H (or_intror Hp)) as [[Hst _]|[Hst _]]; vm_compute in Hst; discriminate Hst.
Qed.

Lemma mode_and_mapping_changes_witness :
  let m' := run_or [press KEY_ENTER] code_typed in
  (service_mode m' <> service_mode code_typed ->
   (svc_gate_confirmed (press KEY_ENTER) code_typed /\ service_mode m' = true)
   \/ (door_closing_completes (press KEY_ENTER) code_typed /\ service_mode m' = false))
  /\ (ports m' <> ports code_typed ->
      code_confirmed (press KEY_ENTER) code_typed
      \/ svc_gate_expires (press KEY_ENTER) code_typed
      \/ return_gate_expires (press KEY_ENTER) code_typed)
  /\ (door_opening_completes (press KEY_ENTER) code_typed ->
      service_mode m' = service_mode code_typed /\ ports m' = ports code_typed).
Proof.
  intro m'.
  apply (mode_and_mapping_changes code_typed (press KEY_ENTER) m').
  - exact code_typed_reachable.
  - vm_compute. reflexivity.
Defined.

(** C10. In every reachable state every item of the catalog has a stock
    between 0 and 15. *)
Theorem stock_within_bounds (m : Machine) :
  reachable m -> Forall (fun it => 0 <= stock it <= 15) (items m).
Proof. intro Hr. apply reachable_Inv in Hr. apply Hr. Qed.

Lemma stock_within_bounds_witness :
  Forall (fun it => 0 <= stock it <= 15) (items code_typed).
Proof. apply (stock_within_bounds code_typed). exact code_typed_reachable. Defined.

(** ** The path of an iteration *)

Implicit Types m : Machine.

Lemma idle_deadline_track_set tr a m :
  idle_deadline (track_set tr a m) = idle_deadline m.
Proof. destruct tr; reflexivity. Qed.

Lemma idle_deadline_anim_tick tr m : idle_deadline (anim_tick tr m) = idle_deadline m.
Proof.
  unfold anim_tick; cbv zeta.
  destruct (negb (active (track_get tr m)) || oneshot_done (track_get tr m));
    [reflexivity|].
  destruct (now_ms m <? next_ms (track_get tr m)); [reflexivity|].
  now rewrite idle_deadline_track_set.
Qed.

Lemma idle_deadline_ticked i m : idle_deadline (ticked i m) = idle_deadline m.
Proof. unfold ticked. now rewrite !idle_deadline_anim_tick. Qed.

Lemma idle_deadline_timer_update_display t m :
  idle_deadline (timer_update_display t m) = idle_deadline m.
Proof.
  unfold timer_update_display; cbv zeta.
  destruct (timer_seconds_left t m <? 0); [reflexivity|].
  destruct (negb (timer_seconds_left t m =? last_shown m)); [|reflexivity].
  unfold seg_show_digit.
  destruct ((timer_seconds_left t m <? 0) || (timer_seconds_left t m >? 9));
    reflexivity.
Qed.

Lemma timer_seconds_left_ext t (m1 m2 : Machine) :
  idle_deadline m1 = idle_deadline m2 ->
  timer_seconds_left t m1 = timer_seconds_left t m2.
Proof. intro H. unfold timer_seconds_left. now rewrite H. Qed.

Lemma door_transitions_other m :
  st m <> ST_DOOR_OPENING -> st m <> ST_DOOR_CLOSING -> door_transitions m = m.
Proof.
  intros H1 H2. unfold door_transitions; cbv zeta.
  destruct (st m) eqn:E; try congruence; rewrite E; reflexivity.
Qed.

Lemma gate_timeouts_other t m :
  st m <> ST_SVC_GATE -> st m <> ST_RETURN_GATE -> gate_timeouts t m = Fallthrough m.
Proof.
  intros H1 H2. unfold gate_timeouts.
  destruct (st m) eqn:E; try congruence; reflexivity.
Qed.

Lemma timer_active_st m :
  timer_active m = true -> st m = ST_MENU \/ st m = ST_AMOUNT \/ st m = ST_PAY.
Proof. unfold timer_active. destruct (st m); auto; discriminate. Qed.

Lemma seven_seg_alive t m :
  service_mode m = false -> timer_active m = true ->
  timer_seconds_left t m <> 0 ->
  seven_seg t m = Fallthrough (timer_update_display t m).
Proof.
  intros Hs Ha Hl. unfold seven_seg. rewrite Hs, Ha. cbv zeta.
  rewrite (timer_seconds_left_ext t _ m (idle_deadline_timer_update_display t m)).
  apply Z.eqb_neq in Hl. now rewrite Hl.
Qed.

(** The reset the idle countdown forces when it runs out. *)
Lemma seven_seg_expired t m :
  service_mode m = false -> timer_active m = true ->
  timer_seconds_left t m = 0 ->
  exists r, seven_seg t m = Continue r /\ st r = ST_MENU /\ selbuf r = ""
            /\ amtbuf r = "" /\ chosen_slot r = -1 /\ items r = items m.
Proof.
  intros Hs Ha Hl. unfold seven_seg. rewrite Hs, Ha. cbv zeta.
  rewrite (timer_seconds_left_ext t _ m (idle_deadline_timer_update_display t m)).
  rewrite Hl. cbn [Z.eqb]. eexists; split; [reflexivity|].
  autorewrite with frame. cbn. autorewrite with frame. repeat split.
Qed.

(** With the idle countdown shown and not run out, the iteration goes to the
    keypad. *)
Lemma loop_body_alive i m :
  service_mode m = false -> timer_active m = true -> alive i m ->
  loop_body i m
  = keypad i (timer_update_display (now_ms (usleep (elapsed i) m)) (ticked i m)).
Proof.
  intros Hs Ha Hl. rewrite loop_body_poll. unfold poll; cbv zeta.
  assert (Hst : st (ticked i m) = st m) by now rewrite ctl_ticked.
  assert (Hsm : service_mode (ticked i m) = false) by now rewrite ctl_ticked.
  assert (Hta : timer_active (ticked i m) = true)
    by (unfold timer_active in *; now rewrite ctl_ticked).
  destruct (timer_active_st m Ha) as [E|[E|E]];
    (rewrite door_transitions_other by (rewrite Hst, E; discriminate));
    (rewrite gate_timeouts_other by (rewrite Hst, E; discriminate));
    (rewrite seven_seg_alive;
     [ | assumption | assumption
       | unfold alive in Hl;
         now rewrite (timer_seconds_left_ext _ _ m (idle_deadline_ticked i m)) ]);
    rewrite ctl_timer_update_display, Hst, E; reflexivity.
Qed.

Lemma keypad_key i m :
  key i <> KEY_NONE ->
  keypad i m = dispatch (key i) (wait_key_release (held i) (beep_keypress m)).
Proof.
  intro H. unfold keypad. apply Ascii.eqb_neq in H. now rewrite H.
Qed.

Lemma trace_beep_loop fuel e hp m : trace (beep_loop fuel e hp m) = trace m.
Proof.
  revert m; induction fuel as [|fuel IH]; intro m; cbn [beep_loop]; [reflexivity|].
  destruct (now_ms m <? e); [rewrite IH|]; reflexivity.
Qed.

Lemma trace_beep_square d hp hi lo m :
  trace (beep_square d hp hi lo m) = EvTone d hp hi lo :: trace m.
Proof. unfold beep_square; cbv zeta. now rewrite trace_beep_loop. Qed.

Lemma trace_beep_error m : trace (beep_error m) = EvTone 140 1400 180 0 :: trace m.
Proof. apply trace_beep_square. Qed.

Lemma trace_usleep us m : trace (usleep us m) = trace m.
Proof. reflexivity. Qed.

Lemma trace_lcd_print2 l1 l2 m :
  trace (lcd_print2 l1 l2 m) = EvLcd (gLcdPort m) (pad 16 l1) (pad 16 l2) :: trace m.
Proof. reflexivity. Qed.

Lemma strlen_zero s : (strlen s =? 0) = true <-> s = "".
Proof.
  unfold strlen. rewrite Z.eqb_eq. destruct s; cbn; split; intro H;
    try reflexivity; try discriminate; lia.
Qed.

(** C8. In the AMOUNT state, before the countdown runs out, ENTER on a
    non-empty amount that is 0, above 15, or above the stock of the chosen
    item is rejected: the machine stays in AMOUNT, the amount buffer is
    cleared, no stock changes, and the last driver calls are the error tone
    and then the error message. *)
Theorem amount_rejected (m : Machine) (i : Input) :
  st m = ST_AMOUNT -> service_mode m = false -> alive i m ->
  key i = KEY_ENTER -> amtbuf m <> "" ->
  atoi (amtbuf m) = 0 \/ 15 < atoi (amtbuf m)
  \/ stock (item_at (items m) (chosen_slot m)) < atoi (amtbuf m) ->
  exists m',
    loop_body i m = Some m'
    /\ st m' = ST_AMOUNT /\ amtbuf m' = "" /\ items m' = items m
    /\ exists port l1 l2 tl,
         trace m' = EvLcd port l1 l2 :: EvTone 140 1400 180 0 :: tl.
Proof.
  intros Hst Hsm Hal Hk Hbuf Hbad.
  rewrite loop_body_alive;
    [|assumption|unfold timer_active; now rewrite Hst|assumption].
  rewrite keypad_key by (rewrite Hk; discriminate).
  set (m1 := wait_key_release _ _).
  assert (Hc : ctl m1 = ctl m)
    by (unfold m1; autorewrite with frame; apply ctl_ticked).
  unfold dispatch. rewrite Hc, Hst, Hk, Hsm. cbn -[on_enter_normal].
  unfold on_enter_normal. rewrite Hc, Hst.
  destruct (strlen (amtbuf m) =? 0) eqn:E0;
    [apply strlen_zero in E0; contradiction|].
  cbv zeta. cbn [ctl amount set_amount]. rewrite !Hc.
  destruct ((atoi (amtbuf m) <? 1) || (atoi (amtbuf m) >? MAX_COUNT)) eqn:E1.
  - eexists; split; [reflexivity|].
    cbn. autorewrite with frame. cbn. rewrite Hc.
    repeat split; try assumption.
    rewrite trace_usleep, trace_lcd_print2, trace_beep_error.
    do 4 eexists; reflexivity.
  - apply range_check_false in E1. unfold MAX_COUNT in E1.
    assert (Hs : (atoi (amtbuf m) >? stock (item_at (items m) (chosen_slot m)))
                 = true) by (rewrite Z.gtb_ltb; apply Z.ltb_lt; lia).
    cbn [ctl items chosen_slot]. rewrite Hs.
    eexists; split; [reflexivity|].
    cbn. autorewrite with frame. cbn. rewrite Hc.
    repeat split; try assumption.
    rewrite trace_usleep, trace_lcd_print2, trace_beep_error.
    do 4 eexists; reflexivity.
Qed.

(** ** Timer-driven transitions *)

Lemma gate_timeouts_svc t m :
  st m = ST_SVC_GATE -> 0 < svc_gate_deadline m <= t ->
  exists r, gate_timeouts t m = Continue r
            /\ st r = ST_MENU /\ service_mode r = false
            /\ ports r = ports_normal /\ items r = items m.
Proof.
  intros Hst [H1 H2]. unfold gate_timeouts. rewrite Hst.
  assert (E : (svc_gate_deadline m >? 0) && (t >=? svc_gate_deadline m) = true).
  { apply andb_true_iff; split;
      [rewrite Z.gtb_ltb; apply Z.ltb_lt|rewrite Z.geb_leb; apply Z.leb_le]; lia. }
  rewrite E. cbv zeta. eexists; split; [reflexivity|].
  autorewrite with frame. cbn. autorewrite with frame. repeat split.
Qed.

Lemma gate_timeouts_return t m :
  st m = ST_RETURN_GATE -> 0 < return_gate_deadline m <= t ->
  exists r, gate_timeouts t m = Continue r
            /\ st r = ST_SVC_MENU /\ service_mode r = true
            /\ ports r = ports_admin /\ items r = items m.
Proof.
  intros Hst [H1 H2]. unfold gate_timeouts. rewrite Hst.
  assert (E : (return_gate_deadline m >? 0) && (t >=? return_gate_deadline m)
              = true).
  { apply andb_true_iff; split;
      [rewrite Z.gtb_ltb; apply Z.ltb_lt|rewrite Z.geb_leb; apply Z.leb_le]; lia. }
  rewrite E. cbv zeta. eexists; split; [reflexivity|].
  autorewrite with frame. cbn. autorewrite with frame. repeat split.
Qed.

(** An expired timer decides the iteration whatever the keypad holds: every
    input with the same elapsed time gives the same machine. *)
Lemma forced_transition i m :
  svc_gate_expires i m \/ return_gate_expires i m \/ idle_expires i m ->
  exists r,
    (forall j, elapsed j = elapsed i -> loop_body j m = Some r)
    /\ ((svc_gate_expires i m /\ st r = ST_MENU /\ service_mode r = false)
        \/ (return_gate_expires i m /\ st r = ST_SVC_MENU /\ service_mode r = true)
        \/ (idle_expires i m /\ st r = ST_MENU /\ service_mode r = false)).
Proof.
  assert (Hst : st (ticked i m) = st m) by now rewrite ctl_ticked.
  intros [Hx|[Hx|Hx]].
  - destruct Hx as [E Hd].
    destruct (gate_timeouts_svc (now_ms (usleep (elapsed i) m)) (ticked i m))
      as (r & Hg & H1 & H2 & _); [congruence|now rewrite ctl_ticked|].
    exists r; split.
    + intros j Hj. rewrite loop_body_poll. unfold poll, ticked; cbv zeta.
      rewrite Hj. fold (ticked i m).
      rewrite door_transitions_other by (rewrite Hst, E; discriminate).
      now rewrite Hg.
    + left. split; [exact (conj E Hd)|split; assumption].
  - destruct Hx as [E Hd].
    destruct (gate_timeouts_return (now_ms (usleep (elapsed i) m)) (ticked i m))
      as (r & Hg & H1 & H2 & _); [congruence|now rewrite ctl_ticked|].
    exists r; split.
    + intros j Hj. rewrite loop_body_poll. unfold poll, ticked; cbv zeta.
      rewrite Hj. fold (ticked i m).
      rewrite door_transitions_other by (rewrite Hst, E; discriminate).
      now rewrite Hg.
    + right; left. split; [exact (conj E Hd)|split; assumption].
  - destruct Hx as (Hsm & Ha & Hl).
    destruct (seven_seg_expired (now_ms (usleep (elapsed i) m)) (ticked i m))
      as (r & Hg & H1 & _).
    { now rewrite ctl_ticked. }
    { unfold timer_active in *; now rewrite ctl_ticked. }
    { now rewrite (timer_seconds_left_ext _ _ m (idle_deadline_ticked i m)). }
    assert (Hr : service_mode r = false).
    { revert Hg. unfold seven_seg.
      replace (service_mode (ticked i m)) with false by now rewrite ctl_ticked.
      destruct (timer_active (ticked i m)); [|discriminate]. cbv zeta.
      destruct (_ =? 0); [|discriminate].
      intros [= <-]. autorewrite with frame. cbn. autorewrite with frame.
      now rewrite ctl_ticked. }
    exists r; split.
    + intros j Hj. rewrite loop_body_poll. unfold poll, ticked; cbv zeta.
      rewrite Hj. fold (ticked i m).
      destruct (timer_active_st m Ha) as [E|[E|E]];
        (rewrite door_transitions_other by (rewrite Hst, E; discriminate));
        (rewrite gate_timeouts_other by (rewrite Hst, E; discriminate));
        now rewrite Hg.
    + right; right. split; [exact (conj Hsm (conj Ha Hl))|split; assumption].
Qed.

(** C3. When the SERVICE-GATE deadline has passed at the start of an
    iteration the machine goes to MENU in NORMAL mode, the mode it already
    had; when the RETURN-GATE deadline has passed it goes to SVC-MENU in
    SERVICE mode. *)
Theorem gate_timeout_asymmetry (m : Machine) (i : Input) :
  reachable m ->
  (svc_gate_expires i m ->
   exists m', loop_body i m = Some m'
              /\ st m' = ST_MENU /\ service_mode m' = false
              /\ service_mode m' = service_mode m)
  /\ (return_gate_expires i m ->
      exists m', loop_body i m = Some m'
                 /\ st m' = ST_SVC_MENU /\ service_mode m' = true).
Proof.
  intro Hr. apply reachable_Inv in Hr. destruct Hr as (Hm & _).
  split; intro Hx.
  - destruct (forced_transition i m (or_introl Hx)) as (r & Hl & Hc).
    exists r. split; [now apply Hl|].
    destruct Hx as [E _]. unfold mode_ok in Hm. rewrite E in Hm.
    destruct Hc as [(_ & H1 & H2)|[([E' _] & _)|((_ & Ha & _) & _)]].
    + repeat split; try assumption. destruct Hm; congruence.
    + congruence.
    + unfold timer_active in Ha. rewrite E in Ha. discriminate.
  - destruct (forced_transition i m (or_intror (or_introl Hx))) as (r & Hl & Hc).
    exists r. split; [now apply Hl|].
    destruct Hx as [E _].
    destruct Hc as [([E' _] & _)|[(_ & H1 & H2)|((_ & Ha & _) & _)]].
    + congruence.
    + split; assumption.
    + unfold timer_active in Ha. rewrite E in Ha. discriminate.
Qed.

(** C9. When a gate deadline or the idle countdown has run out at the
    start of an iteration, the iteration takes the forced transition and its
    result does not depend on the key the keypad holds. *)
Theorem expired_timer_preempts_keypress (m : Machine) (i i' : Input) :
  elapsed i' = elapsed i ->
  svc_gate_expires i m \/ return_gate_expires i m \/ idle_expires i m ->
  loop_body i' m = loop_body i m
  /\ exists m', loop_body i m = Some m'
                /\ (st m' = ST_MENU
                    \/ (st m = ST_RETURN_GATE /\ st m' = ST_SVC_MENU)).
Proof.
  intros He Hx. destruct (forced_transition i m Hx) as (r & Hl & Hc).
  split; [now rewrite (Hl i' He), (Hl i eq_refl)|].
  exists r; split; [now apply Hl|].
  destruct Hc as [(_ & H1 & _)|[([E _] & H1 & _)|(_ & H1 & _)]]; auto.
Qed.

(** ** Payment *)

Lemma isdigit_not_control k :
  isdigit k = true -> k <> KEY_NONE /\ k <> KEY_BACK /\ k <> KEY_ENTER.
Proof. intro H. repeat split; intro E; subst k; discriminate H. Qed.

(** A digit key in the PAY state, before the countdown runs out. *)
Lemma pay_digit i m :
  st m = ST_PAY -> service_mode m = false -> alive i m ->
  isdigit (key i) = true ->
  exists m',
    loop_body i m = Some m'
    /\ service_mode m' = false
    /\ pay_zero_count m'
       = (if Ascii.eqb (key i) "0" then pay_zero_count m + 1 else 0)
    /\ st m' = (if pay_zero_count m' >=? 2 then ST_DISPENSING else ST_PAY).
Proof.
  intros Hst Hsm Hal Hd.
  destruct (isdigit_not_control _ Hd) as (Hn & Hb & He).
  rewrite loop_body_alive;
    [|assumption|unfold timer_active; now rewrite Hst|assumption].
  rewrite keypad_key by assumption.
  set (m1 := wait_key_release _ _).
  assert (Hc : ctl m1 = ctl m)
    by (unfold m1; autorewrite with frame; apply ctl_ticked).
  unfold dispatch. rewrite Hc, Hst, Hd.
  apply Ascii.eqb_neq in Hb. rewrite Hb.
  eexists; split; [reflexivity|].
  unfold on_digit. rewrite Hc, Hsm, Hst. cbn [negb]. cbv zeta.
  destruct (Ascii.eqb (key i) "0"); cbn [ctl pay_zero_count set_pay_zero_count];
    rewrite ?Hc;
    match goal with
    | |- context [if ?c >=? 2 then _ else _] => destruct (c >=? 2) eqn:E2
    end;
    cbn; autorewrite with frame; cbn; rewrite ?Hc, ?E2; auto;
    discriminate E2.
Qed.

(** C7 (amended). From PAY with a clear counter and the countdown
    running, '0' twice in a row leads to DISPENSING; '0', another digit,
    then '0' leaves the machine in PAY with the counter at 1. *)
Theorem pay_double_zero (m : Machine) (i1 i2 i3 : Input) :
  st m = ST_PAY -> service_mode m = false -> pay_zero_count m = 0 ->
  key i1 = "0"%char -> alive i1 m ->
  (forall m1, loop_body i1 m = Some m1 -> alive i2 m1) ->
  (key i2 = "0"%char ->
   exists m2, run [i1; i2] m = Some m2 /\ st m2 = ST_DISPENSING)
  /\ (isdigit (key i2) = true -> key i2 <> "0"%char -> key i3 = "0"%char ->
      (forall m2, run [i1; i2] m = Some m2 -> alive i3 m2) ->
      exists m3, run [i1; i2; i3] m = Some m3
                 /\ st m3 = ST_PAY /\ pay_zero_count m3 = 1).
Proof.
  intros Hst Hsm Hz Hk1 Ha1 Ha2.
  destruct (pay_digit i1 m Hst Hsm Ha1) as (m1 & Hl1 & Hsm1 & Hz1 & Hst1);
    [now rewrite Hk1|].
  rewrite Hk1, Hz in Hz1. cbn in Hz1. rewrite Hz1 in Hst1. cbn in Hst1.
  specialize (Ha2 m1 Hl1).
  split.
  - intro Hk2.
    destruct (pay_digit i2 m1 Hst1 Hsm1 Ha2) as (m2 & Hl2 & _ & Hz2 & Hst2);
      [now rewrite Hk2|].
    rewrite Hk2, Hz1 in Hz2. cbn in Hz2. rewrite Hz2 in Hst2. cbn in Hst2.
    exists m2. cbn [run]. now rewrite Hl1, Hl2.
  - intros Hd2 Hn2 Hk3 Ha3.
    destruct (pay_digit i2 m1 Hst1 Hsm1 Ha2 Hd2)
      as (m2 & Hl2 & Hsm2 & Hz2 & Hst2).
    apply Ascii.eqb_neq in Hn2. rewrite Hn2 in Hz2.
    rewrite Hz2 in Hst2. cbn in Hst2.
    assert (Hr2 : run [i1; i2] m = Some m2) by (cbn [run]; now rewrite Hl1, Hl2).
    specialize (Ha3 m2 Hr2).
    destruct (pay_digit i3 m2 Hst2 Hsm2 Ha3) as (m3 & Hl3 & _ & Hz3 & Hst3);
      [now rewrite Hk3|].
    rewrite Hk3, Hz2 in Hz3. cbn in Hz3. rewrite Hz3 in Hst3. cbn in Hst3.
    exists m3. cbn [run]. now rewrite Hl1, Hl2, Hl3.
Qed.

Lemma paying_facts :
  st paying = ST_PAY /\ service_mode paying = false /\ pay_zero_count paying = 0.
Proof. vm_compute. auto. Qed.

(** C7, as first stated for any key, fails for ENTER: in PAY it is
    answered by the error tone only and the counter keeps its value, so '0',
    ENTER, '0' leads to DISPENSING. *)
Lemma pay_any_key_resets_counterexample :
  ~ (forall (m : Machine) (i1 i2 i3 : Input) (m3 : Machine),
       st m = ST_PAY -> service_mode m = false -> pay_zero_count m = 0 ->
       key i1 = "0"%char -> key i2 <> "0"%char -> key i2 <> KEY_NONE ->
       key i3 = "0"%char ->
       run [i1; i2; i3] m = Some m3 -> st m3 <> ST_DISPENSING).
Proof.
  intro H.
  destruct (run [press "0"; press KEY_ENTER; press "0"] paying) as [m3|] eqn:E;
    [|vm_compute in E; discriminate E].
  destruct paying_facts as (P1 & P2 & P3).
  assert (Hd : st m3 = ST_DISPENSING).
  { pose proof E as E'. vm_compute in E'. injection E' as <-. reflexivity. }
  exact (H paying (press "0") (press KEY_ENTER) (press "0") m3 P1 P2 P3
           eq_refl ltac:(cbn; discriminate) ltac:(cbn; discriminate) eq_refl
           E Hd).
Qed.

(** ** The claims at concrete states *)

Ltac closed_fact :=
  vm_compute; repeat split;
  first [ reflexivity | discriminate | intro; discriminate ].

Lemma at_svc_gate_reachable : reachable at_svc_gate.
Proof.
  apply (reachable_run [press KEY_ENTER] code_typed).
  - exact code_typed_reachable.
  - repeat (apply Forall_cons; [cbn; lia|]). apply Forall_nil.
  - vm_compute. reflexivity.
Qed.

Lemma in_service_reachable : reachable in_service.
Proof.
  apply (reachable_run
           [press "7"; idle 1000000; idle 1000000; idle 1000000; idle 1000000;
            idle 1000000] at_svc_gate).
  - exact at_svc_gate_reachable.
  - repeat (apply Forall_cons; [cbn; lia|]). apply Forall_nil.
  - vm_compute. reflexivity.
Qed.

Lemma at_return_gate_reachable : reachable at_return_gate.
Proof.
  apply (reachable_run
           [press "1"; press "2"; press "3"; press "4"; press KEY_ENTER]
           in_service).
  - exact in_service_reachable.
  - repeat (apply Forall_cons; [cbn; lia|]). apply Forall_nil.
  - vm_compute. reflexivity.
Qed.

Lemma gate_timeout_asymmetry_witness :
  (exists m', loop_body (idle 9000000) at_svc_gate = Some m'
              /\ st m' = ST_MENU /\ service_mode m' = false
              /\ service_mode m' = service_mode at_svc_gate)
  /\ (exists m', loop_body (idle 9000000) at_return_gate = Some m'
                 /\ st m' = ST_SVC_MENU /\ service_mode m' = true).
Proof.
  split.
  - apply (proj1 (gate_timeout_asymmetry at_svc_gate (idle 9000000)
                    at_svc_gate_reachable)).
    closed_fact.
  - apply (proj2 (gate_timeout_asymmetry at_return_gate (idle 9000000)
                    at_return_gate_reachable)).
    closed_fact.
Defined.

Lemma expired_timer_preempts_keypress_witness :
  loop_body (mkInput 9000000 "5" 3) at_svc_gate
  = loop_body (idle 9000000) at_svc_gate
  /\ exists m', loop_body (idle 9000000) at_svc_gate = Some m'
                /\ (st m' = ST_MENU
                    \/ (st at_svc_gate = ST_RETURN_GATE /\ st m' = ST_SVC_MENU)).
Proof.
  apply (expired_timer_preempts_keypress at_svc_gate (idle 9000000)
           (mkInput 9000000 "5" 3)).
  - reflexivity.
  - left. closed_fact.
Defined.

Lemma amount_rejected_witness :
  exists m',
    loop_body (press KEY_ENTER) entering_amount = Some m'
    /\ st m' = ST_AMOUNT /\ amtbuf m' = "" /\ items m' = items entering_amount
    /\ exists port l1 l2 tl,
         trace m' = EvLcd port l1 l2 :: EvTone 140 1400 180 0 :: tl.
Proof.
  apply (amount_rejected entering_amount (press KEY_ENTER)).
  - closed_fact.
  - closed_fact.
  - closed_fact.
  - closed_fact.
  - closed_fact.
  - right; right. closed_fact.
Defined.

Lemma pay_double_zero_witness :
  (exists m2, run [press "0"; press "0"] paying = Some m2
              /\ st m2 = ST_DISPENSING)
  /\ (exists m3, run [press "0"; press "5"; press "0"] paying = Some m3
                 /\ st m3 = ST_PAY /\ pay_zero_count m3 = 1).
Proof.
  destruct paying_facts as (P1 & P2 & P3).
  assert (A1 : alive (press "0") paying) by closed_fact.
  assert (A2 : forall i, elapsed i = 0 ->
                 forall m1, loop_body (press "0") paying = Some m1 -> alive i m1).
  { intros i Hi m1 H. unfold alive. rewrite Hi.
    vm_compute in H. injection H as <-. closed_fact. }
  split.
  - apply (proj1 (pay_double_zero paying (press "0") (press "0") (press "0")
                    P1 P2 P3 eq_refl A1 (A2 (press "0") eq_refl))).
    reflexivity.
  - apply (proj2 (pay_double_zero paying (press "0") (press "5") (press "0")
                    P1 P2 P3 eq_refl A1 (A2 (press "5") eq_refl))).
    + reflexivity.
    + discriminate.
    + reflexivity.
    + intros m2 H. vm_compute in H. injection H as <-. closed_fact.
Defined.

(** ** The dispense synchroniser *)

Lemma phase_after_succ_r p n :
  phase_after p (S n) = phase_after (Z.land (p + 1) 3) n.
Proof. unfold phase_after. now rewrite Nat.iter_succ_r. Qed.

Lemma phase_run_app p a b :
  phase_run p (a + b) = (phase_run p a ++ phase_run (phase_after p a) b)%list.
Proof.
  revert p; induction a as [|a IH]; intro p; [reflexivity|].
  cbn [Nat.add phase_run app]. now rewrite IH, phase_after_succ_r.
Qed.

Lemma phase_after_add p a b :
  phase_after p (a + b) = phase_after (phase_after p a) b.
Proof.
  unfold phase_after. rewrite Nat.add_comm. now rewrite Nat.iter_add.
Qed.

Lemma phase_run_length p n : List.length (phase_run p n) = n.
Proof. revert p; induction n as [|n IH]; intro p; cbn; [|rewrite IH]; reflexivity. Qed.

Lemma land3_mod4 q : Z.land (q + 1) 3 = (q + 1) mod 4.
Proof. change 3 with (Z.ones 2). now rewrite Z.land_ones by lia. Qed.

Lemma phase_run_head p n : (0 < n)%nat -> nth 0 (phase_run p n) 0 = p.
Proof. destruct n; [lia|reflexivity]. Qed.

Lemma phase_run_rotates p n k :
  (S k < n)%nat ->
  nth (S k) (phase_run p n) 0 = (nth k (phase_run p n) 0 + 1) mod 4.
Proof.
  revert p k; induction n as [|n IH]; intros p k Hk; [lia|].
  destruct k as [|k].
  - cbn [phase_run nth]. rewrite phase_run_head by lia. apply land3_mod4.
  - cbn [phase_run nth]. apply IH. lia.
Qed.

Lemma phase_run_last p n :
  (0 < n)%nat ->
  phase_after p n = (nth (n - 1) (phase_run p n) 0 + 1) mod 4.
Proof.
  revert p; induction n as [|n IH]; intros p Hn; [lia|].
  destruct n as [|n].
  - cbn. apply land3_mod4.
  - rewrite phase_after_succ_r, IH by lia.
    cbn [phase_run Nat.sub nth]. now rewrite Nat.sub_0_r.
Qed.

Lemma motor_advanced_refl m m' :
  motor_phases (trace m') = motor_phases (trace m) ->
  disp_phase m' = disp_phase m -> motor_advanced 0 m m'.
Proof.
  intros Ht Hp. split; cbn; [now rewrite Ht, app_nil_r|exact Hp].
Qed.

Lemma motor_advanced_usleep n m m' d :
  motor_advanced n m m' -> motor_advanced n m (usleep d m').
Proof. intros [H P]. split; [exact H|exact P]. Qed.

Lemma motor_advanced_trans a b m m1 m2 :
  motor_advanced a m m1 -> motor_advanced b m1 m2 -> motor_advanced (a + b) m m2.
Proof.
  intros [H1 P1] [H2 P2]. split.
  - now rewrite H2, H1, P1, phase_run_app, app_assoc.
  - now rewrite P2, P1, phase_after_add.
Qed.

Lemma motor_advanced_iter k f :
  (forall m, motor_advanced k m (f m)) ->
  forall n m, motor_advanced (n * k) m (Nat.iter n f m).
Proof.
  intros Hf n; induction n as [|n IH]; intro m.
  - apply motor_advanced_refl; reflexivity.
  - cbn [Nat.iter]. replace (S n * k)%nat with (n * k + k)%nat by lia.
    eapply motor_advanced_trans; [apply IH|apply Hf].
Qed.

Lemma disp_phase_track_set tr a m : disp_phase (track_set tr a m) = disp_phase m.
Proof. destruct tr; reflexivity. Qed.

Lemma motor_advanced_anim_tick tr m : motor_advanced 0 m (anim_tick tr m).
Proof.
  unfold anim_tick; cbv zeta.
  destruct (negb (active (track_get tr m)) || oneshot_done (track_get tr m));
    [apply motor_advanced_refl; reflexivity|].
  destruct (now_ms m <? next_ms (track_get tr m));
    [apply motor_advanced_refl; reflexivity|].
  split.
  - rewrite trace_track_set, trace_show_image. cbn. now rewrite app_nil_r.
  - now rewrite disp_phase_track_set.
Qed.

Lemma motor_advanced_dispense_phase_step m :
  motor_advanced 1 m (dispense_phase_step m).
Proof.
  unfold dispense_phase_step; cbv zeta.
  set (m1 := set_disp_phase _ (motor_write_phase (disp_phase m) m)).
  assert (H1 : motor_advanced 1 m m1) by (split; reflexivity).
  apply (motor_advanced_trans 1 0 m m1); [exact H1|].
  destruct (motor_advanced_anim_tick DispTrack m1) as [Ht Hp].
  split; [exact Ht|exact Hp].
Qed.

Lemma motor_advanced_dispense_step m : motor_advanced 4 m (dispense_step m).
Proof.
  unfold dispense_step.
  apply (motor_advanced_trans 0 (4 * 1) m (anim_tick DispTrack m));
    [apply motor_advanced_anim_tick|].
  apply motor_advanced_iter, motor_advanced_dispense_phase_step.
Qed.

Lemma motor_advanced_cycle m :
  motor_advanced (TOTAL_STEPS_PER_ITEM * 4) m (run_one_dispense_cycle_with_anim m).
Proof.
  unfold run_one_dispense_cycle_with_anim; cbv zeta.
  replace (TOTAL_STEPS_PER_ITEM * 4)%nat
    with (TOTAL_STEPS_PER_ITEM * 4 + 0)%nat by lia.
  apply (motor_advanced_trans _ _ m (Nat.iter TOTAL_STEPS_PER_ITEM dispense_step m)).
  - apply (motor_advanced_iter 4 dispense_step motor_advanced_dispense_step).
  - generalize (Nat.iter TOTAL_STEPS_PER_ITEM dispense_step m); intro x.
    apply motor_advanced_refl; reflexivity.
Qed.

Lemma motor_advanced_dispense_units n m :
  motor_advanced (n * (TOTAL_STEPS_PER_ITEM * 4)) m (dispense_units n m).
Proof.
  revert m; induction n as [|n IH]; intro m.
  - apply motor_advanced_refl; reflexivity.
  - cbn [dispense_units]; cbv zeta.
    replace (S n * (TOTAL_STEPS_PER_ITEM * 4))%nat
      with (TOTAL_STEPS_PER_ITEM * 4 + n * (TOTAL_STEPS_PER_ITEM * 4))%nat by lia.
    destruct n.
    + apply (motor_advanced_trans _ _ m (run_one_dispense_cycle_with_anim m));
        [apply motor_advanced_cycle|apply IH].
    + apply (motor_advanced_trans _ _ m
               (usleep 150000 (run_one_dispense_cycle_with_anim m)));
        [|apply IH].
      apply motor_advanced_usleep, motor_advanced_cycle.
Qed.

(** *** The dispensing animation completes inside the first unit *)

Lemma DISP_PHASE_DELAY_US_value : DISP_PHASE_DELAY_US = 12500.
Proof. reflexivity. Qed.

Lemma disp_progress_ext k m m' :
  gDispAnim m' = gDispAnim m -> clock m' = clock m ->
  disp_progress k m -> disp_progress k m'.
Proof. unfold disp_progress; cbv zeta. intros -> ->. auto. Qed.

Lemma disp_progress_weaken k k' m :
  k <= k' -> disp_progress k m -> disp_progress k' m.
Proof.
  unfold disp_progress; cbv zeta. intros Hk [H|(H1 & H2 & H3 & H4 & H5)];
    [now left|right; repeat split; try assumption; try lia].
Qed.

Lemma disp_progress_usleep k d m :
  0 <= d -> disp_progress k m -> disp_progress k (usleep d m).
Proof.
  unfold disp_progress; cbv zeta. intros Hd [H|(H1 & H2 & H3 & H4 & H5)];
    [now left|right].
  change (gDispAnim (usleep d m)) with (gDispAnim m).
  change (clock (usleep d m)) with (clock m + d).
  repeat split; try assumption; try lia.
Qed.

(** A tick followed by a sleep of at most one phase delay uses up that much
    of the budget. *)
Lemma disp_progress_tick_sleep k d m :
  0 <= d <= DISP_PHASE_DELAY_US ->
  disp_progress k m ->
  disp_progress (k - d) (usleep d (anim_tick DispTrack m)).
Proof.
  rewrite DISP_PHASE_DELAY_US_value. intros Hd Hp.
  destruct (oneshot_done (gDispAnim m)) eqn:Edone.
  { rewrite anim_tick_idle by (right; exact Edone). left. exact Edone. }
  destruct Hp as [Hdone|(Ha & Hdir & Hf & Hidx & Hb)]; [congruence|].
  rewrite DISP_PHASE_DELAY_US_value in Hb.
  unfold DISP_FRAME_MS, DOOR_FRAME_MS in *.
  pose proof (Z.div_mod (clock m) 1000 ltac:(lia)) as Hdm.
  pose proof (Z.mod_pos_bound (clock m) 1000 ltac:(lia)) as Hmod.
  destruct (Z.lt_ge_cases (now_ms m) (next_ms (gDispAnim m))) as [Hlt|Hge].
  - rewrite (anim_tick_not_due DispTrack m Hlt).
    right. change (gDispAnim (usleep d m)) with (gDispAnim m).
    change (clock (usleep d m)) with (clock m + d).
    unfold now_ms in Hlt. rewrite DISP_PHASE_DELAY_US_value.
    unfold DISP_FRAME_MS, DOOR_FRAME_MS.
    repeat split; try assumption; try lia.
  - rewrite (anim_tick_due DispTrack m Ha Edone Hge).
    unfold disp_progress; cbv zeta.
    change (gDispAnim (usleep d ?x)) with (gDispAnim x).
    change (gDispAnim (track_set DispTrack ?a ?x)) with a.
    change (clock (usleep d (track_set DispTrack ?a (show_image ?p m))))
      with (clock m + 25000 + d).
    cbn [track_get].
    destruct (is_terminal (gDispAnim m)) eqn:Et.
    + left. now destruct (anim_advance_last (gDispAnim m) (now_ms m) Et) as (_ & ? & _).
    + right.
      destruct (anim_advance_step (gDispAnim m) (now_ms m) Et)
        as (Hi & Ho & Hact & _).
      destruct (anim_advance_static (gDispAnim m) (now_ms m))
        as (Hdr & Hn & Hfm & _ & Hnx).
      rewrite Hi, Hact, Hdr, Hn, Hfm, Hnx, Hdir, Hf.
      unfold is_terminal in Et. rewrite Hdir in Et. cbn in Et.
      apply Z.eqb_neq in Et.
      rewrite DISP_PHASE_DELAY_US_value.
      unfold DISP_FRAME_MS, DOOR_FRAME_MS, now_ms.
      cbn [Z.gtb Z.compare].
      repeat split; try assumption; try lia.
Qed.

Lemma disp_progress_tick k m :
  disp_progress k m -> disp_progress k (anim_tick DispTrack m).
Proof.
  intro Hp.
  apply (disp_progress_ext k (usleep 0 (anim_tick DispTrack m)));
    [reflexivity|unfold usleep; cbn; lia|].
  replace k with (k - 0) by lia.
  apply disp_progress_tick_sleep; [rewrite DISP_PHASE_DELAY_US_value; lia|exact Hp].
Qed.

Lemma disp_progress_iter c f :
  (forall k m, disp_progress k m -> disp_progress (k - c) (f m)) ->
  forall n k m,
    disp_progress k m -> disp_progress (k - Z.of_nat n * c) (Nat.iter n f m).
Proof.
  intros Hf n; induction n as [|n IH]; intros k m Hp.
  - cbn [Nat.iter]. replace (k - Z.of_nat 0 * c) with k by lia. exact Hp.
  - cbn [Nat.iter].
    replace (k - Z.of_nat (S n) * c) with (k - Z.of_nat n * c - c) by lia.
    apply Hf, IH, Hp.
Qed.

Lemma disp_progress_phase_step k m :
  disp_progress k m ->
  disp_progress (k - DISP_PHASE_DELAY_US) (dispense_phase_step m).
Proof.
  intro Hp. unfold dispense_phase_step; cbv zeta.
  apply disp_progress_tick_sleep; [rewrite DISP_PHASE_DELAY_US_value; lia|].
  revert Hp. apply disp_progress_ext; reflexivity.
Qed.

Lemma disp_progress_step k m :
  disp_progress k m ->
  disp_progress (k - 4 * DISP_PHASE_DELAY_US) (dispense_step m).
Proof.
  intro Hp. unfold dispense_step.
  apply (disp_progress_iter _ _ disp_progress_phase_step 4).
  apply disp_progress_tick, Hp.
Qed.

Lemma disp_progress_cycle k m :
  disp_progress k m ->
  disp_progress (k - DISPENSE_CYCLE_US) (run_one_dispense_cycle_with_anim m).
Proof.
  intro Hp. unfold run_one_dispense_cycle_with_anim; cbv zeta.
  pose proof (disp_progress_iter _ _ disp_progress_step TOTAL_STEPS_PER_ITEM k m Hp)
    as H.
  revert H. generalize (Nat.iter TOTAL_STEPS_PER_ITEM dispense_step m); intros x H.
  apply (disp_progress_ext _ x); [reflexivity|reflexivity|].
  revert H. apply disp_progress_weaken.
  rewrite DISP_PHASE_DELAY_US_value. unfold DISPENSE_CYCLE_US, TOTAL_STEPS_PER_ITEM.
  lia.
Qed.

Lemma disp_progress_units n k m :
  disp_progress k m ->
  disp_progress (k - Z.of_nat n * DISPENSE_CYCLE_US) (dispense_units n m).
Proof.
  revert k m; induction n as [|n IH]; intros k m Hp.
  - cbn [dispense_units]. replace (k - Z.of_nat 0 * DISPENSE_CYCLE_US) with k by lia.
    exact Hp.
  - cbn [dispense_units]; cbv zeta.
    replace (k - Z.of_nat (S n) * DISPENSE_CYCLE_US)
      with (k - DISPENSE_CYCLE_US - Z.of_nat n * DISPENSE_CYCLE_US) by lia.
    apply IH. destruct n.
    + apply disp_progress_cycle, Hp.
    + apply disp_progress_usleep; [lia|]. apply disp_progress_cycle, Hp.
Qed.

Lemma disp_progress_start m :
  disp_progress (4 * (DISP_FRAME_MS * 1000))
    (anim_start DispTrack disp_frames DISP_N 1 DISP_FRAME_MS m).
Proof.
  right. unfold anim_start; cbv zeta.
  change (gDispAnim (track_set DispTrack ?a m)) with a.
  change (clock (track_set DispTrack ?a m)) with (clock m).
  cbn [active direction frame_ms idx nframes next_ms Z.geb Z.gtb Z.compare].
  unfold DISP_N, DISP_FRAME_MS, DOOR_FRAME_MS, now_ms.
  change DISP_PHASE_DELAY_US with 12500.
  pose proof (Z.div_mod (clock m) 1000 ltac:(lia)).
  pose proof (Z.mod_pos_bound (clock m) 1000 ltac:(lia)).
  repeat split; try reflexivity; try lia.
Qed.

Lemma disp_progress_done k m :
  k < DISP_FRAME_MS * 1000 - DISP_PHASE_DELAY_US ->
  disp_progress k m -> oneshot_done (gDispAnim m) = true.
Proof.
  rewrite DISP_PHASE_DELAY_US_value. unfold DISP_FRAME_MS, DOOR_FRAME_MS.
  intros Hk [H|(_ & _ & _ & Hi & Hb)]; [exact H|].
  rewrite DISP_PHASE_DELAY_US_value in Hb. unfold DISP_FRAME_MS, DOOR_FRAME_MS in Hb.
  exfalso. nia.
Qed.

(** After at least one unit the animation is complete: the wait loop that
    follows the units has nothing left to do. *)
Lemma dispense_units_done n m :
  (1 <= n)%nat ->
  oneshot_done
    (gDispAnim
       (dispense_units n (anim_start DispTrack disp_frames DISP_N 1 DISP_FRAME_MS m)))
  = true.
Proof.
  intro Hn.
  apply (disp_progress_done
           (4 * (DISP_FRAME_MS * 1000) - Z.of_nat n * DISPENSE_CYCLE_US)).
  - rewrite DISP_PHASE_DELAY_US_value.
    unfold DISP_FRAME_MS, DOOR_FRAME_MS, DISPENSE_CYCLE_US. lia.
  - apply disp_progress_units, disp_progress_start.
Qed.

Lemma anim_wait_done_done fuel m :
  oneshot_done (gDispAnim m) = true -> anim_wait_done fuel m = Some m.
Proof. intro H. destruct fuel; cbn; now rewrite H. Qed.

(** What a burst of at least one unit does, for both call sites: it
    returns, with the animation already complete when the units end and the
    motor stepped in rotation. *)
Lemma dispense_burst_runs (n : Z) (m : Machine) :
  1 <= n ->
  let m1 := anim_start DispTrack disp_frames DISP_N 1 DISP_FRAME_MS m in
  dispense_burst n m1 = Some (dispense_units (Z.to_nat n) m1)
  /\ oneshot_done (gDispAnim (dispense_units (Z.to_nat n) m1)) = true
  /\ motor_advanced (Z.to_nat n * (TOTAL_STEPS_PER_ITEM * 4)) m
       (dispense_units (Z.to_nat n) m1).
Proof.
  intros Hn m1.
  assert (Hdone : oneshot_done (gDispAnim (dispense_units (Z.to_nat n) m1)) = true)
    by (apply dispense_units_done; lia).
  split; [unfold dispense_burst; now apply anim_wait_done_done|].
  split; [exact Hdone|].
  destruct (motor_advanced_dispense_units (Z.to_nat n) m1) as [Ht Hp].
  split; [exact Ht|exact Hp].
Qed.

(** C6. A burst of [n >= 1] units, started by [anim_start] on the
    dispensing track, returns; the motor phase driver is called exactly
    [n * (TOTAL_STEPS_PER_ITEM * 4)] times, the first call with the phase the
    previous burst left, each next call with the phase one higher modulo 4, and
    the phase left behind continues the rotation; the dispensing animation is
    complete when the unit loop ends, hence when the burst returns. *)
Theorem dispense_burst_synchronised (n : Z) (m : Machine) :
  1 <= n ->
  let m1 := anim_start DispTrack disp_frames DISP_N 1 DISP_FRAME_MS m in
  exists m2 calls,
    dispense_burst n m1 = Some m2
    /\ motor_phases (trace m2) = (motor_phases (trace m) ++ calls)%list
    /\ List.length calls = (Z.to_nat n * (TOTAL_STEPS_PER_ITEM * 4))%nat
    /\ nth 0 calls 0 = disp_phase m
    /\ (forall k, (S k < List.length calls)%nat ->
                  nth (S k) calls 0 = (nth k calls 0 + 1) mod 4)
    /\ disp_phase m2 = (nth (List.length calls - 1) calls 0 + 1) mod 4
    /\ oneshot_done (gDispAnim (dispense_units (Z.to_nat n) m1)) = true
    /\ oneshot_done (gDispAnim m2) = true.
Proof.
  intros Hn m1.
  assert (Hpos : (0 < Z.to_nat n * (TOTAL_STEPS_PER_ITEM * 4))%nat)
    by (unfold TOTAL_STEPS_PER_ITEM; lia).
  destruct (dispense_burst_runs n m Hn) as (Hb & Hdone & Ht & Hp).
  exists (dispense_units (Z.to_nat n) m1),
         (phase_run (disp_phase m) (Z.to_nat n * (TOTAL_STEPS_PER_ITEM * 4))).
  split; [exact Hb|].
  split; [exact Ht|]. rewrite phase_run_length.
  split; [reflexivity|].
  split; [now apply phase_run_head|].
  split; [intros k Hk; now apply phase_run_rotates|].
  split; [fold m1 in Hp; rewrite Hp; now apply phase_run_last|].
  split; exact Hdone.
Qed.

Lemma dispense_burst_synchronised_witness :
  let m1 := anim_start DispTrack disp_frames DISP_N 1 DISP_FRAME_MS paying in
  exists m2 calls,
    dispense_burst 2 m1 = Some m2
    /\ motor_phases (trace m2) = (motor_phases (trace paying) ++ calls)%list
    /\ List.length calls = (Z.to_nat 2 * (TOTAL_STEPS_PER_ITEM * 4))%nat
    /\ nth 0 calls 0 = disp_phase paying
    /\ (forall k, (S k < List.length calls)%nat ->
                  nth (S k) calls 0 = (nth k calls 0 + 1) mod 4)
    /\ disp_phase m2 = (nth (List.length calls - 1) calls 0 + 1) mod 4
    /\ oneshot_done (gDispAnim (dispense_units (Z.to_nat 2) m1)) = true
    /\ oneshot_done (gDispAnim m2) = true.
Proof. apply (dispense_burst_synchronised 2 paying). lia. Defined.
(** ** Service functions *)

Implicit Types y : Machine.

Lemma seven_seg_service t m :
  service_mode m = true -> seven_seg t m = Fallthrough (service_blink_tick t m).
Proof. intro H. unfold seven_seg. now rewrite H. Qed.

(** In a service state the iteration goes to the keypad. *)
Lemma loop_body_service i m :
  service_mode m = true -> service_input_state (st m) = true ->
  loop_body i m
  = keypad i (service_blink_tick (now_ms (usleep (elapsed i) m)) (ticked i m)).
Proof.
  intros Hs Hst. rewrite loop_body_poll. unfold poll; cbv zeta.
  assert (E : st (ticked i m) = st m) by now rewrite ctl_ticked.
  assert (Hsm : service_mode (ticked i m) = true) by now rewrite ctl_ticked.
  rewrite door_transitions_other
    by (rewrite E; intro X; rewrite X in Hst; discriminate).
  rewrite gate_timeouts_other
    by (rewrite E; intro X; rewrite X in Hst; discriminate).
  rewrite seven_seg_service by assumption.
  rewrite ctl_service_blink_tick, E.
  destruct (st m); try discriminate Hst; reflexivity.
Qed.

(** A key pressed in a service state is dispatched on a machine with the
    control state of the start of the iteration. *)
Lemma service_key i m :
  service_mode m = true -> service_input_state (st m) = true ->
  key i <> KEY_NONE ->
  exists y, ctl y = ctl m /\ loop_body i m = dispatch (key i) y.
Proof.
  intros Hs Hst Hk. rewrite loop_body_service, keypad_key by assumption.
  eexists; split; [|reflexivity].
  autorewrite with frame. apply ctl_ticked.
Qed.

Lemma dispatch_digit k y :
  isdigit k = true -> st y <> ST_SVC_GATE -> st y <> ST_RETURN_GATE ->
  dispatch k y = Some (on_digit k y).
Proof.
  intros Hd H1 H2. destruct (isdigit_not_control _ Hd) as (_ & Hb & _).
  apply Ascii.eqb_neq in Hb. unfold dispatch. rewrite Hb, Hd.
  destruct (st y); try reflexivity; congruence.
Qed.

Lemma dispatch_enter_service y :
  service_mode y = true -> st y <> ST_SVC_GATE -> st y <> ST_RETURN_GATE ->
  dispatch KEY_ENTER y = on_enter_service y.
Proof.
  intros Hs H1 H2. unfold dispatch. rewrite Hs. cbn [negb].
  change (KEY_ENTER =? KEY_BACK)%char with false.
  change (isdigit KEY_ENTER) with false.
  change (KEY_ENTER =? KEY_ENTER)%char with true.
  destruct (st y); try reflexivity; congruence.
Qed.

(** A digit typed in the service menu is appended to the selection, up to
    four characters. *)
Lemma service_menu_digit k y :
  service_mode y = true -> st y = ST_SVC_MENU -> isdigit k = true ->
  strlen (selbuf y) < 4 ->
  exists r, dispatch k y = Some r
            /\ ctl r = ctl (set_selbuf (push_char (selbuf y) k) y).
Proof.
  intros Hs Hst Hd Hl.
  rewrite dispatch_digit by (try assumption; rewrite Hst; discriminate).
  eexists; split; [reflexivity|].
  unfold on_digit. rewrite Hs, Hst. cbn [negb]. cbv zeta.
  apply Z.ltb_lt in Hl. rewrite Hl. now autorewrite with frame.
Qed.

(** A digit typed in a service function is appended to its buffer, up to
    four characters. *)
Lemma service_function_digit k y :
  service_mode y = true -> service_input_state (st y) = true ->
  st y <> ST_SVC_MENU -> isdigit k = true -> strlen (svcbuf y) < 4 ->
  exists r, dispatch k y = Some r
            /\ ctl r = ctl (set_svcbuf (push_char (svcbuf y) k) y).
Proof.
  intros Hs Hin Hst Hd Hl.
  rewrite dispatch_digit
    by (try assumption; intro X; rewrite X in Hin; discriminate).
  eexists; split; [reflexivity|].
  unfold on_digit. rewrite Hs. cbn [negb].
  apply Z.ltb_lt in Hl.
  destruct (st y) eqn:E; try discriminate Hin; try congruence;
    cbv zeta; rewrite Hl; unfold service_digit_screen;
    cbn [ctl st set_svcbuf]; rewrite E; autorewrite with frame;
    cbn; now rewrite E.
Qed.

(** ENTER in the service menu on a selection 1-4 opens that function with an
    empty buffer. *)
Lemma service_menu_select sel s y :
  In (sel, s) [("1", ST_SVC_DISPENSE_IDX); ("2", ST_SVC_RESTOCK_IDX);
               ("3", ST_SVC_SOUND_SEL); ("4", ST_SVC_MOTOR_CYC)] ->
  service_mode y = true -> st y = ST_SVC_MENU -> selbuf y = sel ->
  exists r, dispatch KEY_ENTER y = Some r
            /\ ctl r = ctl (set_selbuf "" (set_st s (set_svcbuf "" y))).
Proof.
  intros Hin Hs Hst Hsel.
  rewrite dispatch_enter_service by (try assumption; rewrite Hst; discriminate).
  unfold on_enter_service. rewrite Hst, Hsel.
  cbn [In] in Hin.
  destruct Hin as [E|[E|[E|[E|[]]]]]; injection E as <- <-;
    cbn [String.eqb Ascii.eqb Bool.eqb]; cbv zeta;
    (eexists; split; [reflexivity|]); cbn [ctl set_selbuf];
    now autorewrite with frame.
Qed.

(** ENTER on an index that resolves moves a service function to its second
    step and remembers the slot. *)
Lemma service_dispense_index y :
  service_mode y = true -> st y = ST_SVC_DISPENSE_IDX -> svcbuf y <> "" ->
  0 <= find_slot_by_index (items y) (atoi (svcbuf y)) ->
  exists r, dispatch KEY_ENTER y = Some r
            /\ ctl r = ctl (set_st ST_SVC_DISPENSE_AMT
                              (set_svcbuf ""
                                 (set_svc_disp_slot
                                    (find_slot_by_index (items y) (atoi (svcbuf y))) y))).
Proof.
  intros Hs Hst Hb Hf.
  rewrite dispatch_enter_service by (try assumption; rewrite Hst; discriminate).
  unfold on_enter_service. rewrite Hst.
  destruct (strlen (svcbuf y) =? 0) eqn:E0;
    [apply strlen_zero in E0; contradiction|].
  cbv zeta. cbn [ctl svc_disp_slot set_svc_disp_slot items].
  apply Z.ltb_ge in Hf. rewrite Hf.
  eexists; split; [reflexivity|]. now autorewrite with frame.
Qed.

Lemma service_restock_index y :
  service_mode y = true -> st y = ST_SVC_RESTOCK_IDX -> svcbuf y <> "" ->
  0 <= find_slot_by_index (items y) (atoi (svcbuf y)) ->
  exists r, dispatch KEY_ENTER y = Some r
            /\ ctl r = ctl (set_st ST_SVC_RESTOCK_QTY
                              (set_svcbuf ""
                                 (set_restock_slot
                                    (find_slot_by_index (items y) (atoi (svcbuf y))) y))).
Proof.
  intros Hs Hst Hb Hf.
  rewrite dispatch_enter_service by (try assumption; rewrite Hst; discriminate).
  unfold on_enter_service. rewrite Hst.
  destruct (strlen (svcbuf y) =? 0) eqn:E0;
    [apply strlen_zero in E0; contradiction|].
  cbv zeta. cbn [ctl restock_slot set_restock_slot items].
  apply Z.ltb_ge in Hf. rewrite Hf.
  eexists; split; [reflexivity|]. now autorewrite with frame.
Qed.

Lemma range_check_passes a : 1 <= a <= 15 -> (a <? 1) || (a >? 15) = false.
Proof.
  intro H. apply orb_false_iff. rewrite Z.gtb_ltb. split; apply Z.ltb_ge; lia.
Qed.

(** ENTER on a new stock of 1 to 15 writes it to the remembered slot and
    returns to the service menu. *)
Lemma service_restock_confirm y :
  service_mode y = true -> st y = ST_SVC_RESTOCK_QTY -> svcbuf y <> "" ->
  1 <= atoi (svcbuf y) <= 15 ->
  exists r, dispatch KEY_ENTER y = Some r
            /\ ctl r = ctl (set_svcbuf ""
                              (set_restock_slot (-1)
                                 (set_st ST_SVC_MENU
                                    (set_items
                                       (set_stock_at (items y) (restock_slot y)
                                          (atoi (svcbuf y))) y)))).
Proof.
  intros Hs Hst Hb Hr.
  rewrite dispatch_enter_service by (try assumption; rewrite Hst; discriminate).
  unfold on_enter_service. rewrite Hst.
  destruct (strlen (svcbuf y) =? 0) eqn:E0;
    [apply strlen_zero in E0; contradiction|].
  cbv zeta. rewrite (range_check_passes _ Hr).
  eexists; split; [reflexivity|]. norm. reflexivity.
Qed.

(** ENTER on an amount of 1 to 15 runs the burst and returns to the service
    menu; no stock is written. *)
Lemma service_dispense_confirm y :
  service_mode y = true -> st y = ST_SVC_DISPENSE_AMT -> svcbuf y <> "" ->
  1 <= atoi (svcbuf y) <= 15 ->
  exists r, dispatch KEY_ENTER y = Some r
            /\ ctl r = ctl (set_svc_disp_slot (-1)
                              (set_svcbuf "" (set_st ST_SVC_MENU y))).
Proof.
  intros Hs Hst Hb Hr.
  rewrite dispatch_enter_service by (try assumption; rewrite Hst; discriminate).
  unfold on_enter_service. rewrite Hst.
  destruct (strlen (svcbuf y) =? 0) eqn:E0;
    [apply strlen_zero in E0; contradiction|].
  cbv zeta. rewrite (range_check_passes _ Hr).
  match goal with
  | |- context [dispense_burst ?n (anim_start ?t ?f ?k ?d ?ms ?x)] =>
    destruct (dispense_burst_runs n x (proj1 Hr)) as (Hrun & _);
    cbv zeta in Hrun; rewrite Hrun
  end.
  eexists; split; [reflexivity|]. norm. reflexivity.
Qed.

(** *** Slots *)

Lemma find_slot_from_range i its idx :
  0 <= i -> 0 <= find_slot_from i its idx ->
  i <= find_slot_from i its idx < i + Z.of_nat (List.length its).
Proof.
  revert i; induction its as [|it r IH]; intros i Hi H; cbn [find_slot_from] in *.
  - lia.
  - cbn [List.length]. destruct (index it =? idx); [lia|].
    specialize (IH (i + 1) ltac:(lia) H). lia.
Qed.

Lemma find_slot_from_set_stock_nat its n v i idx :
  find_slot_from i (set_stock_nat its n v) idx = find_slot_from i its idx.
Proof.
  revert n i; induction its as [|it r IH]; intros n i; [reflexivity|].
  destruct n; cbn [set_stock_nat find_slot_from index]; [reflexivity|].
  now rewrite IH.
Qed.

Lemma find_slot_by_index_set_stock_at its slot v idx :
  find_slot_by_index (set_stock_at its slot v) idx = find_slot_by_index its idx.
Proof.
  unfold find_slot_by_index, set_stock_at.
  destruct (slot <? 0); [reflexivity|apply find_slot_from_set_stock_nat].
Qed.

Lemma nth_set_stock_nat its n v :
  (n < List.length its)%nat -> stock (nth n (set_stock_nat its n v) no_item) = v.
Proof.
  revert n; induction its as [|it r IH]; intros n H; cbn [List.length] in H; [lia|].
  destruct n; cbn [set_stock_nat nth]; [reflexivity|]. apply IH. lia.
Qed.

Lemma stock_set_stock_at its slot v :
  0 <= slot < Z.of_nat (List.length its) ->
  stock (item_at (set_stock_at its slot v) slot) = v.
Proof.
  intro H. unfold item_at, set_stock_at.
  destruct (slot <? 0) eqn:E; [apply Z.ltb_lt in E; lia|].
  apply nth_set_stock_nat. lia.
Qed.

(** A restock of a slot that [find_slot_by_index] returned reads back. *)
Lemma stock_restocked its idx v :
  0 <= find_slot_by_index its idx ->
  stock (item_at (set_stock_at its (find_slot_by_index its idx) v)
           (find_slot_by_index its idx)) = v.
Proof.
  intro H. apply stock_set_stock_at.
  pose proof (find_slot_from_range 0 its idx ltac:(lia) H).
  unfold find_slot_by_index. lia.
Qed.

(** *** A restock followed by a service dispense *)

Ltac svc_facts :=
  norm; repeat match goal with
               | H : _ = _ |- _ => rewrite H
               end;
  try solve [reflexivity | discriminate | assumption | cbn; lia
            | cbn [In]; tauto].

Ltac svc_step L :=
  cbn [run];
  lazymatch goal with
  | |- context [loop_body ?i ?m] =>
    let y := fresh "y" in
    let Cy := fresh "Cy" in
    let E := fresh "E" in
    let r := fresh "r" in
    let Er := fresh "Er" in
    let Cr := fresh "Cr" in
    destruct (service_key i m) as (y & Cy & E);
    [ .. | rewrite E;
           repeat match goal with
                  | H : key ?j = _ |- context [dispatch (key ?j)] => rewrite H
                  end;
           destruct (L y) as (r & Er & Cr);
           [ .. | rewrite Er; clear E Er; norm_in Cr; clear Cy;
                  repeat match goal with
                         | H : _ = _ |- _ =>
                           lazymatch H with
                           | Cr => fail
                           | _ => rewrite H in Cr
                           end
                         end;
                  cbn [push_char append] in Cr ] ]
  end.

Lemma restock_sequence m (keys : list Input) :
  service_mode m = true -> st m = ST_SVC_MENU -> selbuf m = "" ->
  0 <= find_slot_by_index (items m) 8 ->
  map key keys = ["2"; KEY_ENTER; "8"; KEY_ENTER; "5"; KEY_ENTER]%char ->
  exists m',
    run keys m = Some m'
    /\ service_mode m' = true /\ st m' = ST_SVC_MENU /\ selbuf m' = ""
    /\ items m' = set_stock_at (items m) (find_slot_by_index (items m) 8) 5.
Proof.
  intros Hs Hst Hsel Hf Hk.
  destruct keys as [|i1 [|i2 [|i3 [|i4 [|i5 [|i6 [|]]]]]]]; try discriminate Hk.
  injection Hk as K1 K2 K3 K4 K5 K6.
  svc_step (service_menu_digit "2"%char); [svc_facts..|].
  svc_step (service_menu_select "2" ST_SVC_RESTOCK_IDX); [svc_facts..|].
  svc_step (service_function_digit "8"%char); [svc_facts..|].
  svc_step service_restock_index; [svc_facts..|].
  svc_step (service_function_digit "5"%char); [svc_facts..|].
  svc_step service_restock_confirm; [svc_facts..|].
  eexists; split; [reflexivity|]. rewrite Cr4. cbn. repeat split.
Qed.

Lemma dispense_sequence m (keys : list Input) :
  service_mode m = true -> st m = ST_SVC_MENU -> selbuf m = "" ->
  0 <= find_slot_by_index (items m) 8 ->
  map key keys = ["1"; KEY_ENTER; "8"; KEY_ENTER; "5"; KEY_ENTER]%char ->
  exists m',
    run keys m = Some m'
    /\ service_mode m' = true /\ st m' = ST_SVC_MENU /\ selbuf m' = ""
    /\ items m' = items m.
Proof.
  intros Hs Hst Hsel Hf Hk.
  destruct keys as [|i1 [|i2 [|i3 [|i4 [|i5 [|i6 [|]]]]]]]; try discriminate Hk.
  injection Hk as K1 K2 K3 K4 K5 K6.
  svc_step (service_menu_digit "1"%char); [svc_facts..|].
  svc_step (service_menu_select "1" ST_SVC_DISPENSE_IDX); [svc_facts..|].
  svc_step (service_function_digit "8"%char); [svc_facts..|].
  svc_step service_dispense_index; [svc_facts..|].
  svc_step (service_function_digit "5"%char); [svc_facts..|].
  svc_step service_dispense_confirm; [svc_facts..|].
  eexists; split; [reflexivity|]. rewrite Cr4. cbn. repeat split.
Qed.

(** C2, at the failing input: after the restock of index 8 to 5 and the
    service dispense of 5 units from index 8, the code leaves the stock of
    that item at 5, not at the 0 the claim states. *)
Lemma service_dispense_empties_stock_counterexample :
  ~ (forall (m m1 m2 : Machine) (restock dispense : list Input),
       service_mode m = true -> st m = ST_SVC_MENU -> selbuf m = "" ->
       map key restock = ["2"; KEY_ENTER; "8"; KEY_ENTER; "5"; KEY_ENTER]%char ->
       map key dispense = ["1"; KEY_ENTER; "8"; KEY_ENTER; "5"; KEY_ENTER]%char ->
       run restock m = Some m1 -> run dispense m1 = Some m2 ->
       stock (item_at (items m2) (find_slot_by_index (items m2) 8)) = 0).
Proof.
  intro H.
  set (restock := map press ["2"; KEY_ENTER; "8"; KEY_ENTER; "5"; KEY_ENTER]%char).
  set (dispense := map press ["1"; KEY_ENTER; "8"; KEY_ENTER; "5"; KEY_ENTER]%char).
  assert (F : service_mode in_service = true /\ st in_service = ST_SVC_MENU
              /\ selbuf in_service = ""
              /\ 0 <= find_slot_by_index (items in_service) 8) by closed_fact.
  destruct F as (F1 & F2 & F3 & F4).
  destruct (restock_sequence in_service restock F1 F2 F3 F4 eq_refl)
    as (m1 & R1 & S1 & T1 & B1 & I1).
  assert (F5 : 0 <= find_slot_by_index (items m1) 8)
    by now rewrite I1, find_slot_by_index_set_stock_at.
  destruct (dispense_sequence m1 dispense S1 T1 B1 F5 eq_refl)
    as (m2 & R2 & _ & _ & _ & I2).
  specialize (H in_service m1 m2 restock dispense F1 F2 F3 eq_refl eq_refl R1 R2).
  rewrite I2, I1, find_slot_by_index_set_stock_at, stock_restocked in H
    by assumption.
  discriminate H.
Qed.


(** ** Catalogue lookup *)

Lemma item_at_cons it r s :
  0 <= s -> item_at (it :: r) (s + 1) = item_at r s.
Proof.
  intro H. unfold item_at.
  destruct (s + 1 <? 0) eqn:E1; [apply Z.ltb_lt in E1; lia|].
  destruct (s <? 0) eqn:E2; [apply Z.ltb_lt in E2; lia|].
  replace (Z.to_nat (s + 1)) with (S (Z.to_nat s)) by lia. reflexivity.
Qed.

Lemma find_slot_from_miss i its idx :
  0 <= i -> find_slot_from i its idx < 0 ->
  find_slot_from i its idx = -1 /\ Forall (fun it => index it <> idx) its.
Proof.
  revert i; induction its as [|it r IH]; intros i Hi H; cbn [find_slot_from] in *.
  - split; [reflexivity|constructor].
  - destruct (index it =? idx) eqn:E; [lia|].
    destruct (IH (i + 1) ltac:(lia) H) as [H1 H2].
    split; [exact H1|]. constructor; [now apply Z.eqb_neq|exact H2].
Qed.

Lemma find_slot_from_hit i its idx :
  0 <= i -> 0 <= find_slot_from i its idx ->
  let s := find_slot_from i its idx - i in
  0 <= s < Z.of_nat (List.length its)
  /\ index (item_at its s) = idx
  /\ forall j, 0 <= j < s -> index (item_at its j) <> idx.
Proof.
  revert i; induction its as [|it r IH]; intros i Hi H; cbn [find_slot_from] in *.
  - lia.
  - cbn zeta. cbn [List.length].
    destruct (index it =? idx) eqn:E.
    + replace (i - i) with 0 by lia.
      split; [lia|]. split; [now apply Z.eqb_eq|]. intros j Hj; lia.
    + destruct (IH (i + 1) ltac:(lia) H) as (H1 & H2 & H3).
      set (s := find_slot_from (i + 1) r idx - (i + 1)) in *.
      replace (find_slot_from (i + 1) r idx - i) with (s + 1) by (unfold s; lia).
      split; [lia|]. split; [now rewrite item_at_cons by lia|].
      intros j Hj. destruct (Z.eq_dec j 0) as [->|Hn].
      * cbn. now apply Z.eqb_neq.
      * replace j with ((j - 1) + 1) by lia.
        rewrite item_at_cons by lia. apply H3. lia.
Qed.

Lemma find_slot_by_index_cases its idx :
  (find_slot_by_index its idx = -1
   /\ Forall (fun it => index it <> idx) its)
  \/ (0 <= find_slot_by_index its idx < Z.of_nat (List.length its)
      /\ index (item_at its (find_slot_by_index its idx)) = idx
      /\ forall j, 0 <= j < find_slot_by_index its idx ->
                   index (item_at its j) <> idx).
Proof.
  unfold find_slot_by_index.
  destruct (Z_lt_le_dec (find_slot_from 0 its idx) 0) as [H|H].
  - left. now apply find_slot_from_miss.
  - right. pose proof (find_slot_from_hit 0 its idx ltac:(lia) H) as X.
    cbn zeta in X. now rewrite Z.sub_0_r in X.
Qed.

(** [find_slot_by_index] returns -1 exactly when no item has the index, and
    otherwise the first slot of the array whose item has it. *)
Theorem find_slot_by_index_first its idx :
  (find_slot_by_index its idx = -1
   /\ Forall (fun it => index it <> idx) its)
  \/ (0 <= find_slot_by_index its idx < Z.of_nat (List.length its)
      /\ index (item_at its (find_slot_by_index its idx)) = idx
      /\ forall j, 0 <= j < find_slot_by_index its idx ->
                   index (item_at its j) <> idx).
Proof. exact (find_slot_by_index_cases its idx). Qed.

(** ** Keypad scan *)

(** Facts about bytes, checked on all 256 of them. *)
Lemma byte_cases (P : Z -> bool) :
  forallb P (map Z.of_nat (seq 0 256)) = true ->
  forall x, 0 <= x < 256 -> P x = true.
Proof.
  intros H x Hx. rewrite forallb_forall in H. apply H.
  apply in_map_iff. exists (Z.to_nat x). split; [lia|].
  apply in_seq. lia.
Qed.

Lemma scan_column_nibbles kbd port col :
  In col [Col7Lo; Col6Lo; Col5Lo; Col4Lo] ->
  scan_column kbd port col
  = Z.land (kbd port col mod 256) 0xF0 + Z.land col 0x0F.
Proof.
  intro Hc. unfold scan_column.
  assert (Hb : 0 <= kbd port col mod 256 < 256) by (apply Z.mod_pos_bound; lia).
  revert Hb. generalize (kbd port col mod 256) as x. intros x Hx.
  cbn [In] in Hc.
  destruct Hc as [<-|[<-|[<-|[<-|[]]]]]; apply Z.eqb_eq;
    revert x Hx;
    apply (byte_cases (fun x => Z.land (Z.lor x 15) _ =? Z.land x 240 + Z.land _ 15));
    vm_compute; reflexivity.
Qed.

(** [ProcKey] answers 0xFF or the character of one of the twelve keys. *)
Lemma ProcKey_range sc :
  ProcKey sc = 0xFF \/ 0x30 <= ProcKey sc <= 0x39
  \/ ProcKey sc = 0x41 \/ ProcKey sc = 0x42.
Proof.
  unfold ProcKey, ScanTable. cbn [ProcKey_from].
  repeat match goal with
         | |- context [sc =? ?c] => destruct (sc =? c)
         end; cbn; lia.
Qed.

(** Every entry of the scan table decodes to its own key: the digits to
    '0'..'9', the entries 10 and 11 to 'A' and 'B'. *)
Lemma ProcKey_decodes (j : nat) :
  (j < 12)%nat ->
  ProcKey (key_code j)
  = if (j <=? 9)%nat then 0x30 + Z.of_nat j else 0x37 + Z.of_nat j.
Proof.
  intro H. do 12 (destruct j as [|j]; [vm_compute; reflexivity|]). lia.
Qed.

Lemma ScanKey_nibbles kbd m :
  let rows col := Z.land (kbd (gKbdPort m) col mod 256) 0xF0 in
  let sc col := rows col + Z.land col 0x0F in
  ScanKey kbd m
  = if negb (sc Col7Lo =? Col7Lo) then ProcKey (sc Col7Lo)
    else if negb (sc Col6Lo =? Col6Lo) then ProcKey (sc Col6Lo)
    else if negb (sc Col5Lo =? Col5Lo) then ProcKey (sc Col5Lo)
    else if negb (sc Col4Lo =? Col4Lo) then ProcKey (sc Col4Lo)
    else 0xFF.
Proof.
  cbv zeta. unfold ScanKey. cbv zeta.
  rewrite !scan_column_nibbles by (cbn [In]; tauto). reflexivity.
Qed.

(** With no key down the scan answers 0xFF. *)
Theorem ScanKey_idle kbd m :
  no_key_down kbd (gKbdPort m) -> ScanKey kbd m = 0xFF.
Proof.
  intro H. rewrite ScanKey_nibbles. cbv zeta.
  rewrite !H by (cbn [In]; tauto). reflexivity.
Qed.

Lemma ScanKey_idle_witness : ScanKey (fun _ _ => 0xFF) (boot 0 []) = 0xFF.
Proof.
  apply (ScanKey_idle (fun _ _ => 0xFF) (boot 0 [])).
  intros col Hc. reflexivity.
Defined.

(** Each of the twelve keys, held down alone, is reported as its own
    character, on either port mapping. *)
Theorem ScanKey_reports_key kbd m (j : nat) :
  (j < 12)%nat -> only_key_down kbd (gKbdPort m) j ->
  ScanKey kbd m
  = if (j <=? 9)%nat then 0x30 + Z.of_nat j else 0x37 + Z.of_nat j.
Proof.
  intros Hj H. rewrite ScanKey_nibbles. cbv zeta.
  rewrite !H by (cbn [In]; tauto).
  do 12 (destruct j as [|j]; [vm_compute; reflexivity|]). lia.
Qed.

Lemma ScanKey_reports_key_witness :
  ScanKey (fun _ col => if col =? Col6Lo then 0x7F else 0xFF) in_service = 0x37.
Proof.
  apply (ScanKey_reports_key
           (fun _ col => if col =? Col6Lo then 0x7F else 0xFF) in_service 7).
  - lia.
  - intros col Hc. cbn [In] in Hc.
    destruct Hc as [<-|[<-|[<-|[<-|[]]]]]; reflexivity.
Defined.

(** Whatever the port reads, the scan answers no key, a digit, BACK or
    ENTER: no other character reaches the dispatch. *)
Theorem ScanKey_alphabet kbd m :
  let k := char_of (ScanKey kbd m) in
  k = KEY_NONE \/ isdigit k = true \/ k = KEY_BACK \/ k = KEY_ENTER.
Proof.
  cbv zeta.
  assert (H : forall z,
             z = 0xFF \/ 0x30 <= z <= 0x39 \/ z = 0x41 \/ z = 0x42 ->
             char_of z = KEY_NONE \/ isdigit (char_of z) = true
             \/ char_of z = KEY_BACK \/ char_of z = KEY_ENTER).
  { intros z [-> | [Hz | [-> | ->]]]; [now left| |now right; right; left|now right; right; right].
    right; left.
    assert (E : z = 48 \/ z = 49 \/ z = 50 \/ z = 51 \/ z = 52 \/ z = 53
                \/ z = 54 \/ z = 55 \/ z = 56 \/ z = 57) by lia.
    repeat (destruct E as [->|E]; [reflexivity|]). now subst z. }
  unfold ScanKey. cbv zeta.
  repeat match goal with
         | |- context [if ?c then _ else _] => destruct c
         end;
    first [ apply H, ProcKey_range | now left ].
Qed.

(** ** The idle timer *)

(** The display is written only when the digit changes: a second update at
    the same reading changes nothing. *)
Theorem timer_update_display_idempotent t m :
  timer_update_display t (timer_update_display t m) = timer_update_display t m.
Proof.
  unfold timer_update_display at 2. cbv zeta.
  destruct (timer_seconds_left t m <? 0) eqn:E0.
  - unfold timer_update_display. cbv zeta. now rewrite E0.
  - destruct (timer_seconds_left t m =? last_shown m) eqn:E1; cbn [negb].
    + unfold timer_update_display. cbv zeta. now rewrite E0, E1.
    + set (m1 := set_last_shown _ _).
      assert (Hl : timer_seconds_left t m1 = timer_seconds_left t m)
        by (apply timer_seconds_left_ext; unfold m1, seg_show_digit, seg_blank;
            destruct ((timer_seconds_left t m <? 0) || (timer_seconds_left t m >? 9));
            reflexivity).
      assert (Hs : last_shown m1 = timer_seconds_left t m) by reflexivity.
      unfold timer_update_display. cbv zeta.
      rewrite Hl, E0, Hs, Z.eqb_refl, E1. reflexivity.
Qed.

(** Once stopped, the timer has no reading at any time, the last write to
    the display is the blank pattern, and updates leave it alone. *)
Theorem timer_stop_and_blank_stays_blank t m :
  let m' := timer_stop_and_blank m in
  timer_seconds_left t m' = -1
  /\ trace m' = EvSeg (gLedPort m) 0xFF :: trace m
  /\ timer_update_display t m' = m'.
Proof.
  cbv zeta.
  assert (H : timer_seconds_left t (timer_stop_and_blank m) = -1)
    by (apply timer_seconds_left_stopped; change (0 <= 0); lia).
  split; [exact H|]. split; [reflexivity|].
  unfold timer_update_display. cbv zeta. now rewrite H.
Qed.

(** A countdown armed at a non-negative clock reading shows 9 at once, has
    not run out at any reading less than [IDLE_MS] later, and has run out at
    every reading from then on. *)
Theorem timer_start_or_reset_runs_nine_seconds t m :
  0 <= clock m -> now_ms m <= t ->
  let m' := timer_start_or_reset m in
  timer_seconds_left (now_ms m) m' = 9
  /\ (t < now_ms m + IDLE_MS -> 1 <= timer_seconds_left t m' <= 9)
  /\ (now_ms m + IDLE_MS <= t -> timer_seconds_left t m' = 0).
Proof.
  intros Hc Ht. cbv zeta.
  destruct (timer_start_or_reset_armed m t Hc Ht) as [H1 H2].
  destruct (timer_start_or_reset_armed m (now_ms m) Hc (Z.le_refl _)) as [_ H3].
  rewrite !timer_seconds_left_armed by assumption.
  assert (E : idle_deadline (timer_start_or_reset m) = now_ms m + IDLE_MS)
    by reflexivity.
  rewrite E. unfold IDLE_MS. split; [|split].
  - replace (now_ms m + 9000 - now_ms m + 999) with 9999 by lia.
    reflexivity.
  - intro Hlt.
    assert (1 <= (now_ms m + 9000 - t + 999) / 1000)
      by (apply Z.div_le_lower_bound; lia).
    lia.
  - intro Hge.
    assert ((now_ms m + 9000 - t + 999) / 1000 < 1)
      by (apply Z.div_lt_upper_bound; lia).
    lia.
Qed.

Lemma timer_start_or_reset_runs_nine_seconds_witness :
  let m' := timer_start_or_reset paying in
  timer_seconds_left (now_ms paying) m' = 9
  /\ (now_ms paying + 4500 < now_ms paying + IDLE_MS ->
      1 <= timer_seconds_left (now_ms paying + 4500) m' <= 9)
  /\ (now_ms paying + IDLE_MS <= now_ms paying + 4500 ->
      timer_seconds_left (now_ms paying + 4500) m' = 0).
Proof.
  apply (timer_start_or_reset_runs_nine_seconds (now_ms paying + 4500) paying).
  - vm_compute. discriminate.
  - lia.
Defined.

(** ** The animation engine: the frame index *)

Lemma anim_advance_in_range a t :
  0 <= idx a < nframes a -> 0 <= idx (anim_advance a t) < nframes a.
Proof.
  intro H. unfold anim_advance; cbv zeta.
  destruct (direction a >? 0).
  - destruct (idx a =? nframes a - 1) eqn:E; cbn [idx]; [lia|].
    apply Z.eqb_neq in E. lia.
  - destruct (idx a =? 0) eqn:E; cbn [idx]; [lia|].
    apply Z.eqb_neq in E. lia.
Qed.

Lemma anim_tick_track tr m :
  track_get tr (anim_tick tr m) = track_get tr m
  \/ track_get tr (anim_tick tr m) = anim_advance (track_get tr m) (now_ms m).
Proof.
  unfold anim_tick; cbv zeta.
  destruct (negb (active (track_get tr m)) || oneshot_done (track_get tr m));
    [now left|].
  destruct (now_ms m <? next_ms (track_get tr m)); [now left|].
  right. apply track_get_set.
Qed.

(** From [anim_start] on a track of at least one frame, over any run of
    ticks, the frame index stays inside the frame array and the array, its
    length and the direction of travel (normalised to +1 or -1) stay as
    armed. *)
Theorem anim_index_in_range tr fr n dir fms delays m :
  1 <= n ->
  let a := track_get tr (tick_run tr delays (anim_start tr fr n dir fms m)) in
  0 <= idx a < n /\ nframes a = n /\ frames a = fr
  /\ direction a = (if dir >=? 0 then 1 else -1).
Proof.
  intro Hn. cbv zeta.
  set (P := fun a : Anim =>
              0 <= idx a < n /\ nframes a = n /\ frames a = fr
              /\ direction a = (if dir >=? 0 then 1 else -1)).
  assert (Hstep : forall d m0, P (track_get tr m0) ->
                    P (track_get tr (anim_tick tr (usleep d m0)))).
  { intros d m0 (H1 & H2 & H3 & H4).
    destruct (anim_tick_track tr (usleep d m0)) as [E|E]; rewrite E;
      rewrite track_get_usleep; [unfold P; repeat split; first [assumption|lia]|].
    destruct (anim_advance_static (track_get tr m0) (now_ms (usleep d m0)))
      as (S1 & S2 & _ & S4 & _).
    unfold P. rewrite S1, S2, S4. repeat split; try assumption;
      pose proof (anim_advance_in_range (track_get tr m0) (now_ms (usleep d m0)));
      lia. }
  assert (Hrun : forall ds m0, P (track_get tr m0) ->
                   P (track_get tr (tick_run tr ds m0))).
  { induction ds as [|d r IH]; intros m0 H; cbn [tick_run]; [exact H|].
    apply IH, Hstep, H. }
  apply Hrun. rewrite anim_start_track. unfold P; cbn.
  destruct (dir >=? 0); cbn; repeat split; lia.
Qed.

Lemma anim_index_in_range_witness :
  let a := track_get DoorTrack
             (tick_run DoorTrack [0; 800000; 800000; 800000; 800000; 800000]
                (anim_start DoorTrack door_frames DOOR_N (-1) DOOR_FRAME_MS
                   at_return_gate)) in
  0 <= idx a < DOOR_N /\ nframes a = DOOR_N /\ frames a = door_frames
  /\ direction a = (if -1 >=? 0 then 1 else -1).
Proof.
  apply (anim_index_in_range DoorTrack door_frames DOOR_N (-1) DOOR_FRAME_MS).
  unfold DOOR_N. lia.
Defined.

(** ** The animation engine: the frames shown *)

Lemma assets_anim_tick tr m : assets (anim_tick tr m) = assets m.
Proof.
  unfold anim_tick; cbv zeta.
  destruct (negb (active (track_get tr m)) || oneshot_done (track_get tr m));
    [reflexivity|].
  destruct (now_ms m <? next_ms (track_get tr m)); [reflexivity|].
  destruct tr; reflexivity.
Qed.









(** ** LCD lines *)

Lemma pad_length n s : String.length (pad n s) = n.
Proof.
  revert s; induction n as [|n IH]; intro s; [reflexivity|].
  destruct s; cbn [pad String.length]; now rewrite IH.
Qed.

Lemma pad_get_text n : forall s k,
  (k < n)%nat -> (k < String.length s)%nat -> get k (pad n s) = get k s.
Proof.
  induction n as [|n IH]; intros s k Hk Hs; [lia|].
  destruct s as [|c s]; [cbn in Hs; lia|].
  cbn [pad]. destruct k; [reflexivity|]. cbn [get].
  apply IH; cbn in Hs; lia.
Qed.

Lemma pad_get_space n : forall s k,
  (k < n)%nat -> (String.length s <= k)%nat -> get k (pad n s) = Some " "%char.
Proof.
  induction n as [|n IH]; intros s k Hk Hs; [lia|].
  destruct s as [|c s]; cbn [pad].
  - destruct k; [reflexivity|]. cbn [get]. apply IH; cbn; lia.
  - destruct k; [cbn in Hs; lia|]. cbn [get]. apply IH; cbn in Hs; lia.
Qed.

(** Whatever the two texts, [lcd_print2] writes two lines of exactly 16
    characters to the LCD port of the current mapping: each text cut at 16
    characters or filled up with spaces. *)
Theorem lcd_print2_writes_two_full_lines l1 l2 m :
  exists a b,
    trace (lcd_print2 l1 l2 m) = EvLcd (gLcdPort m) a b :: trace m
    /\ lcd_line l1 a /\ lcd_line l2 b.
Proof.
  exists (pad 16 l1), (pad 16 l2). split; [reflexivity|].
  split; (split; [apply pad_length|split; [apply pad_get_text|apply pad_get_space]]).
Qed.

(** ** Tones *)

Lemma beep_loop_ends hp e : 0 < hp -> forall fuel m,
  1000 * e <= clock m + 2 * hp * Z.of_nat fuel ->
  let r := beep_loop fuel e hp m in
  e <= now_ms r /\ clock m <= clock r
  /\ clock r <= Z.max (clock m) (1000 * e + 2 * hp - 1).
Proof.
  intros Hhp fuel; induction fuel as [|f IH]; intros m H; cbv zeta.
  - cbn [beep_loop]. split; [|lia].
    change (Z.of_nat 0) with 0 in H. rewrite Z.mul_0_r, Z.add_0_r in H.
    unfold now_ms. apply Z.div_le_lower_bound; [lia|exact H].
  - cbn [beep_loop]. rewrite Nat2Z.inj_succ in H.
    destruct (now_ms m <? e) eqn:E.
    + apply Z.ltb_lt in E.
      assert (Hc : clock m < 1000 * e).
      { unfold now_ms in E.
        pose proof (Z.div_mod (clock m) 1000 ltac:(lia)).
        pose proof (Z.mod_pos_bound (clock m) 1000 ltac:(lia)). lia. }
      set (m1 := usleep hp (usleep hp m)).
      assert (Hm1 : clock m1 = clock m + 2 * hp) by (change (clock m + hp + hp = clock m + 2 * hp); lia).
      specialize (IH m1 ltac:(lia)). cbv zeta in IH. lia.
    + apply Z.ltb_ge in E. lia.
Qed.

(** A tone of [duration_ms >= 0] with a half period of at least 250 us
    (every tone of the program has one of 450 us or more) keeps the caller
    for at least its duration and less than one period longer, and is one
    call of the tone generator. *)
Theorem beep_square_blocks_for_its_duration d hp hi lo m :
  0 <= d -> 250 <= hp ->
  let m' := beep_square d hp hi lo m in
  now_ms m + d <= now_ms m'
  /\ clock m <= clock m' < clock m + 1000 * d + 2 * hp
  /\ trace m' = EvTone d hp hi lo :: trace m.
Proof.
  intros Hd Hhp. cbv zeta.
  split; [|split; [|apply trace_beep_square]].
  - unfold beep_square; cbv zeta.
    set (m0 := emit _ m).
    pose proof (Z.div_mod (clock m) 1000 ltac:(lia)).
    pose proof (Z.mod_pos_bound (clock m) 1000 ltac:(lia)).
    apply (beep_loop_ends hp (now_ms m + d) ltac:(lia)).
    change (clock m0) with (clock m). unfold now_ms. nia.
  - unfold beep_square; cbv zeta.
    set (m0 := emit _ m).
    pose proof (Z.div_mod (clock m) 1000 ltac:(lia)).
    pose proof (Z.mod_pos_bound (clock m) 1000 ltac:(lia)).
    destruct (beep_loop_ends hp (now_ms m + d) ltac:(lia)
                (Z.to_nat (2 * d + 2)) m0) as (_ & H1 & H2).
    + change (clock m0) with (clock m). unfold now_ms. nia.
    + change (clock m0) with (clock m) in *. unfold now_ms in *. lia.
Qed.

Lemma beep_square_blocks_for_its_duration_witness :
  let m' := beep_square 140 1400 180 0 in_service in
  now_ms in_service + 140 <= now_ms m'
  /\ clock in_service <= clock m' < clock in_service + 1000 * 140 + 2 * 1400
  /\ trace m' = EvTone 140 1400 180 0 :: trace in_service.
Proof.
  apply (beep_square_blocks_for_its_duration 140 1400 180 0 in_service); lia.
Defined.

(** ** The motor test *)








(** ** Buffers, catalogue and slots over the reachable states *)

Lemma strlen_push_char s k : strlen (push_char s k) = strlen s + 1.
Proof.
  unfold strlen, push_char. induction s as [|c s IH]; [reflexivity|].
  cbn [append String.length] in *. lia.
Qed.

Lemma strlen_drop_last s : strlen (drop_last s) <= strlen s.
Proof.
  unfold strlen. induction s as [|c s IH]; [cbn; lia|].
  destruct s as [|c' s]; [cbn; lia|].
  change (drop_last (String c (String c' s))) with (String c (drop_last (String c' s))).
  cbn [String.length] in *. lia.
Qed.

Lemma digits_only_empty : digits_only "".
Proof. constructor. Qed.

Lemma digits_only_push_char s k :
  digits_only s -> isdigit k = true -> digits_only (push_char s k).
Proof.
  unfold digits_only, push_char. intros Hs Hk.
  induction s as [|c s IH]; cbn [append list_ascii_of_string].
  - constructor; [exact Hk|constructor].
  - inversion Hs; subst. constructor; [assumption|now apply IH].
Qed.

Lemma digits_only_drop_last s : digits_only s -> digits_only (drop_last s).
Proof.
  unfold digits_only. induction s as [|c s IH]; intro H; [constructor|].
  destruct s as [|c' s]; [constructor|].
  change (drop_last (String c (String c' s))) with (String c (drop_last (String c' s))).
  cbn [list_ascii_of_string] in *. inversion H; subst.
  constructor; [assumption|now apply IH].
Qed.

Lemma Forall2_same_goods_set_stock_nat its cat n v :
  Forall2 same_goods its cat -> Forall2 same_goods (set_stock_nat its n v) cat.
Proof.
  intro H; revert n; induction H as [|a b its cat Hab H IH]; intro n;
    [constructor|].
  destruct n; cbn [set_stock_nat]; constructor; try assumption; apply IH.
Qed.

Lemma catalog_kept_set_stock_at its slot v :
  catalog_kept its -> catalog_kept (set_stock_at its slot v).
Proof.
  unfold catalog_kept, set_stock_at. intro H.
  destruct (slot <? 0); [exact H|now apply Forall2_same_goods_set_stock_nat].
Qed.

Lemma slot_ok_find its idx :
  0 <= find_slot_by_index its idx -> slot_ok its (find_slot_by_index its idx).
Proof.
  intro H. unfold slot_ok, find_slot_by_index in *.
  pose proof (find_slot_from_range 0 its idx ltac:(lia) H). lia.
Qed.

Ltac safe_facts :=
  repeat match goal with
         | H : (_ =? _)%string = true |- _ => apply String.eqb_eq in H
         | H : (_ =? _)%char = true |- _ => apply Ascii.eqb_eq in H
         | H : (_ <? _) || (_ >? _) = false |- _ => apply range_check_false in H
         | H : (_ <? _) = true |- _ => apply Z.ltb_lt in H
         | H : (_ <? _) = false |- _ => apply Z.ltb_ge in H
         | H : (_ <=? _) = true |- _ => apply Z.leb_le in H
         | H : (_ <=? _) = false |- _ => apply Z.leb_gt in H
         | H : (_ >? _) = true |- _ => apply Z.gtb_lt in H
         | H : (_ >? _) = false |- _ => rewrite Z.gtb_ltb in H
         | H : ?y = atoi _ |- _ => subst y
         | H : ?y = find_slot_by_index _ _ |- _ => subst y
         end.

Lemma dispatch_safe k (m m' : Machine) :
  Inv m -> Safe m -> dispatch k m = Some m' -> Safe m'.
Proof.
  destruct m as [c h w];
    destruct c as [s sel amt svc slot am tot pz ita sm gd rd sds rs its ps].
  intros (Hm & _ & _) ((Hb1 & Hb2 & Hb3) & Hcat & Hsl);
    unfold mode_ok, slots_ok in Hm, Hsl; cbn in Hm, Hsl, Hb1, Hb2, Hb3, Hcat.
  destruct s; destruct Hm as [Hsm Hps]; subst sm.
  all: exec unfold_dispatch.
  all: intro Hc; unfold Safe, bufs_ok, slots_ok; rewrite Hc; clear Hc; cbn.
  all: safe_facts.
  all: repeat match goal with
              | |- _ /\ _ => split
              | |- True => exact I
              end.
  all: try solve
         [ assumption | apply digits_only_empty | apply Hb1 | apply Hb2 | apply Hb3
         | apply Hsl | cbn; lia | unfold MAX_COUNT in *; lia
         | rewrite strlen_push_char; lia
         | pose proof (strlen_drop_last sel); lia
         | apply digits_only_drop_last, Hb1
         | apply digits_only_push_char; [first [apply Hb1|apply Hb2|apply Hb3]|assumption]
         | apply slot_ok_find; assumption
         | apply catalog_kept_set_stock_at; assumption ].
Qed.

Lemma dispensing_safe (m m' : Machine) :
  Safe m -> dispensing_state m = Some m' -> Safe m'.
Proof.
  destruct m as [c h w];
    destruct c as [s sel amt svc slot am tot pz ita sm gd rd sds rs its ps].
  intros ((Hb1 & Hb2 & Hb3) & Hcat & Hsl); cbn in Hb1, Hb2, Hb3, Hcat.
  exec ltac:(cbv beta delta [dispensing_state]).
  all: intro Hc; unfold Safe, bufs_ok, slots_ok; rewrite Hc; clear Hc; cbn.
  all: repeat match goal with
              | |- _ /\ _ => split
              | |- True => exact I
              end.
  all: try solve
         [ assumption | apply digits_only_empty | apply Hb3 | cbn; lia
         | repeat apply catalog_kept_set_stock_at; assumption ].
Qed.

Lemma keypad_safe i (m m' : Machine) :
  Inv m -> Safe m -> keypad i m = Some m' -> Safe m'.
Proof.
  intros HI HS. unfold keypad.
  destruct (Ascii.eqb (key i) KEY_NONE).
  - intro H; apply some_ctl in H. rewrite H. now autorewrite with frame.
  - cbv zeta. intro H. apply dispatch_safe in H; [exact H| |];
      now autorewrite with frame.
Qed.

Lemma poll_safe i t (m m' : Machine) :
  Inv m -> Safe m -> poll i t m = Some m' -> Safe m'.
Proof.
  destruct m as [c h w];
    destruct c as [s sel amt svc slot am tot pz ita sm gd rd sds rs its ps].
  intros HI HS. pose proof HI as (Hm & Hs & Ho). pose proof HS as ((Hb1 & Hb2 & Hb3) & Hcat & Hsl).
  unfold mode_ok, order_ok, slots_ok in Hm, Ho, Hsl; cbn in Hm, Ho, Hs, Hsl, Hb1, Hb2, Hb3, Hcat.
  destruct s; destruct Hm as [Hsm Hps]; subst sm.
  all: exec ltac:(cbv beta delta [poll gate_timeouts seven_seg timer_active]).
  all: lazymatch goal with
       | |- ctl _ = _ -> _ =>
         let Hc := fresh "Hc" in
         intro Hc; unfold Safe, bufs_ok, slots_ok; rewrite Hc; clear Hc; cbn
       | |- dispensing_state ?y = Some _ -> _ =>
         let H := fresh "H" in
         intro H; apply dispensing_safe in H; [exact H|norm]
       | |- keypad _ ?y = Some _ -> _ =>
         let H := fresh "H" in
         intro H; apply keypad_safe in H; [exact H|norm|norm]
       end.
  all: try solve [exact HI | exact HS].
  all: try solve
         [ repeat match goal with
                  | |- _ /\ _ => split
                  | |- True => exact I
                  end;
           first [ assumption | apply digits_only_empty | apply Hb1 | apply Hb2
                 | apply Hb3 | apply Hsl | cbn; lia ] ].
  all: unfold Inv, mode_ok, order_ok, Safe, bufs_ok, slots_ok; cbn.
  all: repeat match goal with
              | |- _ /\ _ => split
              | |- True => exact I
              end.
  all: first [ assumption | reflexivity | apply digits_only_empty | apply Hb1
             | apply Hb2 | apply Hb3 | cbn; lia | tauto ].
Qed.

Lemma Safe_boot c files : Safe (boot c files).
Proof.
  unfold boot; cbv zeta. autorewrite with frame.
  unfold Safe, bufs_ok, slots_ok, catalog_kept; cbn.
  repeat split; try apply digits_only_empty; try lia.
  repeat (constructor; [repeat split|]). constructor.
Qed.

Lemma reachable_Safe m : reachable m -> Safe m.
Proof.
  induction 1 as [c files Hc|m i m' Hr IH He Hl].
  - apply Safe_boot.
  - rewrite loop_body_poll in Hl.
    apply poll_safe in Hl; [exact Hl| |]; rewrite ctl_ticked;
      [now apply reachable_Inv|exact IH].
Qed.

(** *** The numbers typed *)

Lemma atoi_digits_bounds s : forall acc,
  0 <= acc -> digits_only s ->
  acc * 10 ^ Z.of_nat (String.length s) <= atoi_digits acc s
  < (acc + 1) * 10 ^ Z.of_nat (String.length s).
Proof.
  unfold digits_only. induction s as [|c s IH]; intros acc Ha Hs.
  - cbn. lia.
  - cbn [list_ascii_of_string] in Hs. inversion Hs as [|? ? Hc Hs']; subst.
    cbn [atoi_digits String.length]. rewrite Hc.
    assert (Hd : 0 <= Z.of_N (N_of_ascii c) - 48 <= 9).
    { unfold isdigit in Hc. apply andb_true_iff in Hc as [H1 H2].
      apply N.leb_le in H1, H2. lia. }
    specialize (IH (acc * 10 + (Z.of_N (N_of_ascii c) - 48)) ltac:(lia) Hs').
    rewrite Nat2Z.inj_succ, Z.pow_succ_r by lia.
    assert (0 < 10 ^ Z.of_nat (String.length s)) by (apply Z.pow_pos_nonneg; lia).
    nia.
Qed.

Lemma atoi_digits_only s : digits_only s -> atoi s = atoi_digits 0 s.
Proof.
  unfold digits_only, atoi. destruct s as [|c s]; [reflexivity|].
  cbn [list_ascii_of_string String.length atoi_skip]. intro H.
  inversion H as [|? ? Hc _]; subst.
  destruct c as [[] [] [] [] [] [] [] []]; try discriminate Hc; reflexivity.
Qed.

(** In every reachable state the three key buffers hold at most 4, 3 and 4
    characters, all of them digits, so that the number [atoi] reads from a
    buffer lies between 0 and 9999 (999 for the amount). *)
Theorem typed_numbers_bounded m :
  reachable m ->
  (strlen (selbuf m) <= 4 /\ digits_only (selbuf m) /\ 0 <= atoi (selbuf m) <= 9999)
  /\ (strlen (amtbuf m) <= 3 /\ digits_only (amtbuf m) /\ 0 <= atoi (amtbuf m) <= 999)
  /\ (strlen (svcbuf m) <= 4 /\ digits_only (svcbuf m) /\ 0 <= atoi (svcbuf m) <= 9999).
Proof.
  intro Hr. destruct (reachable_Safe m Hr) as (((L1 & D1) & (L2 & D2) & (L3 & D3)) & _).
  assert (B : forall s n, strlen s <= n -> digits_only s -> 0 <= atoi s < 10 ^ n).
  { intros s n Hl Hd. rewrite atoi_digits_only by assumption.
    pose proof (atoi_digits_bounds s 0 ltac:(lia) Hd) as Hb.
    unfold strlen in Hl.
    assert (10 ^ Z.of_nat (String.length s) <= 10 ^ n)
      by (apply Z.pow_le_mono_r; lia).
    lia. }
  pose proof (B _ 4 L1 D1). pose proof (B _ 3 L2 D2). pose proof (B _ 4 L3 D3).
  change (10 ^ 4) with 10000 in *. change (10 ^ 3) with 1000 in *.
  repeat split; first [assumption | lia].
Qed.

(** *** The catalogue *)

Lemma find_slot_from_same_goods its cat :
  Forall2 same_goods its cat ->
  forall i idx, find_slot_from i its idx = find_slot_from i cat idx.
Proof.
  induction 1 as [|a b its cat (Hi & _) H IH]; intros i idx; [reflexivity|].
  cbn [find_slot_from]. rewrite Hi, IH. reflexivity.
Qed.

(** In every reachable state the item array is the boot catalogue up to the
    stocks: four items with the indices, names, prices and images they were
    given, so that an index resolves to the slot it had at boot. *)
Theorem catalogue_fixed m :
  reachable m ->
  Forall2 same_goods (items m) catalog
  /\ List.length (items m) = 4%nat
  /\ forall idx, find_slot_by_index (items m) idx = find_slot_by_index catalog idx.
Proof.
  intro Hr. destruct (reachable_Safe m Hr) as (_ & Hc & _).
  split; [exact Hc|]. split.
  - apply Forall2_length in Hc. exact Hc.
  - intro idx. now apply find_slot_from_same_goods.
Qed.

(** *** Slots and purchase amounts *)

(** In every reachable state the slot variables index the item array
    wherever the code reads or writes [items[slot]]: the chosen slot in
    AMOUNT, PAY and DISPENSING, the service dispense slot in its amount
    step, the restock slot in its quantity step. *)
Theorem slots_index_the_array m :
  reachable m ->
  (st m = ST_AMOUNT \/ st m = ST_PAY \/ st m = ST_DISPENSING ->
   0 <= chosen_slot m < Z.of_nat (List.length (items m)))
  /\ (st m = ST_SVC_DISPENSE_AMT ->
      0 <= svc_disp_slot m < Z.of_nat (List.length (items m)))
  /\ (st m = ST_SVC_RESTOCK_QTY ->
      0 <= restock_slot m < Z.of_nat (List.length (items m))).
Proof.
  intro Hr. destruct (reachable_Safe m Hr) as (_ & _ & Hs).
  unfold slots_ok, slot_ok in Hs.
  split; [|split]; intro E.
  - destruct E as [E|[E|E]]; rewrite E in Hs; apply Hs.
  - now rewrite E in Hs.
  - now rewrite E in Hs.
Qed.

(** A purchase is never accepted beyond the stock: in AMOUNT the chosen item
    is in stock, and in PAY and DISPENSING the amount lies between 1 and the
    stock of the chosen item. *)
Theorem purchase_within_stock m :
  reachable m ->
  (st m = ST_AMOUNT -> 0 < stock (item_at (items m) (chosen_slot m)))
  /\ (st m = ST_PAY \/ st m = ST_DISPENSING ->
      1 <= amount m <= stock (item_at (items m) (chosen_slot m))).
Proof.
  intro Hr. destruct (reachable_Safe m Hr) as (_ & _ & Hs).
  unfold slots_ok in Hs. split; intro E.
  - rewrite E in Hs. apply Hs.
  - destruct E as [E|E]; rewrite E in Hs; apply Hs.
Qed.

Lemma paying_reachable : reachable paying.
Proof.
  apply (reachable_run
           [press "3"; press KEY_ENTER; press "1"; press KEY_ENTER] (boot 0 [])).
  - now apply reach_boot.
  - repeat (apply Forall_cons; [cbn; lia|]). apply Forall_nil.
  - vm_compute. reflexivity.
Qed.

Lemma typed_numbers_bounded_witness :
  (strlen (selbuf code_typed) <= 4 /\ digits_only (selbuf code_typed)
   /\ 0 <= atoi (selbuf code_typed) <= 9999)
  /\ (strlen (amtbuf code_typed) <= 3 /\ digits_only (amtbuf code_typed)
      /\ 0 <= atoi (amtbuf code_typed) <= 999)
  /\ (strlen (svcbuf code_typed) <= 4 /\ digits_only (svcbuf code_typed)
      /\ 0 <= atoi (svcbuf code_typed) <= 9999).
Proof. apply (typed_numbers_bounded code_typed). exact code_typed_reachable. Defined.

Lemma catalogue_fixed_witness :
  Forall2 same_goods (items in_service) catalog
  /\ List.length (items in_service) = 4%nat
  /\ forall idx, find_slot_by_index (items in_service) idx
                 = find_slot_by_index catalog idx.
Proof. apply (catalogue_fixed in_service). exact in_service_reachable. Defined.

Lemma slots_index_the_array_witness :
  (st paying = ST_AMOUNT \/ st paying = ST_PAY \/ st paying = ST_DISPENSING ->
   0 <= chosen_slot paying < Z.of_nat (List.length (items paying)))
  /\ (st paying = ST_SVC_DISPENSE_AMT ->
      0 <= svc_disp_slot paying < Z.of_nat (List.length (items paying)))
  /\ (st paying = ST_SVC_RESTOCK_QTY ->
      0 <= restock_slot paying < Z.of_nat (List.length (items paying))).
Proof. apply (slots_index_the_array paying). exact paying_reachable. Defined.

Lemma purchase_within_stock_witness :
  (st paying = ST_AMOUNT -> 0 < stock (item_at (items paying) (chosen_slot paying)))
  /\ (st paying = ST_PAY \/ st paying = ST_DISPENSING ->
      1 <= amount paying <= stock (item_at (items paying) (chosen_slot paying))).
Proof. apply (purchase_within_stock paying). exact paying_reachable. Defined.

(** ** A paid purchase *)

(** The second '0' in PAY: the dispensing track is cleared and the machine
    goes to DISPENSING. *)
Lemma pay_confirm i m :
  st m = ST_PAY -> service_mode m = false -> alive i m ->
  key i = "0"%char -> 1 <= pay_zero_count m ->
  exists m',
    loop_body i m = Some m'
    /\ ctl m' = ctl (set_st ST_DISPENSING
                       (set_pay_zero_count (pay_zero_count m + 1) m))
    /\ active (gDispAnim m') = false
    /\ oneshot_done (gDispAnim m') = false.
Proof.
  intros Hst Hsm Hal Hk Hz.
  assert (Hd : isdigit (key i) = true) by now rewrite Hk.
  destruct (isdigit_not_control _ Hd) as (Hn & Hb & He).
  rewrite loop_body_alive;
    [|assumption|unfold timer_active; now rewrite Hst|assumption].
  rewrite keypad_key by assumption.
  set (m1 := wait_key_release _ _).
  assert (Hc : ctl m1 = ctl m)
    by (unfold m1; autorewrite with frame; apply ctl_ticked).
  unfold dispatch. rewrite Hc, Hst, Hd.
  apply Ascii.eqb_neq in Hb. rewrite Hb.
  eexists; split; [reflexivity|].
  unfold on_digit. rewrite Hc, Hsm, Hst, Hk. cbn [negb Ascii.eqb Bool.eqb]. cbv zeta.
  cbn [ctl pay_zero_count set_pay_zero_count]. rewrite ?Hc.
  assert (E : (pay_zero_count m + 1 >=? 2) = true)
    by (rewrite Z.geb_leb; apply Z.leb_le; lia).
  rewrite E. split; [|split; reflexivity].
  norm. reflexivity.
Qed.

Lemma gDispAnim_anim_tick_door m : gDispAnim (anim_tick DoorTrack m) = gDispAnim m.
Proof.
  unfold anim_tick; cbv zeta.
  destruct (negb (active (track_get DoorTrack m)) || oneshot_done (track_get DoorTrack m));
    [reflexivity|].
  destruct (now_ms m <? next_ms (track_get DoorTrack m)); reflexivity.
Qed.

(** In DISPENSING the iteration is the dispensing block. *)
Lemma loop_body_dispensing i m :
  st m = ST_DISPENSING -> service_mode m = false ->
  loop_body i m = dispensing_state (ticked i m).
Proof.
  intros Hst Hsm. rewrite loop_body_poll. unfold poll; cbv zeta.
  assert (E : st (ticked i m) = ST_DISPENSING) by now rewrite ctl_ticked.
  assert (Hs : service_mode (ticked i m) = false) by now rewrite ctl_ticked.
  rewrite door_transitions_other by (rewrite E; discriminate).
  rewrite gate_timeouts_other by (rewrite E; discriminate).
  unfold seven_seg, timer_active. rewrite Hs, E. cbv beta iota. rewrite E. reflexivity.
Qed.

Lemma item_at_set_stock_nat_other its : forall n k v,
  n <> k -> nth k (set_stock_nat its n v) no_item = nth k its no_item.
Proof.
  induction its as [|it r IH]; intros n k v H; [reflexivity|].
  destruct n, k; cbn [set_stock_nat nth]; try reflexivity; [congruence|].
  apply IH. congruence.
Qed.

Lemma item_at_set_stock_at_other its slot s v :
  s <> slot -> item_at (set_stock_at its slot v) s = item_at its s.
Proof.
  intro H. unfold item_at, set_stock_at.
  destruct (s <? 0) eqn:Es; [reflexivity|].
  destruct (slot <? 0) eqn:El; [reflexivity|].
  apply Z.ltb_ge in Es, El. apply item_at_set_stock_nat_other. lia.
Qed.

(** *** Calls that leave the motor alone *)

Create Rewrite HintDb motor.

Lemma hw_beep_loop fuel e hp m : hw (beep_loop fuel e hp m) = hw m.
Proof.
  revert m; induction fuel as [|f IH]; intro m; cbn [beep_loop]; [reflexivity|].
  destruct (now_ms m <? e); [rewrite IH|]; reflexivity.
Qed.

Lemma hw_beep_square d hp hi lo m : hw (beep_square d hp hi lo m) = hw m.
Proof. unfold beep_square; cbv zeta. now rewrite hw_beep_loop. Qed.

Lemma motor_phases_beep_square d hp hi lo m :
  motor_phases (trace (beep_square d hp hi lo m)) = motor_phases (trace m).
Proof. now rewrite trace_beep_square. Qed.

Lemma disp_phase_beep_square d hp hi lo m :
  disp_phase (beep_square d hp hi lo m) = disp_phase m.
Proof. now rewrite hw_beep_square. Qed.

Lemma motor_phases_beep_success m :
  motor_phases (trace (beep_success m)) = motor_phases (trace m).
Proof.
  unfold beep_success. rewrite motor_phases_beep_square.
  change (trace (usleep 35000 ?x)) with (trace x).
  apply motor_phases_beep_square.
Qed.

Lemma disp_phase_beep_success m : disp_phase (beep_success m) = disp_phase m.
Proof.
  unfold beep_success. rewrite disp_phase_beep_square.
  change (disp_phase (usleep 35000 ?x)) with (disp_phase x).
  apply disp_phase_beep_square.
Qed.

Lemma motor_phases_beep_keypress m :
  motor_phases (trace (beep_keypress m)) = motor_phases (trace m).
Proof. apply motor_phases_beep_square. Qed.

Lemma disp_phase_beep_keypress m : disp_phase (beep_keypress m) = disp_phase m.
Proof. apply disp_phase_beep_square. Qed.

Lemma motor_phases_usleep d m :
  motor_phases (trace (usleep d m)) = motor_phases (trace m).
Proof. reflexivity. Qed.

Lemma disp_phase_usleep d m : disp_phase (usleep d m) = disp_phase m.
Proof. reflexivity. Qed.

Lemma motor_phases_show_image p m :
  motor_phases (trace (show_image p m)) = motor_phases (trace m).
Proof. reflexivity. Qed.

Lemma disp_phase_show_image p m : disp_phase (show_image p m) = disp_phase m.
Proof. reflexivity. Qed.

Lemma motor_phases_lcd_print2 a b m :
  motor_phases (trace (lcd_print2 a b m)) = motor_phases (trace m).
Proof. reflexivity. Qed.

Lemma disp_phase_lcd_print2 a b m : disp_phase (lcd_print2 a b m) = disp_phase m.
Proof. reflexivity. Qed.

Lemma motor_phases_menu_screen m :
  motor_phases (trace (menu_screen m)) = motor_phases (trace m).
Proof. reflexivity. Qed.

Lemma disp_phase_menu_screen m : disp_phase (menu_screen m) = disp_phase m.
Proof. reflexivity. Qed.

Lemma motor_phases_service_menu_screen s m :
  motor_phases (trace (service_menu_screen s m)) = motor_phases (trace m).
Proof. unfold service_menu_screen; cbv zeta. destruct s; reflexivity. Qed.

Lemma disp_phase_service_menu_screen s m :
  disp_phase (service_menu_screen s m) = disp_phase m.
Proof. unfold service_menu_screen; cbv zeta. destruct s; reflexivity. Qed.

Lemma motor_phases_timer_stop_and_blank m :
  motor_phases (trace (timer_stop_and_blank m)) = motor_phases (trace m).
Proof. reflexivity. Qed.

Lemma disp_phase_timer_stop_and_blank m :
  disp_phase (timer_stop_and_blank m) = disp_phase m.
Proof. reflexivity. Qed.

Lemma motor_phases_seg_show_digit d m :
  motor_phases (trace (seg_show_digit d m)) = motor_phases (trace m).
Proof. unfold seg_show_digit. destruct ((d <? 0) || (d >? 9)); reflexivity. Qed.

Lemma disp_phase_seg_show_digit d m : disp_phase (seg_show_digit d m) = disp_phase m.
Proof. unfold seg_show_digit. destruct ((d <? 0) || (d >? 9)); reflexivity. Qed.

Lemma motor_phases_timer_update_display t m :
  motor_phases (trace (timer_update_display t m)) = motor_phases (trace m).
Proof.
  unfold timer_update_display; cbv zeta.
  destruct (timer_seconds_left t m <? 0); [reflexivity|].
  destruct (negb (timer_seconds_left t m =? last_shown m)); [|reflexivity].
  change (trace (set_last_shown ?v ?x)) with (trace x).
  apply motor_phases_seg_show_digit.
Qed.

Lemma disp_phase_timer_update_display t m :
  disp_phase (timer_update_display t m) = disp_phase m.
Proof.
  unfold timer_update_display; cbv zeta.
  destruct (timer_seconds_left t m <? 0); [reflexivity|].
  destruct (negb (timer_seconds_left t m =? last_shown m)); [|reflexivity].
  change (disp_phase (set_last_shown ?v ?x)) with (disp_phase x).
  apply disp_phase_seg_show_digit.
Qed.

Lemma motor_phases_service_blink_tick t m :
  motor_phases (trace (service_blink_tick t m)) = motor_phases (trace m).
Proof.
  unfold service_blink_tick.
  destruct (svc_blink_next m =? 0); [now rewrite motor_phases_seg_show_digit|].
  destruct (t >=? svc_blink_next m); [|reflexivity]. cbv zeta.
  match goal with |- context [if ?c then _ else _] => destruct c end;
    [now rewrite motor_phases_seg_show_digit|reflexivity].
Qed.

Lemma disp_phase_service_blink_tick t m :
  disp_phase (service_blink_tick t m) = disp_phase m.
Proof.
  unfold service_blink_tick.
  destruct (svc_blink_next m =? 0); [now rewrite disp_phase_seg_show_digit|].
  destruct (t >=? svc_blink_next m); [|reflexivity]. cbv zeta.
  match goal with |- context [if ?c then _ else _] => destruct c end;
    [now rewrite disp_phase_seg_show_digit|reflexivity].
Qed.

Lemma motor_phases_wait_key_release n m :
  motor_phases (trace (wait_key_release n m)) = motor_phases (trace m).
Proof.
  unfold wait_key_release. induction n as [|n IH]; [reflexivity|].
  exact IH.
Qed.

Lemma disp_phase_wait_key_release n m :
  disp_phase (wait_key_release n m) = disp_phase m.
Proof.
  unfold wait_key_release. induction n as [|n IH]; [reflexivity|].
  exact IH.
Qed.

Lemma motor_phases_anim_tick tr m :
  motor_phases (trace (anim_tick tr m)) = motor_phases (trace m).
Proof.
  destruct (motor_advanced_anim_tick tr m) as [H _].
  rewrite H. apply app_nil_r.
Qed.

Lemma disp_phase_anim_tick tr m : disp_phase (anim_tick tr m) = disp_phase m.
Proof. now destruct (motor_advanced_anim_tick tr m) as [_ H]. Qed.

Lemma motor_phases_anim_start tr fr n d f m :
  motor_phases (trace (anim_start tr fr n d f m)) = motor_phases (trace m).
Proof. unfold anim_start; cbv zeta. now rewrite trace_track_set. Qed.

Lemma disp_phase_anim_start tr fr n d f m :
  disp_phase (anim_start tr fr n d f m) = disp_phase m.
Proof. unfold anim_start; cbv zeta. apply disp_phase_track_set. Qed.

Lemma motor_phases_ticked i m :
  motor_phases (trace (ticked i m)) = motor_phases (trace m).
Proof. unfold ticked. now rewrite !motor_phases_anim_tick. Qed.

Lemma disp_phase_ticked i m : disp_phase (ticked i m) = disp_phase m.
Proof. unfold ticked. now rewrite !disp_phase_anim_tick. Qed.

#[global] Hint Rewrite
  motor_phases_beep_square disp_phase_beep_square
  motor_phases_beep_success disp_phase_beep_success
  motor_phases_beep_keypress disp_phase_beep_keypress
  motor_phases_usleep disp_phase_usleep
  motor_phases_show_image disp_phase_show_image
  motor_phases_lcd_print2 disp_phase_lcd_print2
  motor_phases_menu_screen disp_phase_menu_screen
  motor_phases_service_menu_screen disp_phase_service_menu_screen
  motor_phases_timer_stop_and_blank disp_phase_timer_stop_and_blank
  motor_phases_seg_show_digit disp_phase_seg_show_digit
  motor_phases_timer_update_display disp_phase_timer_update_display
  motor_phases_service_blink_tick disp_phase_service_blink_tick
  motor_phases_wait_key_release disp_phase_wait_key_release
  motor_phases_anim_tick disp_phase_anim_tick
  motor_phases_anim_start disp_phase_anim_start
  motor_phases_ticked disp_phase_ticked : motor.

Ltac motor_norm :=
  repeat first [ progress (autorewrite with motor) | progress ctl_cbn ].

(** What the dispensing block does to the control state when the amount is
    within the stock of the chosen slot. *)
Lemma dispensing_state_ctl (m m' : Machine) :
  slot_ok (items m) (chosen_slot m) ->
  amount m <= stock (item_at (items m) (chosen_slot m)) ->
  dispensing_state m = Some m' ->
  ctl m'
  = ctl (set_amtbuf ""
           (set_selbuf ""
              (set_index_timer_active false
                 (set_pay_zero_count 0
                    (set_total 0
                       (set_amount 0
                          (set_chosen_slot (-1)
                             (set_st ST_MENU
                                (set_items
                                   (set_stock_at (items m) (chosen_slot m)
                                      (stock (item_at (items m) (chosen_slot m))
                                       - amount m)) m))))))))).
Proof.
  destruct m as [c h w];
    destruct c as [s sel amt svc slot am tot pz ita sm gd rd sds rs its ps].
  cbn [ctl items chosen_slot amount]. intros Hslot Ham.
  exec ltac:(cbv beta delta [dispensing_state]).
  all: intro Hc; rewrite Hc; clear Hc; cbn.
  all: try reflexivity.
  all: match goal with
       | H : (stock (item_at (set_stock_at _ _ _) _) <? 0) = true |- _ =>
         rewrite stock_set_stock_at in H by exact Hslot;
         apply Z.ltb_lt in H; lia
       end.
Qed.

(** *** The motor over a chain of statements *)

Lemma motor_view_eq m m' :
  motor_phases (trace m') = motor_phases (trace m) ->
  disp_phase m' = disp_phase m -> motor_view m' = motor_view m.
Proof. unfold motor_view. now intros -> ->. Qed.

(** One statement that leaves the motor alone. *)
Ltac quiet_step :=
  apply motor_view_eq;
  repeat first
    [ reflexivity
    | progress (autorewrite with motor)
    | match goal with
      | |- context [if ?c then _ else _] => destruct c
      end ].

(** Step through [let x := v in K x = Some r], keeping for the machine
    reached so far that its view is the view of the base [b]. *)
Ltac quiet_chain b :=
  repeat lazymatch goal with
         | |- (let x := ?v in @?K x) = Some ?r -> motor_view ?r = motor_view b =>
           let z := fresh "z" in
           let Hz := fresh "Hz" in
           assert (Hz : motor_view v = motor_view b)
             by (first [ solve [quiet_step]
                       | match goal with
                         | Hp : motor_view ?p = motor_view b |- _ =>
                           rewrite <- Hp; solve [quiet_step]
                         end ]);
           revert Hz; generalize v; intros z Hz;
           let t := eval cbv beta in (K z) in
           change (t = Some r -> motor_view r = motor_view b);
           repeat match goal with
                  | Hp : motor_view ?p = motor_view b |- _ =>
                    lazymatch p with z => fail | _ => clear Hp end
                  end
         end.

Lemma dispensing_state_motor (m m' : Machine) :
  active (gDispAnim m) = false -> oneshot_done (gDispAnim m) = false ->
  1 <= amount m ->
  dispensing_state m = Some m' ->
  motor_advanced (Z.to_nat (amount m) * (TOTAL_STEPS_PER_ITEM * 4)) m m'.
Proof.
  intros Ha Hd Ham.
  destruct (dispense_burst_runs (amount m) m Ham) as (Hrun & _ & Ht & Hp).
  cbv zeta in Hrun, Ht, Hp.
  set (u := dispense_units _ _) in *.
  assert (Hu : motor_view u
               = ((motor_phases (trace m)
                   ++ phase_run (disp_phase m)
                        (Z.to_nat (amount m) * (TOTAL_STEPS_PER_ITEM * 4)))%list,
                  phase_after (disp_phase m)
                    (Z.to_nat (amount m) * (TOTAL_STEPS_PER_ITEM * 4))))
    by (unfold motor_view; now rewrite Ht, Hp).
  clearbody u. clear Ht Hp.
  cut (dispensing_state m = Some m' -> motor_view m' = motor_view u).
  { intros H E. specialize (H E). rewrite Hu in H. unfold motor_view in H.
    injection H as H1 H2. split; assumption. }
  cbv beta delta [dispensing_state]. rewrite Ha, Hd.
  cbv beta iota delta [negb andb].
  lazymatch goal with
  | |- (let x := ?v in @?K x) = Some ?r -> ?R =>
    let t := eval cbv beta in (K v) in
    change (t = Some r -> R)
  end.
  rewrite ctl_anim_start, Hrun. cbv beta iota.
  quiet_chain u.
  intros [= <-].
  match goal with
  | Hp : motor_view ?p = motor_view u |- _ => rewrite <- Hp
  end.
  quiet_step.
Qed.

Lemma dispensing_state_returns (m : Machine) :
  active (gDispAnim m) = false -> oneshot_done (gDispAnim m) = false ->
  1 <= amount m ->
  exists m', dispensing_state m = Some m'.
Proof.
  intros Ha Hd Ham.
  destruct (dispense_burst_runs (amount m) m Ham) as (Hrun & _).
  cbv zeta in Hrun.
  destruct (dispensing_state m) as [r|] eqn:E; [now exists r|]. exfalso.
  revert E. cbv beta delta [dispensing_state]. rewrite Ha, Hd.
  cbv beta iota delta [negb andb].
  lazymatch goal with
  | |- (let x := ?v in @?K x) = None -> ?R =>
    let t := eval cbv beta in (K v) in
    change (t = None -> R)
  end.
  rewrite ctl_anim_start, Hrun. cbv beta iota.
  intro E. discriminate E.
Qed.

(** The iteration in DISPENSING, entered with the dispensing track cleared
    and an amount within the stock of the chosen slot: the burst of
    [amount] units runs, the stock of that slot is reduced by the amount,
    and the machine is back in the menu. *)
Lemma dispensing_iteration i m :
  st m = ST_DISPENSING -> service_mode m = false ->
  active (gDispAnim m) = false -> oneshot_done (gDispAnim m) = false ->
  slot_ok (items m) (chosen_slot m) ->
  1 <= amount m <= stock (item_at (items m) (chosen_slot m)) ->
  exists m',
    loop_body i m = Some m'
    /\ ctl m'
       = ctl (set_amtbuf ""
                (set_selbuf ""
                   (set_index_timer_active false
                      (set_pay_zero_count 0
                         (set_total 0
                            (set_amount 0
                               (set_chosen_slot (-1)
                                  (set_st ST_MENU
                                     (set_items
                                        (set_stock_at (items m) (chosen_slot m)
                                           (stock (item_at (items m) (chosen_slot m))
                                            - amount m)) m)))))))))
    /\ motor_advanced (Z.to_nat (amount m) * (TOTAL_STEPS_PER_ITEM * 4)) m m'.
Proof.
  intros Hst Hsm Ha Hd Hslot Ham.
  rewrite loop_body_dispensing by assumption.
  set (y := ticked i m).
  assert (Hc : ctl y = ctl m) by apply ctl_ticked.
  assert (Hg : gDispAnim y = gDispAnim m).
  { unfold y, ticked. rewrite anim_tick_idle.
    - now rewrite gDispAnim_anim_tick_door.
    - left. cbn [track_get]. now rewrite gDispAnim_anim_tick_door. }
  assert (Hv : motor_view y = motor_view m)
    by (apply motor_view_eq; [apply motor_phases_ticked|apply disp_phase_ticked]).
  clearbody y.
  destruct (dispensing_state_returns y) as (r & Er);
    [now rewrite Hg|now rewrite Hg|rewrite Hc; lia|].
  exists r. split; [exact Er|]. split.
  - rewrite (dispensing_state_ctl y r); rewrite ?Hc; try assumption; [|lia].
    norm. reflexivity.
  - apply dispensing_state_motor in Er; [|now rewrite Hg|now rewrite Hg|rewrite Hc; lia].
    rewrite Hc in Er. destruct Er as [H1 H2].
    unfold motor_view in Hv. injection Hv as V1 V2.
    split; [now rewrite H1, V1, V2|now rewrite H2, V2].
Qed.

(** A paid purchase completes.  In PAY with one '0' already typed and the
    countdown running, the second '0' leads to DISPENSING, and the next
    iteration, whatever its input, runs the burst of [amount] units, takes
    exactly the amount off the stock of the chosen item (which stays
    non-negative), leaves every other item alone and returns to the menu
    with the selection cleared. *)
Theorem paid_purchase_completes (m : Machine) (i1 i2 : Input) :
  reachable m -> st m = ST_PAY -> 1 <= pay_zero_count m ->
  key i1 = "0"%char -> alive i1 m ->
  exists m1 m2,
    loop_body i1 m = Some m1 /\ st m1 = ST_DISPENSING
    /\ loop_body i2 m1 = Some m2 /\ st m2 = ST_MENU
    /\ stock (item_at (items m2) (chosen_slot m))
       = stock (item_at (items m) (chosen_slot m)) - amount m
    /\ 0 <= stock (item_at (items m2) (chosen_slot m))
    /\ (forall s, s <> chosen_slot m -> item_at (items m2) s = item_at (items m) s)
    /\ chosen_slot m2 = -1 /\ selbuf m2 = "" /\ amtbuf m2 = ""
    /\ motor_advanced (Z.to_nat (amount m) * (TOTAL_STEPS_PER_ITEM * 4)) m1 m2.
Proof.
  intros Hr Hst Hz Hk Hal.
  destruct (reachable_Inv m Hr) as (Hm & _).
  destruct (reachable_Safe m Hr) as (_ & _ & Hs).
  unfold mode_ok in Hm. unfold slots_ok in Hs. rewrite Hst in Hm, Hs.
  destruct Hm as [Hsm _]. destruct Hs as [Hslot Ham].
  destruct (pay_confirm i1 m Hst Hsm Hal Hk Hz) as (m1 & L1 & C1 & A1 & D1).
  assert (F : st m1 = ST_DISPENSING /\ service_mode m1 = false
              /\ items m1 = items m /\ chosen_slot m1 = chosen_slot m
              /\ amount m1 = amount m)
    by (rewrite C1; cbn; repeat split; assumption).
  destruct F as (F1 & F2 & F3 & F4 & F5).
  destruct (dispensing_iteration i2 m1 F1 F2 A1 D1) as (m2 & L2 & C2 & M2).
  { now rewrite F3, F4. }
  { now rewrite F3, F4, F5. }
  rewrite F3, F4, F5 in C2. rewrite F5 in M2.
  exists m1, m2.
  assert (I2 : items m2
               = set_stock_at (items m) (chosen_slot m)
                   (stock (item_at (items m) (chosen_slot m)) - amount m))
    by (rewrite C2; reflexivity).
  split; [exact L1|]. split; [exact F1|]. split; [exact L2|].
  split; [rewrite C2; reflexivity|].
  rewrite I2, stock_set_stock_at by exact Hslot.
  split; [reflexivity|]. split; [lia|].
  split; [intros s Hne; now apply item_at_set_stock_at_other|].
  rewrite C2. split; [reflexivity|]. split; [reflexivity|]. split; [reflexivity|].
  exact M2.
Qed.

Lemma half_paid_reachable : reachable half_paid.
Proof.
  apply (reachable_run [press "0"] paying).
  - exact paying_reachable.
  - repeat (apply Forall_cons; [cbn; lia|]). apply Forall_nil.
  - vm_compute. reflexivity.
Qed.

Lemma paid_purchase_completes_witness :
  exists m1 m2,
    loop_body (press "0") half_paid = Some m1 /\ st m1 = ST_DISPENSING
    /\ loop_body (idle 20000) m1 = Some m2 /\ st m2 = ST_MENU
    /\ stock (item_at (items m2) (chosen_slot half_paid))
       = stock (item_at (items half_paid) (chosen_slot half_paid))
         - amount half_paid
    /\ 0 <= stock (item_at (items m2) (chosen_slot half_paid))
    /\ (forall s, s <> chosen_slot half_paid ->
                  item_at (items m2) s = item_at (items half_paid) s)
    /\ chosen_slot m2 = -1 /\ selbuf m2 = "" /\ amtbuf m2 = ""
    /\ motor_advanced (Z.to_nat (amount half_paid) * (TOTAL_STEPS_PER_ITEM * 4))
         m1 m2.
Proof.
  apply (paid_purchase_completes half_paid (press "0") (idle 20000)).
  - exact half_paid_reachable.
  - closed_fact.
  - closed_fact.
  - reflexivity.
  - closed_fact.
Defined.

(** ** Cancelling *)

(** BACK in any service state returns to the service menu with the buffers
    and the remembered slots cleared; it changes no stock and leaves the mode
    and the port mapping as they are. *)
Theorem service_back_returns_to_menu i m :
  service_mode m = true -> service_input_state (st m) = true ->
  key i = KEY_BACK ->
  exists m',
    loop_body i m = Some m'
    /\ st m' = ST_SVC_MENU /\ selbuf m' = "" /\ svcbuf m' = ""
    /\ svc_disp_slot m' = -1 /\ restock_slot m' = -1
    /\ items m' = items m /\ service_mode m' = true /\ ports m' = ports m.
Proof.
  intros Hs Hin Hk.
  destruct (service_key i m Hs Hin) as (y & Cy & E); [rewrite Hk; discriminate|].
  rewrite E, Hk. unfold dispatch. rewrite Cy.
  change (KEY_BACK =? KEY_BACK)%char with true.
  exists (on_back y). split.
  - destruct (st m); try discriminate Hin; reflexivity.
  - unfold on_back. rewrite Cy, Hs. cbn [negb]. cbv zeta. norm.
    repeat split; assumption.
Qed.

Lemma service_back_returns_to_menu_witness :
  exists m',
    loop_body (press KEY_BACK) in_service = Some m'
    /\ st m' = ST_SVC_MENU /\ selbuf m' = "" /\ svcbuf m' = ""
    /\ svc_disp_slot m' = -1 /\ restock_slot m' = -1
    /\ items m' = items in_service /\ service_mode m' = true
    /\ ports m' = ports in_service.
Proof.
  apply (service_back_returns_to_menu (press KEY_BACK) in_service).
  - closed_fact.
  - closed_fact.
  - reflexivity.
Defined.

(** In the customer states the iteration reaches the keypad unless the idle
    countdown is shown and has run out. *)
Lemma normal_key i m :
  service_mode m = false ->
  st m = ST_MENU \/ st m = ST_AMOUNT \/ st m = ST_PAY ->
  timer_active m = false \/ alive i m ->
  key i <> KEY_NONE ->
  exists y, ctl y = ctl m /\ loop_body i m = dispatch (key i) y.
Proof.
  intros Hs Hst Ht Hk.
  destruct (timer_active m) eqn:Ea.
  - destruct Ht as [Ht|Ht]; [discriminate|].
    rewrite loop_body_alive, keypad_key by assumption.
    eexists; split; [|reflexivity]. autorewrite with frame. apply ctl_ticked.
  - rewrite loop_body_poll. unfold poll; cbv zeta.
    assert (E : st (ticked i m) = st m) by now rewrite ctl_ticked.
    assert (Hsm : service_mode (ticked i m) = false) by now rewrite ctl_ticked.
    assert (Hta : timer_active (ticked i m) = false)
      by (unfold timer_active in *; now rewrite ctl_ticked).
    rewrite door_transitions_other
      by (rewrite E; destruct Hst as [X|[X|X]]; rewrite X; discriminate).
    rewrite gate_timeouts_other
      by (rewrite E; destruct Hst as [X|[X|X]]; rewrite X; discriminate).
    unfold seven_seg. rewrite Hsm, Hta.
    exists (wait_key_release (held i) (beep_keypress (ticked i m))).
    split; [autorewrite with frame; apply ctl_ticked|].
    rewrite <- keypad_key by assumption.
    rewrite E. destruct Hst as [X|[X|X]]; rewrite X; reflexivity.
Qed.

(** BACK in AMOUNT or PAY, before the countdown runs out, abandons the
    purchase: the machine is back in the menu with no slot chosen and the
    amount buffer cleared, the countdown is stopped, and no stock has
    changed. *)
Theorem purchase_cancelled_by_back i m :
  service_mode m = false -> st m = ST_AMOUNT \/ st m = ST_PAY ->
  alive i m -> key i = KEY_BACK ->
  exists m',
    loop_body i m = Some m'
    /\ st m' = ST_MENU /\ chosen_slot m' = -1 /\ amtbuf m' = ""
    /\ index_timer_active m' = false /\ items m' = items m
    /\ forall t, timer_seconds_left t m' = -1.
Proof.
  intros Hs Hst Hal Hk.
  destruct (normal_key i m Hs) as (y & Cy & E);
    [tauto|now right|rewrite Hk; discriminate|].
  rewrite E, Hk. unfold dispatch. rewrite Cy.
  change (KEY_BACK =? KEY_BACK)%char with true.
  exists (on_back y). split.
  - destruct Hst as [X|X]; rewrite X; reflexivity.
  - unfold on_back. rewrite Cy, Hs. cbn [negb].
    assert (R : forall x : Machine,
               match st m with
               | ST_MENU => x
               | _ =>
                 let m0 := set_st ST_MENU y in
                 let m1 := set_chosen_slot (-1) m0 in
                 let m2 := set_amtbuf "" m1 in
                 let m3 := menu_screen m2 in
                 let m4 := timer_stop_and_blank m3 in
                 set_index_timer_active false m4
               end
               = set_index_timer_active false
                   (timer_stop_and_blank
                      (menu_screen
                         (set_amtbuf "" (set_chosen_slot (-1) (set_st ST_MENU y))))))
      by (intro x; destruct Hst as [X|X]; rewrite X; reflexivity).
    rewrite R. norm.
    repeat split; assumption.
Qed.

Lemma purchase_cancelled_by_back_witness :
  exists m',
    loop_body (press KEY_BACK) paying = Some m'
    /\ st m' = ST_MENU /\ chosen_slot m' = -1 /\ amtbuf m' = ""
    /\ index_timer_active m' = false /\ items m' = items paying
    /\ forall t, timer_seconds_left t m' = -1.
Proof.
  apply (purchase_cancelled_by_back (press KEY_BACK) paying).
  - closed_fact.
  - right. closed_fact.
  - closed_fact.
  - reflexivity.
Defined.

(** ** Selecting an item *)

Lemma dispatch_enter_normal y :
  service_mode y = false -> st y <> ST_SVC_GATE -> st y <> ST_RETURN_GATE ->
  dispatch KEY_ENTER y = Some (on_enter_normal y).
Proof.
  intros Hs H1 H2. unfold dispatch. rewrite Hs. cbn [negb].
  change (KEY_ENTER =? KEY_BACK)%char with false.
  change (isdigit KEY_ENTER) with false.
  change (KEY_ENTER =? KEY_ENTER)%char with true.
  destruct (st y); try reflexivity; congruence.
Qed.

Lemma on_enter_normal_menu (y r : Machine) :
  st y = ST_MENU -> selbuf y <> "" -> selbuf y <> "1234" ->
  ctl r = ctl (on_enter_normal y) ->
  let s := find_slot_by_index (items y) (atoi (selbuf y)) in
  selbuf r = "" /\ items r = items y /\ service_mode r = service_mode y
  /\ (0 <= s /\ 0 < stock (item_at (items y) s) ->
      st r = ST_AMOUNT /\ chosen_slot r = s /\ amtbuf r = "")
  /\ (s < 0 \/ stock (item_at (items y) s) <= 0 ->
      st r = ST_MENU /\ chosen_slot r = -1).
Proof.
  destruct y as [c h w];
    destruct c as [s sel amt svc slot am tot pz ita sm gd rd sds rs its ps].
  cbn [ctl st selbuf items service_mode]. intros -> Hne Hcode.
  exec ltac:(cbv beta delta [on_enter_normal]).
  all: intro Hc; rewrite Hc; clear Hc; cbn.
  all: safe_facts.
  all: try solve [ match goal with
                   | H : (strlen _ =? 0) = true |- _ =>
                     exfalso; apply Hne; now apply strlen_zero
                   end
                 | contradiction ].
  all: match goal with |- context [find_slot_by_index ?a ?b] =>
         pose proof (find_slot_by_index_cases a b) as Hf
       end.
  all: repeat split; first [reflexivity | lia].
Qed.

(** ENTER in the menu on a typed index other than the reserved code: the
    selection buffer is cleared and no stock changes; the machine goes on to
    AMOUNT, with the slot of the item chosen and an empty amount buffer,
    exactly when the index is one of the catalogue and that item is in stock,
    and otherwise stays in the menu with no slot chosen. *)
Theorem menu_selection i m :
  service_mode m = false -> st m = ST_MENU ->
  timer_active m = false \/ alive i m ->
  key i = KEY_ENTER -> selbuf m <> "" -> selbuf m <> "1234" ->
  let s := find_slot_by_index (items m) (atoi (selbuf m)) in
  exists m',
    loop_body i m = Some m'
    /\ selbuf m' = "" /\ items m' = items m /\ service_mode m' = false
    /\ (0 <= s /\ 0 < stock (item_at (items m) s) ->
        st m' = ST_AMOUNT /\ chosen_slot m' = s /\ amtbuf m' = "")
    /\ (s < 0 \/ stock (item_at (items m) s) <= 0 ->
        st m' = ST_MENU /\ chosen_slot m' = -1).
Proof.
  intros Hs Hst Ht Hk Hne Hcode. cbv zeta.
  destruct (normal_key i m Hs) as (y & Cy & E);
    [tauto|assumption|rewrite Hk; discriminate|].
  rewrite E, Hk.
  rewrite dispatch_enter_normal by (rewrite Cy, ?Hst; first [assumption|discriminate]).
  exists (on_enter_normal y). split; [reflexivity|].
  pose proof (on_enter_normal_menu y (on_enter_normal y)) as H.
  cbv zeta in H. rewrite Cy in H.
  destruct (H Hst Hne Hcode eq_refl) as (H1 & H2 & H3 & H4 & H5).
  rewrite Hs in H3. repeat split; try assumption; first [apply H4|apply H5]; assumption.
Qed.

Lemma menu_selection_witness :
  let s := find_slot_by_index (items index_typed) (atoi (selbuf index_typed)) in
  exists m',
    loop_body (press KEY_ENTER) index_typed = Some m'
    /\ selbuf m' = "" /\ items m' = items index_typed /\ service_mode m' = false
    /\ (0 <= s /\ 0 < stock (item_at (items index_typed) s) ->
        st m' = ST_AMOUNT /\ chosen_slot m' = s /\ amtbuf m' = "")
    /\ (s < 0 \/ stock (item_at (items index_typed) s) <= 0 ->
        st m' = ST_MENU /\ chosen_slot m' = -1).
Proof.
  apply (menu_selection (press KEY_ENTER) index_typed).
  - closed_fact.
  - closed_fact.
  - right. closed_fact.
  - reflexivity.
  - closed_fact.
  - closed_fact.
Defined.

(** ** The service dispense and the restock *)

Ltac quiet_chain1 b :=
  lazymatch goal with
  | |- (let x := ?v in @?K x) = Some ?r -> ?R =>
    let z := fresh "z" in
    let Hz := fresh "Hz" in
    assert (Hz : motor_view v = motor_view b)
      by (first [ solve [quiet_step]
                | match goal with
                  | Hp : motor_view ?p = motor_view b |- _ =>
                    rewrite <- Hp; solve [quiet_step]
                  end ]);
    revert Hz; generalize v; intros z Hz;
    let t := eval cbv beta in (K z) in
    change (t = Some r -> R);
    repeat match goal with
           | Hp : motor_view ?p = motor_view b |- _ =>
             lazymatch p with z => fail | _ => clear Hp end
           end
  end.

Lemma service_dispense_motor (y r : Machine) :
  st y = ST_SVC_DISPENSE_AMT -> svcbuf y <> "" ->
  1 <= atoi (svcbuf y) <= 15 ->
  on_enter_service y = Some r ->
  motor_advanced (Z.to_nat (atoi (svcbuf y)) * (TOTAL_STEPS_PER_ITEM * 4)) y r.
Proof.
  intros Hst Hb Hr.
  cbv beta delta [on_enter_service]. rewrite Hst. cbv beta iota.
  destruct (strlen (svcbuf y) =? 0) eqn:E0;
    [apply strlen_zero in E0; contradiction|].
  lazymatch goal with
  | |- (let x := ?v in @?K x) = Some ?r -> ?R =>
    let t := eval cbv beta in (K v) in
    change (t = Some r -> R)
  end.
  rewrite (range_check_passes _ Hr).
  do 3 quiet_chain1 y.
  lazymatch goal with
  | |- (let x := ?v in @?K x) = Some ?r -> ?R =>
    let t := eval cbv beta in (K v) in
    change (t = Some r -> R)
  end.
  match goal with
  | |- context [dispense_burst ?n (anim_start ?t ?f ?k ?d ?ms ?x)] =>
    destruct (dispense_burst_runs n x (proj1 Hr)) as (Hrun & _ & Ht & Hp);
    cbv zeta in Hrun, Ht, Hp; rewrite Hrun
  end.
  cbv beta iota.
  set (u := dispense_units _ _) in *. clearbody u.
  intro E.
  assert (Hu : motor_view r = motor_view u).
  { revert E. repeat quiet_chain1 u. intros [= <-].
    match goal with
    | Hq : motor_view ?p = motor_view u |- _ => rewrite <- Hq
    end.
    quiet_step. }
  match goal with
  | Hq : motor_view _ = motor_view y |- _ =>
    unfold motor_view in Hq; injection Hq as Z1 Z2
  end.
  unfold motor_view in Hu. injection Hu as U1 U2.
  split.
  - now rewrite U1, Ht, Z1, Z2.
  - now rewrite U2, Hp, Z2.
Qed.

Lemma motor_phases_beep_error m :
  motor_phases (trace (beep_error m)) = motor_phases (trace m).
Proof. apply motor_phases_beep_square. Qed.

Lemma disp_phase_beep_error m : disp_phase (beep_error m) = disp_phase m.
Proof. apply disp_phase_beep_square. Qed.

#[global] Hint Rewrite motor_phases_beep_error disp_phase_beep_error : motor.

(** The machine the keypad dispatches on in a service state has seen the
    same motor calls as the machine the iteration started from. *)
Lemma service_key_motor i m :
  service_mode m = true -> service_input_state (st m) = true ->
  key i <> KEY_NONE ->
  exists y, ctl y = ctl m /\ motor_view y = motor_view m
            /\ loop_body i m = dispatch (key i) y.
Proof.
  intros Hs Hst Hk. rewrite loop_body_service, keypad_key by assumption.
  eexists; split; [|split; [|reflexivity]].
  - autorewrite with frame. apply ctl_ticked.
  - apply motor_view_eq; now autorewrite with motor.
Qed.

Lemma service_dispense_reject (y : Machine) :
  st y = ST_SVC_DISPENSE_AMT -> svcbuf y <> "" ->
  atoi (svcbuf y) < 1 \/ 15 < atoi (svcbuf y) ->
  exists r, on_enter_service y = Some r
            /\ ctl r = ctl (set_svcbuf "" y) /\ motor_view r = motor_view y.
Proof.
  intros Hst Hb Hr.
  assert (E : (atoi (svcbuf y) <? 1) || (atoi (svcbuf y) >? 15) = true).
  { apply orb_true_iff. rewrite Z.gtb_ltb. destruct Hr; [left|right]; now apply Z.ltb_lt. }
  cut (forall r, on_enter_service y = Some r ->
                 ctl r = ctl (set_svcbuf "" y) /\ motor_view r = motor_view y).
  { intro H. destruct (on_enter_service y) as [r|] eqn:En.
    - exists r. split; [reflexivity|]. now apply H.
    - exfalso. revert En. cbv beta delta [on_enter_service]. rewrite Hst.
      cbv beta iota. destruct (strlen (svcbuf y) =? 0); [discriminate|].
      cbv zeta. rewrite E. discriminate. }
  intro r.
  cbv beta delta [on_enter_service]. rewrite Hst. cbv beta iota.
  destruct (strlen (svcbuf y) =? 0) eqn:E0;
    [apply strlen_zero in E0; contradiction|].
  lazymatch goal with
  | |- (let x := ?v in @?K x) = Some ?r -> ?R =>
    let t := eval cbv beta in (K v) in
    change (t = Some r -> R)
  end.
  rewrite E. intro H. split.
  - revert H. cbv zeta. intros [= <-]. norm. reflexivity.
  - revert H. repeat quiet_chain1 y. intros [= <-].
    match goal with
    | Hq : motor_view ?p = motor_view y |- _ => rewrite <- Hq
    end.
    quiet_step.
Qed.

(** ENTER on a typed service dispense amount.  An amount of 1 to 15 runs
    the burst (that many units of [TOTAL_STEPS_PER_ITEM * 4] phase writes,
    continuing the rotation) and returns to the service menu; any other
    amount is refused, the motor does not move and the prompt stays, with
    the buffer cleared.  Either way the item array is left as it is: unlike
    the customer dispense, this path takes nothing off the stock. *)
Theorem service_dispense_amount i m :
  service_mode m = true -> st m = ST_SVC_DISPENSE_AMT ->
  key i = KEY_ENTER -> svcbuf m <> "" ->
  exists m',
    loop_body i m = Some m' /\ svcbuf m' = "" /\ items m' = items m
    /\ (1 <= atoi (svcbuf m) <= 15 ->
        st m' = ST_SVC_MENU /\ svc_disp_slot m' = -1
        /\ motor_advanced
             (Z.to_nat (atoi (svcbuf m)) * (TOTAL_STEPS_PER_ITEM * 4)) m m')
    /\ (atoi (svcbuf m) < 1 \/ 15 < atoi (svcbuf m) ->
        st m' = ST_SVC_DISPENSE_AMT /\ motor_advanced 0 m m').
Proof.
  intros Hs Hst Hk Hb.
  destruct (service_key_motor i m Hs) as (y & Cy & Vy & E);
    [now rewrite Hst|rewrite Hk; discriminate|].
  rewrite E, Hk.
  assert (D : dispatch KEY_ENTER y = on_enter_service y)
    by (apply dispatch_enter_service; rewrite Cy, ?Hst;
        first [assumption|discriminate]).
  assert (Sy : st y = ST_SVC_DISPENSE_AMT) by now rewrite Cy.
  assert (By : svcbuf y <> "") by now rewrite Cy.
  unfold motor_view in Vy. injection Vy as V1 V2.
  destruct (Z_le_dec 1 (atoi (svcbuf m))) as [H1|H1];
    [destruct (Z_le_dec (atoi (svcbuf m)) 15) as [H2|H2]|].
  - assert (Ry : 1 <= atoi (svcbuf y) <= 15) by (rewrite Cy; lia).
    destruct (service_dispense_confirm y) as (r & Er & Cr);
      [now rewrite Cy|assumption..|].
    exists r. split; [exact Er|]. rewrite Cr. cbn. rewrite ?Cy.
    split; [reflexivity|]. split; [reflexivity|]. split; [|intro; lia].
    intros _. split; [reflexivity|]. split; [reflexivity|].
    rewrite D in Er.
    destruct (service_dispense_motor y r Sy By Ry Er) as [M1 M2].
    rewrite Cy in M1, M2. split; [now rewrite M1, V1, V2|now rewrite M2, V2].
  - destruct (service_dispense_reject y Sy By) as (r & Er & Cr & Vr);
      [rewrite Cy; lia|].
    rewrite D. exists r. split; [exact Er|]. rewrite Cr. cbn. rewrite ?Cy.
    split; [reflexivity|]. split; [reflexivity|]. split; [intro; lia|].
    intros _. split; [exact Hst|].
    unfold motor_view in Vr. injection Vr as R1 R2.
    apply motor_advanced_refl; congruence.
  - destruct (service_dispense_reject y Sy By) as (r & Er & Cr & Vr);
      [rewrite Cy; lia|].
    rewrite D. exists r. split; [exact Er|]. rewrite Cr. cbn. rewrite ?Cy.
    split; [reflexivity|]. split; [reflexivity|]. split; [intro; lia|].
    intros _. split; [exact Hst|].
    unfold motor_view in Vr. injection Vr as R1 R2.
    apply motor_advanced_refl; congruence.
Qed.

Lemma service_dispense_amount_witness :
  exists m',
    loop_body (press KEY_ENTER) service_amount_typed = Some m'
    /\ svcbuf m' = "" /\ items m' = items service_amount_typed
    /\ (1 <= atoi (svcbuf service_amount_typed) <= 15 ->
        st m' = ST_SVC_MENU /\ svc_disp_slot m' = -1
        /\ motor_advanced
             (Z.to_nat (atoi (svcbuf service_amount_typed))
              * (TOTAL_STEPS_PER_ITEM * 4)) service_amount_typed m')
    /\ (atoi (svcbuf service_amount_typed) < 1
        \/ 15 < atoi (svcbuf service_amount_typed) ->
        st m' = ST_SVC_DISPENSE_AMT /\ motor_advanced 0 service_amount_typed m').
Proof.
  apply (service_dispense_amount (press KEY_ENTER) service_amount_typed).
  - closed_fact.
  - closed_fact.
  - reflexivity.
  - closed_fact.
Defined.

Lemma service_restock_reject (y : Machine) :
  st y = ST_SVC_RESTOCK_QTY -> svcbuf y <> "" ->
  atoi (svcbuf y) < 1 \/ 15 < atoi (svcbuf y) ->
  exists r, on_enter_service y = Some r /\ ctl r = ctl (set_svcbuf "" y).
Proof.
  intros Hst Hb Hr.
  assert (E : (atoi (svcbuf y) <? 1) || (atoi (svcbuf y) >? 15) = true).
  { apply orb_true_iff. rewrite Z.gtb_ltb. destruct Hr; [left|right]; now apply Z.ltb_lt. }
  unfold on_enter_service. rewrite Hst.
  destruct (strlen (svcbuf y) =? 0) eqn:E0;
    [apply strlen_zero in E0; contradiction|].
  cbv zeta. rewrite E.
  eexists; split; [reflexivity|]. norm. reflexivity.
Qed.

(** ENTER on a typed restock quantity.  A quantity of 1 to 15 becomes the
    stock of the remembered slot, whatever it was, and of that slot only,
    and the machine returns to the service menu; any other quantity is
    refused, no stock changes and the prompt stays, with the buffer
    cleared. *)
Theorem restock_quantity i m :
  reachable m -> st m = ST_SVC_RESTOCK_QTY ->
  key i = KEY_ENTER -> svcbuf m <> "" ->
  exists m',
    loop_body i m = Some m' /\ svcbuf m' = ""
    /\ (1 <= atoi (svcbuf m) <= 15 ->
        st m' = ST_SVC_MENU /\ restock_slot m' = -1
        /\ stock (item_at (items m') (restock_slot m)) = atoi (svcbuf m)
        /\ forall s, s <> restock_slot m ->
                     item_at (items m') s = item_at (items m) s)
    /\ (atoi (svcbuf m) < 1 \/ 15 < atoi (svcbuf m) ->
        st m' = ST_SVC_RESTOCK_QTY /\ items m' = items m
        /\ restock_slot m' = restock_slot m).
Proof.
  intros Hr Hst Hk Hb.
  destruct (reachable_Inv m Hr) as (Hm & _).
  destruct (reachable_Safe m Hr) as (_ & _ & Hsl).
  unfold mode_ok in Hm. unfold slots_ok in Hsl. rewrite Hst in Hm, Hsl.
  destruct Hm as [Hs _].
  destruct (service_key i m Hs) as (y & Cy & E);
    [now rewrite Hst|rewrite Hk; discriminate|].
  rewrite E, Hk.
  assert (D : dispatch KEY_ENTER y = on_enter_service y)
    by (apply dispatch_enter_service; rewrite Cy, ?Hst;
        first [assumption|discriminate]).
  assert (Sy : st y = ST_SVC_RESTOCK_QTY) by now rewrite Cy.
  assert (By : svcbuf y <> "") by now rewrite Cy.
  destruct (Z_le_dec 1 (atoi (svcbuf m))) as [H1|H1];
    [destruct (Z_le_dec (atoi (svcbuf m)) 15) as [H2|H2]|].
  - destruct (service_restock_confirm y) as (r & Er & Cr);
      [now rewrite Cy|assumption..|rewrite Cy; lia|].
    exists r. split; [exact Er|]. rewrite Cr. cbn. rewrite ?Cy.
    split; [reflexivity|]. split; [|intro; lia].
    intros _. split; [reflexivity|]. split; [reflexivity|].
    split; [now apply stock_set_stock_at|].
    intros s Hne. now apply item_at_set_stock_at_other.
  - destruct (service_restock_reject y Sy By) as (r & Er & Cr); [rewrite Cy; lia|].
    rewrite D. exists r. split; [exact Er|]. rewrite Cr. cbn. rewrite ?Cy.
    split; [reflexivity|]. split; [intro; lia|]. intros _. now repeat split.
  - destruct (service_restock_reject y Sy By) as (r & Er & Cr); [rewrite Cy; lia|].
    rewrite D. exists r. split; [exact Er|]. rewrite Cr. cbn. rewrite ?Cy.
    split; [reflexivity|]. split; [intro; lia|]. intros _. now repeat split.
Qed.

Lemma restock_quantity_typed_reachable : reachable restock_quantity_typed.
Proof.
  apply (reachable_run (map press ["2"; KEY_ENTER; "8"; KEY_ENTER; "9"]%char)
           in_service).
  - exact in_service_reachable.
  - repeat (apply Forall_cons; [cbn; lia|]). apply Forall_nil.
  - vm_compute. reflexivity.
Qed.

Lemma restock_quantity_witness :
  exists m',
    loop_body (press KEY_ENTER) restock_quantity_typed = Some m' /\ svcbuf m' = ""
    /\ (1 <= atoi (svcbuf restock_quantity_typed) <= 15 ->
        st m' = ST_SVC_MENU /\ restock_slot m' = -1
        /\ stock (item_at (items m') (restock_slot restock_quantity_typed))
           = atoi (svcbuf restock_quantity_typed)
        /\ forall s, s <> restock_slot restock_quantity_typed ->
                     item_at (items m') s = item_at (items restock_quantity_typed) s)
    /\ (atoi (svcbuf restock_quantity_typed) < 1
        \/ 15 < atoi (svcbuf restock_quantity_typed) ->
        st m' = ST_SVC_RESTOCK_QTY /\ items m' = items restock_quantity_typed
        /\ restock_slot m' = restock_slot restock_quantity_typed).
Proof.
  apply (restock_quantity (press KEY_ENTER) restock_quantity_typed).
  - exact restock_quantity_typed_reachable.
  - closed_fact.
  - reflexivity.
  - closed_fact.
Defined.

(** ** Keys during a door animation *)

Lemma door_transitions_running m :
  st m = ST_DOOR_OPENING \/ st m = ST_DOOR_CLOSING ->
  oneshot_done (gDoorAnim m) = false -> door_transitions m = m.
Proof.
  intros Hst Hd. unfold door_transitions; cbv zeta.
  destruct Hst as [E|E]; rewrite E, Hd; cbv beta iota; rewrite E, ?Hd; reflexivity.
Qed.

(** The keypad is live while a door animation runs: BACK pressed before the
    animation completes takes the machine straight to the service menu, in
    service mode and with the port mapping it had.  Pressed during the
    closing animation it thereby abandons the return to the customer mode. *)
Theorem back_skips_door_animation i m :
  service_mode m = true ->
  st m = ST_DOOR_OPENING \/ st m = ST_DOOR_CLOSING ->
  oneshot_done (gDoorAnim (ticked i m)) = false ->
  key i = KEY_BACK ->
  exists m',
    loop_body i m = Some m'
    /\ st m' = ST_SVC_MENU /\ service_mode m' = true /\ ports m' = ports m
    /\ items m' = items m.
Proof.
  intros Hs Hst Hd Hk.
  rewrite loop_body_poll. unfold poll; cbv zeta.
  assert (E : st (ticked i m) = st m) by now rewrite ctl_ticked.
  assert (Hsm : service_mode (ticked i m) = true) by now rewrite ctl_ticked.
  rewrite door_transitions_running by (rewrite ?E; assumption).
  rewrite gate_timeouts_other
    by (rewrite E; destruct Hst as [X|X]; rewrite X; discriminate).
  rewrite seven_seg_service by assumption.
  rewrite ctl_service_blink_tick.
  assert (K : forall x y0 : option Machine,
             match st (ticked i m) with ST_DISPENSING => x | _ => y0 end = y0)
    by (intros x y0; rewrite E; destruct Hst as [X|X]; rewrite X; reflexivity).
  rewrite K, keypad_key by (rewrite Hk; discriminate).
  set (y := wait_key_release _ _).
  assert (Cy : ctl y = ctl m) by (unfold y; autorewrite with frame; apply ctl_ticked).
  rewrite Hk. unfold dispatch. rewrite Cy.
  change (KEY_BACK =? KEY_BACK)%char with true.
  exists (on_back y). split.
  - destruct Hst as [X|X]; rewrite X; reflexivity.
  - unfold on_back. rewrite Cy, Hs. cbn [negb]. cbv zeta. norm.
    repeat split; assumption.
Qed.

Lemma back_skips_door_animation_witness :
  exists m',
    loop_body (press KEY_BACK) door_opening = Some m'
    /\ st m' = ST_SVC_MENU /\ service_mode m' = true
    /\ ports m' = ports door_opening /\ items m' = items door_opening.
Proof.
  apply (back_skips_door_animation (press KEY_BACK) door_opening).
  - closed_fact.
  - left. closed_fact.
  - closed_fact.
  - reflexivity.
Defined.

(** ** Mode and mapping by state *)

(** In every reachable state the state determines the mode flag and the
    port mapping: the customer states run in normal mode on the normal
    mapping; the service gate still in normal mode but already on the admin
    mapping; the door opening in service mode on the admin mapping; the
    return gate and the door closing in service mode but already on the
    normal mapping; the service menu and its functions in service mode, on
    either mapping. *)
Theorem mode_and_mapping_by_state m :
  reachable m ->
  (st m = ST_MENU \/ st m = ST_AMOUNT \/ st m = ST_PAY \/ st m = ST_DISPENSING ->
   service_mode m = false /\ ports m = ports_normal)
  /\ (st m = ST_SVC_GATE -> service_mode m = false /\ ports m = ports_admin)
  /\ (st m = ST_DOOR_OPENING -> service_mode m = true /\ ports m = ports_admin)
  /\ (st m = ST_RETURN_GATE \/ st m = ST_DOOR_CLOSING ->
      service_mode m = true /\ ports m = ports_normal)
  /\ (service_input_state (st m) = true ->
      service_mode m = true /\ (ports m = ports_admin \/ ports m = ports_normal)).
Proof.
  intro Hr. destruct (reachable_Inv m Hr) as (Hm & _). unfold mode_ok in Hm.
  split; [|split; [|split; [|split]]]; intro E;
    repeat match type of E with _ \/ _ => destruct E as [E|E] end;
    try (rewrite E in Hm; exact Hm);
    destruct (st m); try discriminate E; exact Hm.
Qed.

Lemma mode_and_mapping_by_state_witness :
  (st in_service = ST_MENU \/ st in_service = ST_AMOUNT \/ st in_service = ST_PAY
   \/ st in_service = ST_DISPENSING ->
   service_mode in_service = false /\ ports in_service = ports_normal)
  /\ (st in_service = ST_SVC_GATE ->
      service_mode in_service = false /\ ports in_service = ports_admin)
  /\ (st in_service = ST_DOOR_OPENING ->
      service_mode in_service = true /\ ports in_service = ports_admin)
  /\ (st in_service = ST_RETURN_GATE \/ st in_service = ST_DOOR_CLOSING ->
      service_mode in_service = true /\ ports in_service = ports_normal)
  /\ (service_input_state (st in_service) = true ->
      service_mode in_service = true
      /\ (ports in_service = ports_admin \/ ports in_service = ports_normal)).
Proof. apply (mode_and_mapping_by_state in_service). exact in_service_reachable. Defined.

(** ** The idle countdown running out *)

(** When the idle countdown has run out at the start of an iteration, the
    purchase under way is abandoned: the machine is in the menu with both
    buffers empty and no slot chosen, the countdown is stopped, and no
    stock has changed. *)
Theorem idle_timeout_abandons_purchase i m :
  idle_expires i m ->
  exists m',
    loop_body i m = Some m'
    /\ st m' = ST_MENU /\ selbuf m' = "" /\ amtbuf m' = "" /\ chosen_slot m' = -1
    /\ index_timer_active m' = false /\ items m' = items m
    /\ forall t, timer_seconds_left t m' = -1.
Proof.
  intros (Hsm & Ha & Hl).
  rewrite loop_body_poll. unfold poll; cbv zeta.
  assert (E : st (ticked i m) = st m) by now rewrite ctl_ticked.
  assert (Hs : service_mode (ticked i m) = false) by now rewrite ctl_ticked.
  assert (Hta : timer_active (ticked i m) = true)
    by (unfold timer_active in *; now rewrite ctl_ticked).
  assert (Hz : timer_seconds_left (now_ms (usleep (elapsed i) m)) (ticked i m) = 0)
    by now rewrite (timer_seconds_left_ext _ _ m (idle_deadline_ticked i m)).
  destruct (timer_active_st m Ha) as [X|[X|X]];
    (rewrite door_transitions_other by (rewrite E, X; discriminate));
    (rewrite gate_timeouts_other by (rewrite E, X; discriminate));
    unfold seven_seg; rewrite Hs, Hta; cbv zeta;
    rewrite (timer_seconds_left_ext _ _ (ticked i m)
               (idle_deadline_timer_update_display _ (ticked i m)));
    rewrite Hz; cbn [Z.eqb];
    (eexists; split; [reflexivity|]);
    norm; rewrite ctl_ticked; repeat split.
Qed.

Lemma idle_timeout_abandons_purchase_witness :
  exists m',
    loop_body (idle 10000000) paying = Some m'
    /\ st m' = ST_MENU /\ selbuf m' = "" /\ amtbuf m' = "" /\ chosen_slot m' = -1
    /\ index_timer_active m' = false /\ items m' = items paying
    /\ forall t, timer_seconds_left t m' = -1.
Proof.
  apply (idle_timeout_abandons_purchase (idle 10000000) paying).
  closed_fact.
Defined.

(** ** A restock followed by a service dispense *)

Lemma dispense_entry_sequence m (keys : list Input) :
  service_mode m = true -> st m = ST_SVC_MENU -> selbuf m = "" ->
  0 <= find_slot_by_index (items m) 8 ->
  map key keys = ["1"; KEY_ENTER; "8"; KEY_ENTER; "5"]%char ->
  exists m',
    run keys m = Some m'
    /\ service_mode m' = true /\ st m' = ST_SVC_DISPENSE_AMT
    /\ svcbuf m' = "5" /\ selbuf m' = ""
    /\ svc_disp_slot m' = find_slot_by_index (items m) 8
    /\ items m' = items m.
Proof.
  intros Hs Hst Hsel Hf Hk.
  destruct keys as [|i1 [|i2 [|i3 [|i4 [|i5 [|]]]]]]; try discriminate Hk.
  injection Hk as K1 K2 K3 K4 K5.
  svc_step (service_menu_digit "1"%char); [svc_facts..|].
  svc_step (service_menu_select "1" ST_SVC_DISPENSE_IDX); [svc_facts..|].
  svc_step (service_function_digit "8"%char); [svc_facts..|].
  svc_step service_dispense_index; [svc_facts..|].
  svc_step (service_function_digit "5"%char); [svc_facts..|].
  eexists; split; [reflexivity|]. rewrite Cr3. cbn. repeat split.
Qed.

(** ENTER on a service dispense amount of 1 to 15: the burst runs and the
    machine returns to the service menu with the item array as it was. *)
Lemma service_dispense_confirmed i m :
  service_mode m = true -> st m = ST_SVC_DISPENSE_AMT ->
  key i = KEY_ENTER -> svcbuf m <> "" -> 1 <= atoi (svcbuf m) <= 15 ->
  exists m',
    loop_body i m = Some m' /\ st m' = ST_SVC_MENU /\ items m' = items m
    /\ motor_advanced
         (Z.to_nat (atoi (svcbuf m)) * (TOTAL_STEPS_PER_ITEM * 4)) m m'.
Proof.
  intros Hs Hst Hk Hb Hr.
  destruct (service_key_motor i m Hs) as (y & Cy & Vy & E);
    [now rewrite Hst|rewrite Hk; discriminate|].
  rewrite E, Hk.
  assert (D : dispatch KEY_ENTER y = on_enter_service y)
    by (apply dispatch_enter_service; rewrite Cy, ?Hst;
        first [assumption|discriminate]).
  assert (Sy : st y = ST_SVC_DISPENSE_AMT) by now rewrite Cy.
  assert (By : svcbuf y <> "") by now rewrite Cy.
  assert (Ry : 1 <= atoi (svcbuf y) <= 15) by now rewrite Cy.
  unfold motor_view in Vy. injection Vy as V1 V2.
  destruct (service_dispense_confirm y) as (r & Er & Cr);
    [now rewrite Cy|assumption..|].
  exists r. split; [exact Er|]. rewrite Cr. cbn. rewrite ?Cy.
  split; [reflexivity|]. split; [reflexivity|].
  rewrite D in Er.
  destruct (service_dispense_motor y r Sy By Ry Er) as [M1 M2].
  rewrite Cy in M1, M2. split; [now rewrite M1, V1, V2|now rewrite M2, V2].
Qed.

(** C2 (a defect of the code).  From the service menu of any machine whose
    catalogue has an item of index 8, the keys 2 B 8 B 5 B restock that item
    to 5 whatever its stock was; the keys 1 B 8 B 5 then lead to the amount
    step of the service dispense with the slot of that item remembered, and
    ENTER runs the burst: the motor is stepped
    [5 * (TOTAL_STEPS_PER_ITEM * 4)] times in rotation, five units leave the
    machine, and the machine returns to the service menu.  The customer
    dispense subtracts the amount from the stock after the same burst; this
    path misses that statement: the item array is the one the restock left,
    and the stock of the item reads 5 where 0 units remain. *)
Theorem restock_then_service_dispense
    (m : Machine) (restock dispense : list Input) (confirm : Input) :
  service_mode m = true -> st m = ST_SVC_MENU -> selbuf m = "" ->
  0 <= find_slot_by_index (items m) 8 ->
  map key restock = ["2"; KEY_ENTER; "8"; KEY_ENTER; "5"; KEY_ENTER]%char ->
  map key dispense = ["1"; KEY_ENTER; "8"; KEY_ENTER; "5"]%char ->
  key confirm = KEY_ENTER ->
  exists m1 m2 m3,
    run restock m = Some m1
    /\ stock (item_at (items m1) (find_slot_by_index (items m1) 8)) = 5
    /\ run dispense m1 = Some m2
    /\ st m2 = ST_SVC_DISPENSE_AMT
    /\ svc_disp_slot m2 = find_slot_by_index (items m1) 8
    /\ loop_body confirm m2 = Some m3
    /\ motor_advanced (5 * (TOTAL_STEPS_PER_ITEM * 4)) m2 m3
    /\ st m3 = ST_SVC_MENU
    /\ items m3 = items m1
    /\ stock (item_at (items m3) (find_slot_by_index (items m3) 8)) = 5.
Proof.
  intros Hs Hst Hsel Hf Hr Hd Hc.
  destruct (restock_sequence m restock Hs Hst Hsel Hf Hr)
    as (m1 & R1 & S1 & T1 & B1 & I1).
  assert (F : 0 <= find_slot_by_index (items m1) 8)
    by now rewrite I1, find_slot_by_index_set_stock_at.
  assert (K : stock (item_at (items m1) (find_slot_by_index (items m1) 8)) = 5)
    by (rewrite I1, find_slot_by_index_set_stock_at; now apply stock_restocked).
  destruct (dispense_entry_sequence m1 dispense S1 T1 B1 F Hd)
    as (m2 & R2 & S2 & T2 & V2 & _ & D2 & I2).
  destruct (service_dispense_confirmed confirm m2 S2 T2 Hc)
    as (m3 & L3 & T3 & I3 & M3).
  { rewrite V2. discriminate. }
  { rewrite V2. change (atoi "5") with 5. lia. }
  rewrite V2 in M3. change (Z.to_nat (atoi "5")) with 5%nat in M3.
  exists m1, m2, m3. rewrite I3, I2.
  split; [exact R1|]. split; [exact K|]. split; [exact R2|].
  split; [exact T2|]. split; [exact D2|]. split; [exact L3|].
  split; [exact M3|]. split; [exact T3|]. split; [reflexivity|exact K].
Qed.

Lemma restock_then_service_dispense_witness :
  exists m1 m2 m3,
    run (map press ["2"; KEY_ENTER; "8"; KEY_ENTER; "5"; KEY_ENTER]%char) in_service
    = Some m1
    /\ stock (item_at (items m1) (find_slot_by_index (items m1) 8)) = 5
    /\ run (map press ["1"; KEY_ENTER; "8"; KEY_ENTER; "5"]%char) m1 = Some m2
    /\ st m2 = ST_SVC_DISPENSE_AMT
    /\ svc_disp_slot m2 = find_slot_by_index (items m1) 8
    /\ loop_body (press KEY_ENTER) m2 = Some m3
    /\ motor_advanced (5 * (TOTAL_STEPS_PER_ITEM * 4)) m2 m3
    /\ st m3 = ST_SVC_MENU
    /\ items m3 = items m1
    /\ stock (item_at (items m3) (find_slot_by_index (items m3) 8)) = 5.
Proof.
  apply (restock_then_service_dispense in_service).
  - closed_fact.
  - closed_fact.
  - closed_fact.
  - closed_fact.
  - reflexivity.
  - reflexivity.
  - reflexivity.
Defined.

(** ** The image viewers: the ring of [show_image] *)

Section Viewers.
Import Pqiv.

Lemma ring_upd_length ring i p : List.length (ring_upd ring i p) = List.length ring.
Proof.
  revert i; induction ring as [|x r IH]; intro i; [reflexivity|].
  destruct i; cbn [ring_upd List.length]; [reflexivity|]. now rewrite IH.
Qed.

Lemma skipn_ring_upd ring : forall i p,
  skipn (S i) (ring_upd ring i p) = skipn (S i) ring.
Proof.
  induction ring as [|x r IH]; intros i p; [reflexivity|].
  destruct i; cbn [ring_upd skipn]; [reflexivity|]. apply IH.
Qed.

Lemma firstn_ring_upd ring : forall i p,
  firstn i (ring_upd ring i p) = firstn i ring.
Proof.
  induction ring as [|x r IH]; intros i p; [reflexivity|].
  destruct i; cbn [ring_upd firstn]; [reflexivity|]. now rewrite IH.
Qed.

Lemma nth_ring_upd ring : forall i p,
  (i < List.length ring)%nat -> nth i (ring_upd ring i p) 0 = p.
Proof.
  induction ring as [|x r IH]; intros i p H; cbn [List.length] in H; [lia|].
  destruct i; cbn [ring_upd nth]; [reflexivity|]. apply IH. lia.
Qed.

Lemma nth_ring_upd_other ring : forall i j p,
  i <> j -> nth j (ring_upd ring i p) 0 = nth j ring 0.
Proof.
  induction ring as [|x r IH]; intros i j p H; [reflexivity|].
  destruct i, j; cbn [ring_upd nth]; try reflexivity; [congruence|].
  apply IH. congruence.
Qed.

Lemma skipn_nth_Z (l : list Z) : forall i,
  (i < List.length l)%nat -> skipn i l = nth i l 0 :: skipn (S i) l.
Proof.
  induction l as [|x l IH]; intros i H; cbn [List.length] in H; [lia|].
  destruct i; [reflexivity|]. cbn [skipn nth]. apply IH. lia.
Qed.

Lemma firstn_succ_Z (l : list Z) : forall i,
  (i < List.length l)%nat -> firstn (S i) l = (firstn i l ++ [nth i l 0])%list.
Proof.
  induction l as [|x l IH]; intros i H; cbn [List.length] in H; [lia|].
  destruct i; [reflexivity|].
  change (firstn (S (S i)) (x :: l)) with (x :: firstn (S i) l).
  rewrite IH by lia. reflexivity.
Qed.

(** The ring read from slot [i] on starts with that slot. *)
Lemma rotate_head ring i :
  0 <= i < Z.of_nat (List.length ring) ->
  rotate i ring
  = ring_get ring i
    :: (skipn (S (Z.to_nat i)) ring ++ firstn (Z.to_nat i) ring)%list.
Proof.
  intro H. unfold rotate, ring_get. rewrite skipn_nth_Z by lia. reflexivity.
Qed.

(** After slot [i] is written and the position moves on, the ring read from
    the new position ends with the value written. *)
Lemma rotate_next ring i p :
  List.length ring = 8%nat -> 0 <= i < 8 ->
  rotate (Z.rem (i + 1) PQIV_KEEP) (ring_upd ring (Z.to_nat i) p)
  = ((skipn (S (Z.to_nat i)) ring ++ firstn (Z.to_nat i) ring) ++ [p])%list.
Proof.
  intros Hl Hi. unfold rotate, PQIV_KEEP.
  destruct (Z.eq_dec i 7) as [->|Hn].
  - change (Z.rem (7 + 1) 8) with 0. change (Z.to_nat 0) with O.
    set (k := Z.to_nat 7).
    assert (Hk : k = 7%nat) by reflexivity.
    rewrite (skipn_all2 ring) by (rewrite Hl, Hk; lia).
    rewrite skipn_O, firstn_O, app_nil_r, app_nil_l.
    rewrite <- (firstn_all (ring_upd ring k p)) at 1.
    rewrite ring_upd_length, Hl.
    replace 8%nat with (S k) by (rewrite Hk; reflexivity).
    rewrite firstn_succ_Z by (rewrite ring_upd_length, Hl, Hk; lia).
    rewrite firstn_ring_upd, nth_ring_upd by (rewrite Hl, Hk; lia).
    reflexivity.
  - rewrite Z.rem_small by lia.
    replace (Z.to_nat (i + 1)) with (S (Z.to_nat i)) by lia.
    rewrite skipn_ring_upd.
    rewrite firstn_succ_Z by (rewrite ring_upd_length, Hl; lia).
    rewrite firstn_ring_upd, nth_ring_upd by (rewrite Hl; lia).
    now rewrite app_assoc.
Qed.

Lemma live_app a b : live (a ++ b) = (live a ++ live b)%list.
Proof. apply filter_app. Qed.

Lemma recycle_spec v :
  ring_ok v ->
  let i := Z.to_nat (pqiv_pos v) in
  let v1 := recycle v in
  List.length (pqiv_ring v1) = 8%nat
  /\ pqiv_pos v1 = pqiv_pos v /\ pqiv_count v1 = pqiv_count v
  /\ ring_get (pqiv_ring v1) (pqiv_pos v) = 0
  /\ (forall j, j <> i -> nth j (pqiv_ring v1) 0 = nth j (pqiv_ring v) 0)
  /\ alive (calls v1)
     = live (skipn (S i) (pqiv_ring v1) ++ firstn i (pqiv_ring v1))
  /\ match victim v with
     | Some p =>
       calls v1 = Kill p SIGKILL :: Sleep 60000 :: Kill p SIGTERM :: calls v
       /\ alive (calls v) = p :: alive (calls v1)
     | None => calls v1 = calls v
     end.
Proof.
  intros (Hl & Hp & Hc & Hfill & Ha). cbv zeta.
  unfold PQIV_KEEP in *.
  assert (Hi : (Z.to_nat (pqiv_pos v) < List.length (pqiv_ring v))%nat) by lia.
  rewrite rotate_head in Ha by lia.
  set (rest := (skipn (S (Z.to_nat (pqiv_pos v))) (pqiv_ring v)
                ++ firstn (Z.to_nat (pqiv_pos v)) (pqiv_ring v))%list) in *.
  unfold recycle, victim, PQIV_KEEP.
  destruct (pqiv_count v >=? 8) eqn:Ec.
  - cbv zeta. cbn [andb].
    assert (R : forall w, pqiv_ring w = pqiv_ring v -> pqiv_pos w = pqiv_pos v ->
                  List.length (pqiv_ring (ring_set (pqiv_pos w) 0 w)) = 8%nat
                  /\ ring_get (pqiv_ring (ring_set (pqiv_pos w) 0 w)) (pqiv_pos v) = 0
                  /\ (forall j, j <> Z.to_nat (pqiv_pos v) ->
                        nth j (pqiv_ring (ring_set (pqiv_pos w) 0 w)) 0
                        = nth j (pqiv_ring v) 0)
                  /\ (skipn (S (Z.to_nat (pqiv_pos v)))
                        (pqiv_ring (ring_set (pqiv_pos w) 0 w))
                      ++ firstn (Z.to_nat (pqiv_pos v))
                           (pqiv_ring (ring_set (pqiv_pos w) 0 w)))%list = rest).
    { intros w Hr Hw. unfold ring_set, ring_get. cbn [pqiv_ring]. rewrite Hr, Hw.
      rewrite ring_upd_length, skipn_ring_upd, firstn_ring_upd, nth_ring_upd by lia.
      repeat split; try assumption.
      intros j Hj. apply nth_ring_upd_other. congruence. }
    unfold kill_pid_soft_hard.
    destruct (ring_get (pqiv_ring v) (pqiv_pos v) <=? 0) eqn:Eg.
    + apply Z.leb_le in Eg.
      assert (E0 : (0 <? ring_get (pqiv_ring v) (pqiv_pos v)) = false)
        by (apply Z.ltb_ge; lia).
      rewrite E0. destruct (R v eq_refl eq_refl) as (R1 & R2 & R3 & R4).
      rewrite R4. repeat split; try assumption.
      change (alive (calls v) = live rest).
      rewrite Ha. unfold live. cbn [filter]. now rewrite E0.
    + apply Z.leb_gt in Eg.
      assert (E0 : (0 <? ring_get (pqiv_ring v) (pqiv_pos v)) = true)
        by now apply Z.ltb_lt.
      rewrite E0.
      set (w := log _ (log _ (log _ v))).
      destruct (R w eq_refl eq_refl) as (R1 & R2 & R3 & R4).
      rewrite R4.
      assert (Hal : alive (calls v)
                    = ring_get (pqiv_ring v) (pqiv_pos v) :: live rest)
        by (rewrite Ha; unfold live; cbn [filter]; now rewrite E0).
      assert (Hw : alive (calls w) = live rest).
      { unfold w, log. cbn [calls alive]. unfold SIGKILL, SIGTERM. cbn [Z.eqb Pos.eqb].
        rewrite Hal. cbn [remove_first]. now rewrite Z.eqb_refl. }
      repeat split; try assumption; try reflexivity.
      change (alive (calls v)
              = ring_get (pqiv_ring v) (pqiv_pos v) :: alive (calls w)).
      now rewrite Hal, Hw.
  - cbn [andb].
    assert (Hlt : pqiv_count v < 8) by (rewrite Z.geb_leb in Ec; apply Z.leb_gt in Ec; lia).
    destruct (Hfill Hlt) as [Hpc Hz].
    assert (Hg : ring_get (pqiv_ring v) (pqiv_pos v) = 0)
      by (unfold ring_get; apply Hz; rewrite Hpc; lia).
    repeat split; try assumption.
    rewrite Ha, Hg. reflexivity.
Qed.

Lemma show_image_recycle path pid v :
  show_image path pid v
  = log (Sleep 25000)
      (let v := log (Fork path pid) (recycle v) in
       if pid >? 0 then
         let v := ring_set (pqiv_pos v) pid v in
         let v := set_pos (Z.rem (pqiv_pos v + 1) PQIV_KEEP) v in
         if pqiv_count v <? PQIV_KEEP then set_count (pqiv_count v + 1) v else v
       else v).
Proof. reflexivity. Qed.

Lemma live_single p : 0 < p -> live [p] = [p].
Proof. intro H. unfold live. cbn [filter]. apply Z.ltb_lt in H. now rewrite H. Qed.

(** One call of [show_image] on a well-formed ring: the ring stays well
    formed, and the viewers alive are those of before without the victim,
    with the new one last. *)
Lemma show_image_step path pid v :
  ring_ok v ->
  ring_ok (show_image path pid v)
  /\ (alive (calls v)
      = match victim v with Some p => [p] | None => [] end
        ++ alive (calls (recycle v)))%list
  /\ alive (calls (show_image path pid v))
     = (alive (calls (recycle v)) ++ (if pid >? 0 then [pid] else []))%list
  /\ slept (calls (show_image path pid v))
     = slept (calls v) + 25000
       + match victim v with Some _ => 60000 | None => 0 end.
Proof.
  intro Hok. pose proof (recycle_spec v Hok) as Hr. cbv zeta in Hr.
  destruct Hok as (Hl & Hp & Hc & Hfill & Ha).
  destruct Hr as (L1 & P1 & C1 & G1 & N1 & A1 & V1).
  rewrite show_image_recycle.
  set (v1 := recycle v) in *.
  set (i := Z.to_nat (pqiv_pos v)) in *.
  unfold PQIV_KEEP in *.
  assert (Hvict : (alive (calls v)
                   = match victim v with Some p => [p] | None => [] end
                     ++ alive (calls v1))%list
                  /\ slept (calls v1)
                     = slept (calls v)
                       + match victim v with Some _ => 60000 | None => 0 end).
  { destruct (victim v) as [p|].
    - destruct V1 as [V1 V2]. split; [exact V2|]. rewrite V1. cbn [slept]. lia.
    - rewrite V1. split; [reflexivity|lia]. }
  destruct Hvict as [Hv1 Hv2].
  split; [|split; [exact Hv1|]].
  - (* the ring after the call *)
    destruct (pid >? 0) eqn:Epid.
    + apply Z.gtb_lt in Epid. cbv zeta.
      unfold log, ring_set, set_pos, set_count, ring_ok, PQIV_KEEP.
      cbn [pqiv_ring pqiv_pos pqiv_count calls].
      rewrite P1, C1.
      assert (Hrem : 0 <= Z.rem (pqiv_pos v + 1) 8 < 8).
      { pose proof (Z.rem_bound_pos (pqiv_pos v + 1) 8 ltac:(lia) ltac:(lia)). lia. }
      assert (Hrot : live (rotate (Z.rem (pqiv_pos v + 1) 8)
                             (ring_upd (pqiv_ring v1) i pid))
                     = (alive (calls v1) ++ [pid])%list).
      { pose proof (rotate_next (pqiv_ring v1) (pqiv_pos v) pid L1 Hp) as R.
        unfold PQIV_KEEP in R. fold i in R. rewrite R.
        rewrite live_app, live_single by lia. now rewrite A1. }
      destruct (pqiv_count v <? 8) eqn:Ec; cbn [pqiv_ring pqiv_pos pqiv_count calls alive].
      * apply Z.ltb_lt in Ec. destruct (Hfill Ec) as [Hpc Hz].
        apply Z.gtb_lt in Epid. rewrite Epid.
        rewrite ring_upd_length. split; [exact L1|]. split; [exact Hrem|].
        split; [lia|]. split; [|symmetry; exact Hrot].
        intro Hlt. rewrite Z.rem_small by lia. split; [lia|].
        intros j Hj. rewrite nth_ring_upd_other by (unfold i; lia).
        rewrite N1 by (unfold i; lia). apply Hz. lia.
      * apply Z.ltb_ge in Ec. apply Z.gtb_lt in Epid. rewrite Epid.
        rewrite ring_upd_length. split; [exact L1|]. split; [exact Hrem|].
        split; [lia|]. split; [intro; lia|symmetry; exact Hrot].
    + unfold log, ring_ok, PQIV_KEEP.
      cbn [pqiv_ring pqiv_pos pqiv_count calls alive]. rewrite Epid, P1, C1.
      split; [exact L1|]. split; [exact Hp|]. split; [exact Hc|]. split.
      * intro Hlt. destruct (Hfill Hlt) as [Hpc Hz]. split; [exact Hpc|].
        intros j Hj. destruct (Nat.eq_dec j i) as [->|Hne].
        -- exact G1.
        -- rewrite N1 by exact Hne. now apply Hz.
      * rewrite rotate_head by lia. fold i. rewrite G1, A1.
        unfold live. cbn [filter]. reflexivity.
  - split.
    + destruct (pid >? 0) eqn:Epid; cbv zeta.
      * unfold log, ring_set, set_pos, set_count.
        cbn [pqiv_ring pqiv_pos pqiv_count calls].
        destruct (pqiv_count v1 <? 8); cbn [calls alive]; now rewrite Epid.
      * unfold log; cbn [calls alive]. now rewrite Epid, app_nil_r.
    + destruct (pid >? 0) eqn:Epid; cbv zeta.
      * unfold log, ring_set, set_pos, set_count.
        cbn [pqiv_ring pqiv_pos pqiv_count calls].
        destruct (pqiv_count v1 <? 8); cbn [calls slept]; rewrite Hv2; lia.
      * unfold log; cbn [calls slept]. rewrite Hv2. lia.
Qed.

Lemma show_image_count path pid v :
  ring_ok v ->
  pqiv_count (show_image path pid v)
  = if pid >? 0 then Z.min (pqiv_count v + 1) 8 else pqiv_count v.
Proof.
  intro Hok. pose proof (recycle_spec v Hok) as Hr. cbv zeta in Hr.
  destruct Hr as (_ & _ & C1 & _). rewrite show_image_recycle.
  destruct (pid >? 0); cbv zeta;
    unfold log, ring_set, set_pos, set_count, PQIV_KEEP;
    cbn [pqiv_ring pqiv_pos pqiv_count calls].
  - destruct (pqiv_count (recycle v) <? 8) eqn:E;
      cbn [pqiv_count]; rewrite C1 in *.
    + apply Z.ltb_lt in E. lia.
    + apply Z.ltb_ge in E. destruct Hok as (_ & _ & Hc & _).
      unfold PQIV_KEEP in Hc. lia.
  - exact C1.
Qed.

Lemma live_length ring : (List.length (live ring) <= List.length ring)%nat.
Proof.
  unfold live. induction ring as [|x r IH]; cbn [filter List.length]; [lia|].
  destruct (0 <? x); cbn [List.length]; lia.
Qed.

Lemma rotate_length i ring : List.length (rotate i ring) = List.length ring.
Proof.
  unfold rotate. rewrite length_app, Nat.add_comm, <- length_app.
  now rewrite firstn_skipn.
Qed.

Lemma ring_ok_alive_bound v :
  ring_ok v -> (List.length (alive (calls v)) <= 8)%nat.
Proof.
  intros (Hl & _ & _ & _ & Ha). rewrite Ha.
  pose proof (live_length (rotate (pqiv_pos v) (pqiv_ring v))) as H.
  rewrite rotate_length, Hl in H. exact H.
Qed.

Lemma ring_ok_init : ring_ok init.
Proof.
  unfold ring_ok, init, PQIV_KEEP. cbn [pqiv_ring pqiv_pos pqiv_count calls].
  split; [reflexivity|]. split; [lia|]. split; [lia|]. split; [|reflexivity].
  intros _. split; [reflexivity|]. intros j _.
  do 8 (destruct j as [|j]; [reflexivity|]). now destruct j.
Qed.

Lemma show_images_app l l' v :
  show_images (l ++ l')%list v = show_images l' (show_images l v).
Proof.
  revert v. induction l as [|[path pid] l IH]; intro v; [reflexivity|].
  cbn [show_images app]. apply IH.
Qed.

Lemma show_images_ring_ok l v : ring_ok v -> ring_ok (show_images l v).
Proof.
  revert v. induction l as [|[path pid] l IH]; intros v Hv; [exact Hv|].
  cbn [show_images]. apply IH. now apply show_image_step.
Qed.

Lemma skipn_succ_tl {A} (k : nat) (l : list A) : skipn (S k) l = tl (skipn k l).
Proof.
  revert l. induction k as [|k IH]; intros [|x l]; try reflexivity.
  change (skipn (S (S k)) (x :: l)) with (skipn (S k) l).
  change (skipn (S k) (x :: l)) with (skipn k l).
  destruct l as [|y l]; [now destruct k|]. apply IH.
Qed.

(** A run of calls whose forks all succeed: the count, the viewers alive and
    the time asleep after it. *)
Lemma show_images_forks_succeed l :
  Forall (fun x => 0 < snd x) l ->
  let v := show_images l init in
  let n := List.length l in
  ring_ok v
  /\ pqiv_count v = Z.min (Z.of_nat n) 8
  /\ alive (calls v) = skipn (n - 8) (map snd l)
  /\ slept (calls v) = 25000 * Z.of_nat n + 60000 * Z.max 0 (Z.of_nat n - 8).
Proof.
  induction l as [|[path pid] l IH] using rev_ind; intro HF; cbv zeta.
  - split; [exact ring_ok_init|]. repeat split.
  - apply Forall_app in HF. destruct HF as [HF Hpid].
    apply Forall_inv in Hpid. cbn [snd] in Hpid.
    specialize (IH HF). cbv zeta in IH. destruct IH as (Hok & Hc & Ha & Hs).
    rewrite show_images_app. cbn [show_images].
    set (v := show_images l init) in *.
    destruct (show_image_step path pid v Hok) as (Hok' & Hv & Hnew & Hsl).
    pose proof (show_image_count path pid v Hok) as Hcnt.
    assert (Epid : (pid >? 0) = true) by (apply Z.gtb_lt; lia).
    rewrite Epid in Hnew, Hcnt.
    rewrite length_app, map_app. cbn [List.length map snd].
    set (n := List.length l) in *.
    assert (Hlen : List.length (map snd l) = n) by apply length_map.
    split; [exact Hok'|]. split; [rewrite Hcnt, Hc; lia|].
    destruct (Nat.lt_ge_cases n 8) as [Hn|Hn].
    + assert (Hvic : victim v = None).
      { unfold victim, PQIV_KEEP. rewrite Hc.
        replace (Z.min (Z.of_nat n) 8 >=? 8) with false; [reflexivity|].
        symmetry. rewrite Z.geb_leb. apply Z.leb_gt. lia. }
      rewrite Hvic in Hv, Hsl. cbn [app] in Hv.
      split.
      * rewrite Hnew, <- Hv, Ha.
        replace (n - 8)%nat with O by lia.
        replace (n + 1 - 8)%nat with O by lia. reflexivity.
      * rewrite Hsl, Hs. lia.
    + assert (Hal : List.length (alive (calls v)) = 8%nat).
      { rewrite Ha, length_skipn, Hlen. lia. }
      pose proof (ring_ok_alive_bound _ Hok') as Hb.
      rewrite Hnew, length_app in Hb. cbn [List.length] in Hb.
      destruct (victim v) as [p|].
      * cbn [app] in Hv. split.
        -- rewrite Hnew.
           replace (n + 1 - 8)%nat with (S (n - 8)) by lia.
           rewrite skipn_app, Hlen.
           replace (S (n - 8) - n)%nat with O by lia.
           rewrite skipn_succ_tl, <- Ha, Hv. reflexivity.
        -- rewrite Hsl, Hs. lia.
      * cbn [app] in Hv. rewrite <- Hv, Hal in Hb. lia.
Qed.

(** However its forks turn out, a run of [show_image] calls from the initial
    ring never leaves more than [PQIV_KEEP] viewers alive. *)
Theorem viewers_at_most_eight (l : list (string * Z)) :
  (List.length (alive (calls (show_images l init))) <= Z.to_nat PQIV_KEEP)%nat.
Proof.
  apply ring_ok_alive_bound, show_images_ring_ok, ring_ok_init.
Qed.

(** When every fork succeeds, the viewers alive after a run of [show_image]
    calls are those of the last eight calls, oldest first: each call from the
    ninth on has killed the oldest viewer. *)
Theorem viewers_are_the_last_eight (l : list (string * Z)) :
  Forall (fun x => 0 < snd x) l ->
  alive (calls (show_images l init))
  = skipn (List.length l - Z.to_nat PQIV_KEEP) (map snd l).
Proof.
  intro HF. now destruct (show_images_forks_succeed l HF) as (_ & _ & Ha & _).
Qed.

(** When every fork succeeds, a run of [show_image] calls sleeps 25 ms a
    call, and 60 ms more for each call from the ninth on. *)
Theorem show_image_sleeps (l : list (string * Z)) :
  Forall (fun x => 0 < snd x) l ->
  slept (calls (show_images l init))
  = 25000 * Z.of_nat (List.length l)
    + 60000 * Z.max 0 (Z.of_nat (List.length l) - PQIV_KEEP).
Proof.
  intro HF. now destruct (show_images_forks_succeed l HF) as (_ & _ & _ & Hs).
Qed.

Lemma remove_first_perm p : forall l X,
  Permutation l (p :: X) -> Permutation (remove_first p l) X.
Proof.
  intros l X H.
  assert (Hin : In p l).
  { apply (Permutation_in p (Permutation_sym H)). now left. }
  assert (Hl : Permutation l (p :: remove_first p l)).
  { clear H. induction l as [|x l IH]; [contradiction|].
    cbn [remove_first]. destruct (x =? p) eqn:E.
    - apply Z.eqb_eq in E. now subst.
    - destruct Hin as [->|Hin]; [rewrite Z.eqb_refl in E; discriminate|].
      etransitivity; [apply perm_skip, IH, Hin|]. apply perm_swap. }
  apply Permutation_cons_inv with (a := p).
  etransitivity; [symmetry; exact Hl|exact H].
Qed.

Lemma ring_ok_alive_perm v :
  ring_ok v -> Permutation (alive (calls v)) (live (pqiv_ring v)).
Proof.
  intros (_ & _ & _ & _ & Ha). rewrite Ha. unfold rotate, live.
  rewrite filter_app.
  etransitivity; [apply Permutation_app_comm|].
  rewrite <- filter_app. now rewrite firstn_skipn.
Qed.

Lemma kill_from_spec : forall fuel i v,
  Z.of_nat i + Z.of_nat fuel = 8 ->
  List.length (pqiv_ring v) = 8%nat ->
  (forall j, (j < i)%nat -> nth j (pqiv_ring v) 0 = 0) ->
  Permutation (alive (calls v)) (live (skipn i (pqiv_ring v))) ->
  let v' := kill_from fuel (Z.of_nat i) v in
  alive (calls v') = []
  /\ pqiv_ring v' = repeat 0 8
  /\ slept (calls v')
     = slept (calls v) + 60000 * Z.of_nat (List.length (alive (calls v))).
Proof.
  induction fuel as [|f IH]; intros i v Hi Hl Hz Hp; cbv zeta.
  - cbn [kill_from].
    assert (i = 8%nat) by lia. subst i.
    rewrite skipn_all2 in Hp by lia. cbn in Hp.
    apply Permutation_sym, Permutation_nil in Hp. rewrite Hp.
    split; [reflexivity|]. split; [|cbn [List.length]; lia].
    apply (nth_ext _ _ 0 0); [now rewrite repeat_length|].
    intros j Hj. rewrite Hl in Hj. rewrite Hz by exact Hj.
    now rewrite nth_repeat.
  - cbn [kill_from]. unfold PQIV_KEEP.
    replace (Z.of_nat i <? 8) with true by (symmetry; apply Z.ltb_lt; lia).
    cbv zeta. unfold ring_get. rewrite Nat2Z.id.
    set (p := nth i (pqiv_ring v) 0).
    set (v1 := kill_pid_soft_hard p v).
    assert (H1 : pqiv_ring v1 = pqiv_ring v
                 /\ Permutation (alive (calls v1)) (live (skipn (S i) (pqiv_ring v)))
                 /\ slept (calls v1) + 60000 * Z.of_nat (List.length (alive (calls v1)))
                    = slept (calls v) + 60000 * Z.of_nat (List.length (alive (calls v)))).
    { rewrite (skipn_nth_Z (pqiv_ring v) i) in Hp by lia. fold p in Hp.
      unfold v1, kill_pid_soft_hard, live in *. cbn [filter] in Hp.
      destruct (p <=? 0) eqn:E.
      - apply Z.leb_le in E.
        replace (0 <? p) with false in Hp by (symmetry; apply Z.ltb_ge; lia).
        split; [reflexivity|]. split; [exact Hp|reflexivity].
      - apply Z.leb_gt in E.
        replace (0 <? p) with true in Hp by (symmetry; apply Z.ltb_lt; lia).
        unfold log. cbn [pqiv_ring calls alive slept].
        unfold SIGKILL, SIGTERM. change (9 =? 9) with true.
        change (15 =? 9) with false. cbv iota.
        split; [reflexivity|]. split; [now apply remove_first_perm|].
        pose proof (Permutation_length Hp) as L1.
        pose proof (Permutation_length (remove_first_perm p _ _ Hp)) as L2.
        cbn [List.length] in L1. rewrite L1, L2. lia. }
    destruct H1 as (R1 & P1 & S1).
    replace (Z.of_nat i + 1) with (Z.of_nat (S i)) by lia.
    set (v2 := ring_set (Z.of_nat i) 0 v1).
    assert (R2 : pqiv_ring v2 = ring_upd (pqiv_ring v) i 0).
    { unfold v2, ring_set. cbn [pqiv_ring]. now rewrite Nat2Z.id, R1. }
    assert (C2 : calls v2 = calls v1) by reflexivity.
    clearbody v2 v1.
    destruct (IH (S i) v2) as (A & B & C).
    + lia.
    + rewrite R2. now rewrite ring_upd_length.
    + intros j Hj. rewrite R2. destruct (Nat.eq_dec j i) as [->|Hne].
      * apply nth_ring_upd. lia.
      * rewrite nth_ring_upd_other by congruence. apply Hz. lia.
    + rewrite R2, C2, skipn_ring_upd. exact P1.
    + split; [exact A|]. split; [exact B|]. rewrite C, C2. exact S1.
Qed.

Lemma kill_from_all v :
  List.length (pqiv_ring v) = 8%nat ->
  Permutation (alive (calls v)) (live (pqiv_ring v)) ->
  alive (calls (kill_from 8 0 v)) = []
  /\ pqiv_ring (kill_from 8 0 v) = repeat 0 8
  /\ slept (calls (kill_from 8 0 v))
     = slept (calls v) + 60000 * Z.of_nat (List.length (alive (calls v))).
Proof.
  intros Hl Hp.
  apply (kill_from_spec 8 0 v); [reflexivity|exact Hl|intros; lia|exact Hp].
Qed.

Lemma pqiv_kill_all_spawned_eq v :
  pqiv_kill_all_spawned v = set_count 0 (set_pos 0 (kill_from 8 0 v)).
Proof. reflexivity. Qed.

(** [cleanup]: whatever calls of [show_image] came before, and however their
    forks turned out, [pqiv_kill_all_spawned] leaves no viewer alive and the
    ring as it was at the start; it sleeps 60 ms for each viewer it kills. *)
Theorem pqiv_kill_all_spawned_kills_all (l : list (string * Z)) :
  let v := show_images l init in
  let v' := pqiv_kill_all_spawned v in
  alive (calls v') = []
  /\ pqiv_ring v' = pqiv_ring init /\ pqiv_pos v' = 0 /\ pqiv_count v' = 0
  /\ slept (calls v')
     = slept (calls v) + 60000 * Z.of_nat (List.length (alive (calls v))).
Proof.
  cbv zeta. generalize (show_images_ring_ok l init ring_ok_init).
  generalize (show_images l init). intros v Hok.
  pose proof (ring_ok_alive_perm v Hok) as Hp.
  destruct Hok as (Hl & _).
  destruct (kill_from_all v Hl Hp) as (A & B & C).
  rewrite pqiv_kill_all_spawned_eq.
  revert A B C. generalize (kill_from 8 0 v). intros w A B C.
  split; [exact A|]. split; [exact B|]. split; [reflexivity|].
  split; [reflexivity|exact C].
Qed.

Lemma viewers_are_the_last_eight_witness :
  Forall (fun x => 0 < snd x) nine_images
  /\ alive (calls (show_images nine_images init))
     = [102; 103; 104; 105; 106; 107; 108; 109].
Proof.
  assert (H : Forall (fun x => 0 < snd x) nine_images)
    by (repeat (constructor; [reflexivity|]); constructor).
  split; [exact H|]. exact (viewers_are_the_last_eight nine_images H).
Defined.

Lemma show_image_sleeps_witness :
  Forall (fun x => 0 < snd x) nine_images
  /\ slept (calls (show_images nine_images init)) = 9 * 25000 + 60000.
Proof.
  assert (H : Forall (fun x => 0 < snd x) nine_images)
    by (repeat (constructor; [reflexivity|]); constructor).
  split; [exact H|]. exact (show_image_sleeps nine_images H).
Defined.

End Viewers.
